(** * go-hass-agent: sensor registry, controllers and URL helpers

    A shallow embedding of the orchestration core of go-hass-agent:
    - [internal/sensors/registry.go]: the persisted sensor registry;
    - the Linux MQTT controller ([Subscriptions], [Configs], [Msgs]);
    - the goroutines started by [OpenSensorRegistry] and [newOSController];
    - [linuxSensor.Name] / [linuxSensor.ID];
    - the two [generateWebsocketURL] helpers.

    Third-party packages (badger, encoding/json, net/url, strcase) are not
    part of the repository.  Where the repository's code only threads their
    results through, they are section variables; where a concrete run is
    needed, a small executable model is given and its coverage is stated. *)

From Stdlib Require Import ZArith Lia Bool Ascii String List.
From stdpp Require Import base strings gmap list pretty.
Import ListNotations.
Local Open Scope string_scope.
Local Open Scope list_scope.

(** ** Errors

    Go's [error] values that the modelled code can return or compare
    against.  [Wrapped] is [fmt.Errorf("...: %w", err)]. *)
Inductive error : Type :=
  | ErrKeyNotFound            (* badger.ErrKeyNotFound *)
  | ErrDBClosed               (* badger.ErrDBClosed *)
  | ErrReadOnlyTxn            (* badger.ErrReadOnlyTxn *)
  | ErrEmptyKey               (* badger.ErrEmptyKey *)
  | ErrInvalidKey             (* badger.ErrInvalidKey *)
  | ErrKeyTooLarge (size : nat) (* badger's exceedsSize("Key", 65000, key) *)
  | ErrJSONSyntax             (* *json.SyntaxError *)
  | ErrURLParse               (* *url.Error *)
  | ErrMarshal (why : string) (* an entity's marshalling failure *)
  | ErrWorkerAlreadyStarted
  | ErrUnknownWorker
  | ErrOther (why : string)
  | Wrapped (msg : string) (inner : error).

(** [errors.Is(err, target)]: [err] or any error it wraps is [target]. *)
Fixpoint error_eqb (a b : error) : bool :=
  match a, b with
  | ErrKeyNotFound, ErrKeyNotFound => true
  | ErrDBClosed, ErrDBClosed => true
  | ErrReadOnlyTxn, ErrReadOnlyTxn => true
  | ErrEmptyKey, ErrEmptyKey => true
  | ErrInvalidKey, ErrInvalidKey => true
  | ErrKeyTooLarge x, ErrKeyTooLarge y => bool_decide (x = y)
  | ErrJSONSyntax, ErrJSONSyntax => true
  | ErrURLParse, ErrURLParse => true
  | ErrMarshal x, ErrMarshal y => bool_decide (x = y)
  | ErrWorkerAlreadyStarted, ErrWorkerAlreadyStarted => true
  | ErrUnknownWorker, ErrUnknownWorker => true
  | ErrOther x, ErrOther y => bool_decide (x = y)
  | Wrapped m x, Wrapped n y => bool_decide (m = n) && error_eqb x y
  | _, _ => false
  end.

Fixpoint errors_Is (err target : error) : bool :=
  error_eqb err target ||
  match err with
  | Wrapped _ inner => errors_Is inner target
  | _ => false
  end.

(** ** encoding/json for [registryValues] *)
Module json.

(** The double quote, written by its code so that no literal needs it. *)
Definition dquote : ascii := "034"%char.

Definition quoted (s : string) : string :=
  String dquote (s +:+ String dquote EmptyString).

Definition bool_lit (b : bool) : string := if b then "true" else "false".

Definition is_ws (c : ascii) : bool :=
  match c with
  | " "%char | "009"%char | "010"%char | "013"%char => true
  | _ => false
  end.

Fixpoint skip_ws (s : string) : string :=
  match s with
  | String c rest => if is_ws c then skip_ws rest else s
  | EmptyString => s
  end.

(** [strip p s] is the rest of [s] after the prefix [p], if any. *)
Fixpoint strip (p s : string) : option string :=
  match p, s with
  | EmptyString, _ => Some s
  | String a p', String b s' =>
      if Ascii.eqb a b then strip p' s' else None
  | String _ _, EmptyString => None
  end.

Definition lower (c : ascii) : ascii :=
  let n := nat_of_ascii c in
  if (65 <=? n)%nat && (n <=? 90)%nat then ascii_of_nat (n + 32) else c.

Fixpoint fold_eqb (a b : string) : bool :=
  match a, b with
  | EmptyString, EmptyString => true
  | String x a', String y b' => Ascii.eqb (lower x) (lower y) && fold_eqb a' b'
  | _, _ => false
  end.

(** Reads an object key up to its closing quote.  Escapes are outside the
    covered subset. *)
Fixpoint read_key (s : string) : option (string * string) :=
  match s with
  | EmptyString => None
  | String c rest =>
      if Ascii.eqb c dquote then Some (EmptyString, rest)
      else if Ascii.eqb c "\"%char then None
      else match read_key rest with
           | Some (k, rest') => Some (String c k, rest')
           | None => None
           end
  end.

(** The member values of the covered subset: [true], [false], [null]. *)
Definition read_lit (s : string) : option (option bool * string) :=
  match strip "true" s with
  | Some r => Some (Some true, r)
  | None =>
      match strip "false" s with
      | Some r => Some (Some false, r)
      | None =>
          match strip "null" s with
          | Some r => Some (None, r)
          | None => None
          end
      end
  end.

(** The members of an object, after the opening brace.  [set] stores one
    decoded member into the target; [fuel] bounds the number of members. *)
Fixpoint members {St : Type} (set : string -> option bool -> St -> St)
    (fuel : nat) (s : string) (st : St) : option (St * string) :=
  match fuel with
  | O => None
  | S fuel' =>
      match skip_ws s with
      | String c r =>
          if Ascii.eqb c dquote then
            match read_key r with
            | Some (k, r1) =>
                match skip_ws r1 with
                | String ":"%char r2 =>
                    match read_lit (skip_ws r2) with
                    | Some (v, r3) =>
                        let st' := set k v st in
                        match skip_ws r3 with
                        | String ","%char r4 => members set fuel' r4 st'
                        | String "}"%char r4 => Some (st', r4)
                        | _ => None
                        end
                    | None => None
                    end
                | _ => None
                end
            | None => None
            end
          else None
      | EmptyString => None
      end
  end.

Definition at_end (s : string) : bool :=
  match skip_ws s with EmptyString => true | _ => false end.

(** Decodes one JSON text into a struct target.  Covered: an object whose
    members are [true], [false] or [null], with insignificant white space,
    and the text [null] (which leaves the target as it is).  Any other text
    is reported as [None]; encoding/json accepts more. *)
Definition object {St : Type} (set : string -> option bool -> St -> St)
    (s : string) (st : St) : option St :=
  match skip_ws s with
  | String "{"%char r =>
      match skip_ws r with
      | String "}"%char r' => if at_end r' then Some st else None
      | _ =>
          match members set (String.length s) r st with
          | Some (st', r') => if at_end r' then Some st' else None
          | None => None
          end
      end
  | other =>
      match strip "null" other with
      | Some r' => if at_end r' then Some st else None
      | None => None
      end
  end.

End json.

(** ** badger: the part of the key-value store the registry uses

    A store is open or closed over a finite map from keys to values
    ([[]byte(id)] is the string itself).  [db.View] and [db.Update] run a
    closure in a transaction; on a closed store they fail with
    [ErrDBClosed] without running it.  A transaction reads its own pending
    writes first, then the store.  [txn.Get] refuses the empty key;
    [txn.Set] refuses the empty key, a key with the reserved prefix
    [!badger!] and a key of more than 65000 bytes.  The limits on the
    value and on the size of a transaction are far above the registry's
    values, which are at most 38 bytes long, and are left out, as are
    banned namespaces and input/output errors.  Conflict detection between
    concurrent transactions is outside this sequential model. *)
Module badger.

Definition badgerPrefix : string := "!badger!".
Definition maxKeySize : N := 65000.

(** The tests [txn.modify] makes on the key of an entry, in its order. *)
Definition check_key (key : string) : option error :=
  if (String.length key =? 0)%nat then Some ErrEmptyKey
  else if String.prefix badgerPrefix key then Some ErrInvalidKey
  else if (maxKeySize <? N.of_nat (String.length key))%N
  then Some (ErrKeyTooLarge (String.length key))
  else None.

Record DB : Type := mkDB {
  closed : bool;
  kv : gmap string string
}.

Record Txn : Type := mkTxn {
  update : bool;
  snapshot : gmap string string;
  pending : gmap string string
}.

Definition NewTransaction (db : DB) (upd : bool) : Txn :=
  {| update := upd; snapshot := kv db; pending := ∅ |}.

(** [txn.Get(key)]: the item, [ErrEmptyKey] for the empty key, or
    [ErrKeyNotFound]. *)
Definition Txn_Get (txn : Txn) (key : string) : string + error :=
  if (String.length key =? 0)%nat then inr ErrEmptyKey
  else
    match pending txn !! key with
    | Some v => inl v
    | None =>
        match snapshot txn !! key with
        | Some v => inl v
        | None => inr ErrKeyNotFound
        end
    end.

(** [txn.Set(key, val)]: a read-only transaction and a key that
    [check_key] refuses leave the transaction as it was. *)
Definition Txn_Set (txn : Txn) (key val : string) : Txn * option error :=
  if negb (update txn) then (txn, Some ErrReadOnlyTxn)
  else
    match check_key key with
    | Some err => (txn, Some err)
    | None =>
        ({| update := true; snapshot := snapshot txn;
            pending := <[key := val]> (pending txn) |}, None)
    end.

(** [txn.Commit()]: the pending writes reach the store. *)
Definition Txn_Commit (txn : Txn) (db : DB) : DB * option error :=
  if closed db then (db, Some ErrDBClosed)
  else ({| closed := false; kv := pending txn ∪ kv db |}, None).

(** [db.View(fn)].  The closure's captured variables are the state [A]
    it returns next to its error. *)
Definition View {A : Type} (db : DB) (fn : Txn -> A * option error) (captured : A)
    : A * option error :=
  if closed db then (captured, Some ErrDBClosed)
  else fn (NewTransaction db false).

(** [db.Update(fn)].  The closure may reach the store it captured, so it
    takes and returns it; an error discards the transaction. *)
Definition Update (db : DB) (fn : Txn -> DB -> Txn * DB * option error)
    : DB * option error :=
  if closed db then (db, Some ErrDBClosed)
  else
    match fn (NewTransaction db true) db with
    | (_, db', Some err) => (db', Some err)
    | (txn, db', None) => Txn_Commit txn db'
    end.

(** [db.Close()]: guarded by a [sync.Once] in badger, so a second call
    finds the store closed and changes nothing. *)
Definition Close (db : DB) : DB := {| closed := true; kv := kv db |}.

End badger.

(** ** package sensors: registry.go *)
Module sensors.

Record registryValues : Type := mkValues {
  Registered : bool;
  Disabled : bool
}.

(** [&registryValues{}] *)
Definition zeroValues : registryValues :=
  {| Registered := false; Disabled := false |}.

Definition newRegistryValues : registryValues :=
  {| Registered := false; Disabled := false |}.

Record registryEntry : Type := mkEntry {
  id : string;
  values : registryValues
}.

Definition newRegistryEntry (id : string) : registryEntry :=
  {| id := id; values := newRegistryValues |}.

Definition IsDisabled (e : registryEntry) : bool := Disabled (values e).
Definition IsRegistered (e : registryEntry) : bool := Registered (values e).

Definition SetDisabled (e : registryEntry) (state : bool) : registryEntry :=
  {| id := id e;
     values := {| Registered := Registered (values e); Disabled := state |} |}.

Definition SetRegistered (e : registryEntry) (state : bool) : registryEntry :=
  {| id := id e;
     values := {| Registered := state; Disabled := Disabled (values e) |} |}.

(** [json.Marshal(values)] for the struct tags [Registered], [Disabled];
    it cannot fail on two booleans. *)
Definition json_Marshal (v : registryValues) : string * option error :=
  ("{" +:+ json.quoted "Registered" +:+ ":" +:+ json.bool_lit (Registered v)
       +:+ "," +:+ json.quoted "Disabled" +:+ ":" +:+ json.bool_lit (Disabled v)
       +:+ "}", None).

(** One decoded member stored into the struct: keys match the tags
    without regard to case, [null] leaves the field, other keys are
    ignored. *)
Definition set_field (k : string) (v : option bool) (st : registryValues)
    : registryValues :=
  match v with
  | None => st
  | Some b =>
      if json.fold_eqb k "Registered"
      then {| Registered := b; Disabled := Disabled st |}
      else if json.fold_eqb k "Disabled"
      then {| Registered := Registered st; Disabled := b |}
      else st
  end.

(** [json.Unmarshal(val, state)]: the text is checked before anything is
    stored, so a syntax error leaves [state] as it was. *)
Definition json_Unmarshal (val : string) (state : registryValues)
    : registryValues * option error :=
  match json.object set_field val state with
  | Some state' => (state', None)
  | None => (state, Some ErrJSONSyntax)
  end.

(** [item.Value(fn)] hands the stored bytes to [fn]. *)
Definition item_Value {A : Type} (item : string) (fn : string -> A) : A := fn item.

(** [sensorRegistry.Get] *)
Definition Get (reg : badger.DB) (id : string) : registryValues * option error :=
  let state := zeroValues in
  let '(state, err) :=
    badger.View reg (fun txn =>
      match badger.Txn_Get txn id with
      | inr err => (state, Some err)
      | inl item =>
          match item_Value item (fun val => json_Unmarshal val state) with
          | (state', Some err) => (state', Some err)
          | (state', None) => (state', None)
          end
      end) state in
  match err with
  | Some e => (state, Some e)
  | None => (state, None)
  end.

(** [sensorRegistry.Set]: the value is marshalled inside an outer update
    whose own transaction stays empty; the write happens in a nested,
    separately committed update. *)
Definition Set_ (reg : badger.DB) (id : string) (values : registryValues)
    : badger.DB * option error :=
  badger.Update reg (fun txn db =>
    match json_Marshal values with
    | (_, Some err) => (txn, db, Some err)
    | (v, None) =>
        let '(db', err) :=
          badger.Update db (fun txn' db'' =>
            let '(txn'', err) := badger.Txn_Set txn' id v in
            (txn'', db'', err)) in
        (txn, db', err)
    end).

(** [sensorRegistry.Update] *)
Definition Update (reg : badger.DB) (entry : registryEntry) : badger.DB * option error :=
  Set_ reg (id entry) (values entry).

(** [sensorRegistry.Add].  The debug log lines are not modelled. *)
Definition Add (reg : badger.DB) (id0 : string) : badger.DB * registryEntry :=
  let entry := newRegistryEntry id0 in
  match Get reg (id entry) with
  | (_, Some err) =>
      if errors_Is err ErrKeyNotFound
      then
        let '(reg', _) := Set_ reg (id entry) (values entry) in
        (reg', entry)
      else (reg, entry)
  | (values0, None) => (reg, {| id := id entry; values := values0 |})
  end.

(** [sensorRegistry.CloseSensorRegistry] *)
Definition CloseSensorRegistry (reg : badger.DB) : badger.DB := badger.Close reg.

End sensors.

(** ** net/url

    [url.URL] with the fields the code touches, and the three functions of
    the package that the code calls.  The functions are an interface: the
    repository's code is written against any implementation of it. *)
Module url.

Record URL : Type := mkURL {
  Scheme : string;
  Opaque : string;
  Host : string;
  Path : string;
  RawQuery : string;
  Fragment : string
}.

(** [u.Scheme = s] *)
Definition with_Scheme (s : string) (u : URL) : URL :=
  {| Scheme := s; Opaque := Opaque u; Host := Host u; Path := Path u;
     RawQuery := RawQuery u; Fragment := Fragment u |}.

Class Package : Type := {
  Parse : string -> URL + error;        (* [url.Parse] *)
  JoinPath : URL -> list string -> URL; (* [URL.JoinPath] *)
  String_ : URL -> string               (* [URL.String] *)
}.

End url.

(** ** package agent: the Linux MQTT controller *)
Module mqttapi.

(** [mqttapi.Subscription]: the topic; the callback is a Go closure and is
    carried as an opaque tag. *)
Record Subscription : Type := mkSubscription {
  sub_Topic : string;
  sub_Callback : nat
}.

(** [mqttapi.Msg] *)
Record Msg : Type := mkMsg {
  Topic : string;
  Message : string
}.

End mqttapi.

Module agent.

Import mqttapi.

(** The [entity] interface.  Both methods are pure descriptions, so an
    entity is given by what they return; a Go pointer result may be nil. *)
Record entity : Type := mkEntity {
  MarshalSubscription : option Subscription * option error;
  MarshalConfig : option Msg * option error
}.

(** One record of [c.logger.Warn]. *)
Record logline : Type := Warn {
  log_msg : string;
  log_error : error
}.

(** [mqttWorker]: [msgs] is the channel handle; each entity slice holds
    values of one Go type, all used through [entity]. *)
Record mqttWorker : Type := mkWorker {
  msgs : nat;
  sensors : list entity;
  buttons : list entity;
  numbers : list entity;
  switches : list entity;
  controls : list (option Subscription);
  binarySensors : list entity;
  cameras : list entity
}.

Record linuxMQTTController : Type := mkController {
  worker : mqttWorker;
  logger : list logline
}.

(** [generateSubscription]: the result, and what it logged. *)
Definition generateSubscription (e : entity) : option Subscription * list logline :=
  match MarshalSubscription e with
  | (_, Some err) => (None, [Warn "Could not create subscription." err])
  | (sub, None) => (sub, [])
  end.

(** [generateConfig] *)
Definition generateConfig (e : entity) : option Msg * list logline :=
  match MarshalConfig e with
  | (_, Some err) => (None, [Warn "Could not create config." err])
  | (cfg, None) => (cfg, [])
  end.

(** [for _, e := range es { acc = append(acc, gen(e)) }] *)
Definition append_each {A : Type} (gen : entity -> option A * list logline)
    (es : list entity) (acc : list (option A) * list logline)
    : list (option A) * list logline :=
  fold_left
    (fun st e =>
       let '(x, l) := gen e in
       (fst st ++ [x], snd st ++ l))
    es acc.

(** [linuxMQTTController.Subscriptions]: the returned slice and the
    controller with its log extended. *)
Definition Subscriptions (c : linuxMQTTController)
    : list (option Subscription) * linuxMQTTController :=
  let w := worker c in
  let st := ([], logger c) in
  let st := append_each generateSubscription (buttons w) st in
  let st := append_each generateSubscription (numbers w) st in
  let st := append_each generateSubscription (switches w) st in
  let subs := fst st ++ controls w in
  (subs, {| worker := w; logger := snd st |}).

(** [linuxMQTTController.Configs] *)
Definition Configs (c : linuxMQTTController)
    : list (option Msg) * linuxMQTTController :=
  let w := worker c in
  let st := ([], logger c) in
  let st := append_each generateConfig (sensors w) st in
  let st := append_each generateConfig (binarySensors w) st in
  let st := append_each generateConfig (buttons w) st in
  let st := append_each generateConfig (numbers w) st in
  let st := append_each generateConfig (switches w) st in
  let st := append_each generateConfig (cameras w) st in
  (fst st, {| worker := w; logger := snd st |}).

(** [linuxMQTTController.Msgs] *)
Definition Msgs (c : linuxMQTTController) : nat := msgs (worker c).

(** [generateWebsocketURL] of the registration code.  [WebsocketPath] is
    the constant [hass.WebsocketPath], declared outside the source files
    at hand. *)
Definition generateWebsocketURL `{url.Package} (WebsocketPath : string)
    (host : string) : string * option error :=
  match url.Parse host with
  | inr err => ("", Some (Wrapped "unable to generate websocket URL" err))
  | inl websocketURL =>
      let websocketURL :=
        if String.eqb (url.Scheme websocketURL) "https"
        then url.with_Scheme "wss" websocketURL
        else if String.eqb (url.Scheme websocketURL) "http"
        then url.with_Scheme "ws" websocketURL
        else if String.eqb (url.Scheme websocketURL) "wss"
        then websocketURL
        else url.with_Scheme "ws" websocketURL in
      let websocketURL := url.JoinPath websocketURL [WebsocketPath] in
      (url.String_ websocketURL, None)
  end.

(** The reading in which an entity whose marshalling fails is left out of
    the returned slice: only the results of the other entities remain. *)
Definition skipping {A : Type} (marshal : entity -> option A * option error)
    (es : list entity) : list (option A) :=
  omap (fun e =>
          match marshal e with
          | (_, Some _) => None
          | (x, None) => Some x
          end) es.

Definition skipping_Subscriptions (c : linuxMQTTController) : list (option Subscription) :=
  let w := worker c in
  skipping MarshalSubscription (buttons w ++ numbers w ++ switches w) ++ controls w.

Definition skipping_Configs (c : linuxMQTTController) : list (option Msg) :=
  let w := worker c in
  skipping MarshalConfig
    (sensors w ++ binarySensors w ++ buttons w ++ numbers w ++ switches w ++ cameras w).

(** The non-nil slots of a slice, in order. *)
Definition present {A : Type} (l : list (option A)) : list A := omap (fun x => x) l.

End agent.

(** ** Goroutines

    The two places where the code starts goroutines that wait for
    [ctx.Done()] are modelled as small transition systems: the state holds
    the context, the shared object and each goroutine's position; a run is
    a list of events chosen by the scheduler and the environment. *)

(** *** [newOSController]: [go func() { defer close(msgs); <-ctx.Done() }()] *)
Module msgsCloser.

Inductive position : Type :=
  | Blocked     (* at [<-ctx.Done()] *)
  | Returned.   (* the deferred [close] has run *)

Record state : Type := mkState {
  ctx_done : bool;      (* the owning context is cancelled *)
  chan_closed : bool;   (* the [msgs] channel is closed *)
  closes : nat;         (* how many times [close(msgs)] ran *)
  panicked : bool;      (* a [close] of a closed channel *)
  pos : position
}.

Inductive event : Type :=
  | Cancel      (* the context's cancel function is called *)
  | Schedule.   (* the goroutine is given a chance to run *)

(** The state right after the [go] statement; the context may already be
    cancelled. *)
Definition init (done : bool) : state :=
  {| ctx_done := done; chan_closed := false; closes := 0;
     panicked := false; pos := Blocked |}.

(** [close(ch)] *)
Definition close (s : state) : state :=
  {| ctx_done := ctx_done s;
     chan_closed := true;
     closes := S (closes s);
     panicked := panicked s || chan_closed s;
     pos := pos s |}.

Definition step (s : state) (e : event) : state :=
  match e with
  | Cancel =>
      {| ctx_done := true; chan_closed := chan_closed s; closes := closes s;
         panicked := panicked s; pos := pos s |}
  | Schedule =>
      match pos s with
      | Blocked =>
          if ctx_done s
          then let s' := close s in
               {| ctx_done := ctx_done s'; chan_closed := chan_closed s';
                  closes := closes s'; panicked := panicked s';
                  pos := Returned |}
          else s
      | Returned => s
      end
  end.

Definition run (evs : list event) (s : state) : state := fold_left step evs s.

(** What holds of every state a run can reach: the goroutine is still
    blocked and the channel open, or it has returned after the one close,
    which the cancellation preceded. *)
Definition invariant (s : state) : Prop :=
  panicked s = false /\
  ((pos s = Blocked /\ chan_closed s = false /\ closes s = 0)
   \/ (pos s = Returned /\ chan_closed s = true /\ closes s = 1
       /\ ctx_done s = true)).

End msgsCloser.

(** *** [OpenSensorRegistry]: the value-log GC loop and the closing goroutine *)
Module registryTasks.

Inductive gc_position : Type :=
  | GcWaitTick   (* at [for range ticker.C] *)
  | GcRunning    (* at [again: err := db.RunValueLogGC(0.7)] *)
  | GcExited.    (* after the loop; the deferred [ticker.Stop] has run *)

Inductive closer_position : Type :=
  | CloserBlocked    (* at [<-ctx.Done()] *)
  | CloserReturned.  (* after [db.Close()] *)

Record state : Type := mkState {
  ctx_done : bool;
  db : badger.DB;
  gc : gc_position;
  gc_runs : nat;               (* calls of [RunValueLogGC] so far *)
  closer : closer_position
}.

Inductive event : Type :=
  | Cancel                     (* the context is cancelled *)
  | Tick                       (* [ticker.C] delivers a tick *)
  | GcReturns (failed : bool)  (* [RunValueLogGC] returns; [failed] is [err != nil] *)
  | ScheduleCloser.            (* the closing goroutine is given a chance to run *)

Definition init (store : badger.DB) (done : bool) : state :=
  {| ctx_done := done; db := store; gc := GcWaitTick; gc_runs := 0;
     closer := CloserBlocked |}.

(** The GC goroutine has no case for [ctx.Done()]: a tick starts a GC
    run, a run without error repeats at once ([goto again]), a run with
    an error goes back to waiting for the next tick.  The loop ends only
    if [ticker.C] is closed, which no event does. *)
Definition step (s : state) (e : event) : state :=
  match e with
  | Cancel =>
      {| ctx_done := true; db := db s; gc := gc s; gc_runs := gc_runs s;
         closer := closer s |}
  | Tick =>
      match gc s with
      | GcWaitTick =>
          {| ctx_done := ctx_done s; db := db s; gc := GcRunning;
             gc_runs := gc_runs s; closer := closer s |}
      | _ => s
      end
  | GcReturns failed =>
      match gc s with
      | GcRunning =>
          {| ctx_done := ctx_done s; db := db s;
             gc := if failed then GcWaitTick else GcRunning;
             gc_runs := S (gc_runs s); closer := closer s |}
      | _ => s
      end
  | ScheduleCloser =>
      match closer s with
      | CloserBlocked =>
          if ctx_done s
          then {| ctx_done := true; db := badger.Close (db s); gc := gc s;
                  gc_runs := gc_runs s; closer := CloserReturned |}
          else s
      | CloserReturned => s
      end
  end.

Definition run (evs : list event) (s : state) : state := fold_left step evs s.

End registryTasks.

(** ** package config: [generateWebsocketURL] *)
Module config.

Definition websocketPath : string := "/api/websocket".

(** [generateWebsocketURL]; the warnings it logs are not modelled. *)
Definition generateWebsocketURL `{url.Package} (host : string) : string :=
  match url.Parse host with
  | inr _ => ""
  | inl baseURL =>
      if String.eqb (url.Scheme baseURL) "https"
      then url.String_ (url.JoinPath (url.with_Scheme "wss" baseURL) [websocketPath])
      else if String.eqb (url.Scheme baseURL) "http"
      then url.String_ (url.JoinPath (url.with_Scheme "ws" baseURL) [websocketPath])
      else ""
  end.

End config.

(** ** package linux: [linuxSensor] *)
Module linux.

(** [any], as far as sensor values go. *)
Inductive any : Type :=
  | AnyNil
  | AnyBool (b : bool)
  | AnyInt (z : Z)
  | AnyString (s : string).

Section Sensor.

(** The enumeration [sensorType] and its generated [String] method are
    declared outside the source files at hand; [strcase.ToSnake] is a
    third-party function. *)
Variable sensorType : Type.
Variable sensorType_String : sensorType -> string.
Variable strcase_ToSnake : string -> string.

Record linuxSensor : Type := mkSensor {
  value : any;
  icon : string;
  units : string;
  source : string;
  sensorType_ : sensorType;
  isBinary : bool;
  isDiagnostic : bool;
  deviceClass : nat;
  stateClass : nat
}.

Definition Name (l : linuxSensor) : string :=
  sensorType_String (sensorType_ l).

Definition ID (l : linuxSensor) : string :=
  strcase_ToSnake (sensorType_String (sensorType_ l)).

Definition State (l : linuxSensor) : any := value l.

Definition Category (l : linuxSensor) : string :=
  if isDiagnostic l then "diagnostic" else "".

Definition Icon (l : linuxSensor) : string := icon l.

Definition Units (l : linuxSensor) : string := units l.

End Sensor.

Arguments value {sensorType} _.
Arguments sensorType_ {sensorType} _.
Arguments Name {sensorType} _ _.
Arguments ID {sensorType} _ _ _.
Arguments State {sensorType} _.

End linux.

(** ** package sensor: snapshots *)
Module sensor.

(** [sensor.Details], a snapshot: the stable identifier and the state. *)
Record Details : Type := mkDetails {
  ID : string;
  State : Z
}.

#[global] Instance Details_eq_dec : EqDecision Details.
Proof. solve_decision. Defined.

End sensor.

(** ** The sensor controller

    [newOSController] builds the controller as a map from worker ID to
    [sensorWorker{object, started}]; the methods of [deviceController] are
    not among the source files. *)
Module deviceController.

(** The [Worker] interface, by what its methods return: [Updates] gives
    the stream (the snapshots it will carry) or an error. *)
Record Worker : Type := mkWorker {
  worker_ID : string;
  Updates : list sensor.Details + error;
  Stop_ : option error
}.

Record sensorWorker : Type := mkSensorWorker {
  object : Worker;
  started : bool
}.

Record deviceController : Type := mkController {
  sensorWorkers : gmap string sensorWorker
}.

(** Modelled from the spec: [deviceController.Start], which is missing
    from the source files.  The spec's words: it fails with
    [ErrUnknownWorker] if [name] is not among the managed set, with
    [ErrWorkerAlreadyStarted] if already running; on success it launches
    the worker's update production and records it as running. *)
Definition Start (c : deviceController) (name : string)
    : deviceController * (option (list sensor.Details) * option error) :=
  match sensorWorkers c !! name with
  | None => (c, (None, Some ErrUnknownWorker))
  | Some w =>
      if started w then (c, (None, Some ErrWorkerAlreadyStarted))
      else
        match Updates (object w) with
        | inr err => (c, (None, Some err))
        | inl ch =>
            ({| sensorWorkers :=
                  <[name := {| object := object w; started := true |}]>
                    (sensorWorkers c) |},
             (Some ch, None))
        end
  end.

End deviceController.

(** ** The tracker

    [Agent.runWorkers] collects one update channel per controller and hands
    them to [trk.Process(ctx, reg, sensorCh...)].  [Process] itself is not
    among the source files. *)
Module tracker.

Import sensor.

(** The interleavings of the input streams.  The spec's words on the fan-in
    of [Process]: for every input stream one reader forwards each received
    snapshot into a single merge point and exits when its stream closes.
    [merge streams out] holds when [out] is an order in which the
    snapshots of [streams] can reach the merge point once every stream has
    been read to its end; each arrival is tagged with the index of its
    stream. *)
Inductive merge {A : Type} : list (list A) -> list (nat * A) -> Prop :=
  | merge_closed (streams : list (list A)) :
      Forall (fun s => s = []) streams ->
      merge streams []
  | merge_forward (streams : list (list A)) (i : nat) (x : A) (rest : list A)
      (out : list (nat * A)) :
      streams !! i = Some (x :: rest) ->
      merge (<[i := rest]> streams) out ->
      merge streams ((i, x) :: out).

(** The first reader that has a snapshot to forward, if any. *)
Fixpoint first_ready {A : Type} (streams : list (list A)) : option nat :=
  match streams with
  | [] => None
  | [] :: streams' => option_map S (first_ready streams')
  | (_ :: _) :: _ => Some 0
  end.

(** The reader that forwards next: the one the scheduler names when it has
    a snapshot to forward, otherwise the first one that has; none when
    every stream has been read to its end. *)
Definition next_reader {A : Type} (choice : nat) (streams : list (list A)) : option nat :=
  match streams !! choice with
  | Some (_ :: _) => Some choice
  | _ => first_ready streams
  end.

(** Modelled from the spec: the readers of [Process] at work.  [sched] is
    the scheduler's choice for each step (the first ready reader once the
    choices run out); every step forwards one snapshot, so [fuel] steps
    forward [fuel] snapshots unless the streams are exhausted before. *)
Fixpoint fan_in {A : Type} (fuel : nat) (sched : list nat) (streams : list (list A))
    : list (nat * A) :=
  match fuel with
  | O => []
  | S fuel' =>
      match next_reader (hd O sched) streams with
      | None => []
      | Some i =>
          match streams !! i with
          | Some (x :: rest) => (i, x) :: fan_in fuel' (tl sched) (<[i := rest]> streams)
          | _ => []
          end
      end
  end.

(** Modelled from the spec: the stream at the merge point of [Process]
    when the readers run until every input stream is closed. *)
Definition merged {A : Type} (sched : list nat) (streams : list (list A))
    : list (nat * A) :=
  fan_in (length (concat streams)) sched streams.

(** What the tracker asks of the remote publisher. *)
Inductive request : Type :=
  | RegisterSensor (d : Details)
  | UpdateSensor (d : Details).

Definition snapshot_of (r : request) : Details :=
  match r with
  | RegisterSensor d => d
  | UpdateSensor d => d
  end.

Record state : Type := mkState {
  registry : badger.DB;             (* behind [sensors.Get] / [sensors.Set] *)
  cache : gmap string Details;      (* last known value per sensor ID *)
  sent : list request               (* the calls made to the publisher *)
}.

Section Process.

(** The publisher's answer to the [n]-th call: [true] on success. *)
Variable publish : nat -> request -> bool.

(** Modelled from the spec: step 2 of [Process], which is missing from
    the source files.  The spec's words: look the ID up in the registry;
    unknown ID: create an entry with [registered=false, disabled=false],
    forward on the register path, then mark [registered=true] on
    success; known and disabled: drop the update but keep the cached
    last known value; known and not disabled: forward an update.  A
    registry that cannot answer is treated like an unknown ID (fail
    open).  A failed publish is not an error of the loop. *)
Definition handle (st : state) (d : Details) : state :=
  match sensors.Get (registry st) (ID d) with
  | (_, Some _) =>
      let '(reg1, _) := sensors.Set_ (registry st) (ID d) sensors.newRegistryValues in
      let ok := publish (length (sent st)) (RegisterSensor d) in
      let reg2 :=
        if ok
        then fst (sensors.Set_ reg1 (ID d)
                    {| sensors.Registered := true; sensors.Disabled := false |})
        else reg1 in
      {| registry := reg2;
         cache := <[ID d := d]> (cache st);
         sent := sent st ++ [RegisterSensor d] |}
  | (v, None) =>
      if sensors.Disabled v
      then {| registry := registry st;
              cache := <[ID d := d]> (cache st);
              sent := sent st |}
      else {| registry := registry st;
              cache := <[ID d := d]> (cache st);
              sent := sent st ++ [UpdateSensor d] |}
  end.

(** Modelled from the spec: [Process(ctx, reg, streams...)], which is
    missing from the source files.  The spec's words: merge N independent
    update streams into a single logical stream (step 1, the readers) and
    decide for each snapshot received at the merge point (step 2).  The
    run goes on until all input streams are closed; [sched] is the order
    in which the scheduler lets the readers forward. *)
Definition Process (sched : list nat) (reg : badger.DB) (streams : list (list Details))
    : state :=
  fold_left handle (map snd (merged sched streams))
    {| registry := reg; cache := ∅; sent := [] |}.

End Process.

(** The snapshots handed to the publisher, in order. *)
Definition delivered (st : state) : list Details := map snapshot_of (sent st).


(** Modelled from the spec: [Reset] clears the cache of last known values
    and leaves the registry alone. *)
Definition Reset (st : state) : state :=
  {| registry := registry st; cache := ∅; sent := sent st |}.

End tracker.

(** ** An executable net/url

    An implementation of the [url.Package] interface that follows the
    standard library's [Parse], [JoinPath] and [String] for URLs without
    percent-escapes and user information; host syntax is not validated.  It
    serves to run the definitions on concrete hosts. *)
Module gourl.

Import url.

Definition is_letter (c : ascii) : bool :=
  let n := nat_of_ascii c in
  ((97 <=? n)%nat && (n <=? 122)%nat) || ((65 <=? n)%nat && (n <=? 90)%nat).

Definition is_scheme_other (c : ascii) : bool :=
  let n := nat_of_ascii c in
  ((48 <=? n)%nat && (n <=? 57)%nat)
  || Ascii.eqb c "+"%char || Ascii.eqb c "-"%char || Ascii.eqb c "."%char.

Definition is_ctl (c : ascii) : bool :=
  let n := nat_of_ascii c in (n <? 32)%nat || (n =? 127)%nat.

Fixpoint contains_ctl (s : string) : bool :=
  match s with
  | EmptyString => false
  | String c r => is_ctl c || contains_ctl r
  end.

Fixpoint to_lower (s : string) : string :=
  match s with
  | EmptyString => EmptyString
  | String c r => String (json.lower c) (to_lower r)
  end.

(** [strings.Cut(s, sep)] for a one-byte separator. *)
Fixpoint cut (sep : ascii) (s : string) : string * option string :=
  match s with
  | EmptyString => (EmptyString, None)
  | String c r =>
      if Ascii.eqb c sep then (EmptyString, Some r)
      else let '(before, after) := cut sep r in (String c before, after)
  end.

Definition has_prefix (p s : string) : bool :=
  match json.strip p s with Some _ => true | None => false end.

Fixpoint has_suffix_slash (s : string) : bool :=
  match s with
  | EmptyString => false
  | String c EmptyString => Ascii.eqb c "/"%char
  | String _ r => has_suffix_slash r
  end.

Fixpoint contains (c : ascii) (s : string) : bool :=
  match s with
  | EmptyString => false
  | String d r => Ascii.eqb c d || contains c r
  end.

(** [getScheme]: [inr] is "missing protocol scheme"; [inl (scheme, rest)]
    has an empty scheme when the text has none. *)
Fixpoint scan_scheme (first : bool) (s : string) : option (option (string * string)) :=
  match s with
  | EmptyString => Some None
  | String c r =>
      if is_letter c || (is_scheme_other c && negb first) then
        match scan_scheme false r with
        | Some (Some (sch, rest)) => Some (Some (String c sch, rest))
        | other => other
        end
      else if Ascii.eqb c ":"%char then
        if first then None else Some (Some (EmptyString, r))
      else Some None
  end.

Definition getScheme (rawURL : string) : (string * string) + error :=
  match scan_scheme true rawURL with
  | None => inr ErrURLParse
  | Some None => inl (EmptyString, rawURL)
  | Some (Some (sch, rest)) => inl (sch, rest)
  end.

Definition Parse_ (rawURL : string) : URL + error :=
  let '(u, frag) := cut "#"%char rawURL in
  let frag := default EmptyString frag in
  if contains_ctl u then inr ErrURLParse
  else if String.eqb u "*"
  then inl (mkURL "" "" "" "*" "" frag)
  else
    match getScheme u with
    | inr err => inr err
    | inl (scheme, rest) =>
        let scheme := to_lower scheme in
        let '(rest, query) := cut "?"%char rest in
        let query := default EmptyString query in
        if negb (has_prefix "/" rest) && negb (String.eqb scheme "")
        then inl (mkURL scheme rest "" "" query frag)
        else if negb (has_prefix "/" rest) && contains ":"%char (fst (cut "/"%char rest))
        then inr ErrURLParse
        else
          match json.strip "//" rest with
          | Some authority =>
              if String.eqb scheme "" && has_prefix "/" authority
              then inl (mkURL scheme "" "" rest query frag)
              else
                let '(host, path) := cut "/"%char authority in
                let path :=
                  match path with
                  | Some p => String "/"%char p
                  | None => EmptyString
                  end in
                inl (mkURL scheme "" host path query frag)
          | None => inl (mkURL scheme "" "" rest query frag)
          end
    end.

(** The segments of a path between slashes. *)
Fixpoint segments (cur : string) (s : string) : list string :=
  match s with
  | EmptyString => [cur]
  | String c r =>
      if Ascii.eqb c "/"%char then cur :: segments EmptyString r
      else segments (cur +:+ String c EmptyString) r
  end.

(** [path.Clean] on the segments: the stack of kept segments, last first. *)
Definition clean_step (rooted : bool) (stack : list string) (seg : string) : list string :=
  if String.eqb seg "" || String.eqb seg "." then stack
  else if String.eqb seg ".." then
    match stack with
    | top :: below => if String.eqb top ".." then seg :: stack else below
    | [] => if rooted then [] else [seg]
    end
  else seg :: stack.

Fixpoint join_slash (segs : list string) : string :=
  match segs with
  | [] => EmptyString
  | [x] => x
  | x :: rest => x +:+ "/" +:+ join_slash rest
  end.

Definition Clean (p : string) : string :=
  if String.eqb p "" then "."
  else
    let rooted := has_prefix "/" p in
    let kept := rev (fold_left (clean_step rooted) (segments EmptyString p) []) in
    let body := join_slash kept in
    if rooted then String "/"%char body
    else if String.eqb body "" then "." else body.

(** [path.Join] *)
Definition Join (elem : list string) : string :=
  match filter (fun e => e <> EmptyString) elem with
  | [] => EmptyString
  | nonempty => Clean (join_slash nonempty)
  end.

Definition tail (s : string) : string :=
  match s with String _ r => r | EmptyString => EmptyString end.

Definition JoinPath_ (u : URL) (elem : list string) : URL :=
  let first := Path u in
  let relative := negb (has_prefix "/" first) in
  let elems := (if relative then String "/"%char first else first) :: elem in
  let p := if relative then tail (Join elems) else Join elems in
  let p :=
    if has_suffix_slash (List.last elems EmptyString) && negb (has_suffix_slash p)
    then p +:+ "/" else p in
  {| Scheme := Scheme u; Opaque := Opaque u; Host := Host u; Path := p;
     RawQuery := RawQuery u; Fragment := Fragment u |}.

Definition String__ (u : URL) : string :=
  let scheme := if String.eqb (Scheme u) "" then "" else Scheme u +:+ ":" in
  let body :=
    if negb (String.eqb (Opaque u) "") then Opaque u
    else
      let authority :=
        if (negb (String.eqb (Scheme u) "") || negb (String.eqb (Host u) ""))
           && (negb (String.eqb (Host u) "") || negb (String.eqb (Path u) ""))
        then "//" +:+ Host u else "" in
      let sep :=
        if negb (String.eqb (Path u) "") && negb (has_prefix "/" (Path u))
           && negb (String.eqb (Host u) "")
        then "/" else "" in
      let dot :=
        if String.eqb (scheme +:+ authority +:+ sep) ""
           && contains ":"%char (fst (cut "/"%char (Path u)))
        then "./" else "" in
      authority +:+ sep +:+ dot +:+ Path u in
  let query := if String.eqb (RawQuery u) "" then "" else "?" +:+ RawQuery u in
  let frag := if String.eqb (Fragment u) "" then "" else "#" +:+ Fragment u in
  scheme +:+ body +:+ query +:+ frag.

#[global] Instance package : url.Package :=
  {| Parse := Parse_; JoinPath := JoinPath_; String_ := String__ |}.

End gourl.

(** ** strcase: [ToSnake]

    [strcase.ToSnake(s)] is [ToScreamingDelimited] with the underscore as
    delimiter, an empty [ignore] and [screaming] off: the string is
    trimmed with [strings.TrimSpace] and then rewritten byte by byte.
    With the empty [ignore] of that call the tests on [ignore] are
    constant and are left out.  [strings.TrimSpace] is embedded as far as
    it works on ASCII; at the first byte that is not ASCII it hands over to
    [strings.TrimFunc] or [strings.TrimRightFunc] with [unicode.IsSpace],
    which are parameters here. *)
Module strcase.

Definition between (lo hi v : ascii) : bool :=
  (nat_of_ascii lo <=? nat_of_ascii v)%nat && (nat_of_ascii v <=? nat_of_ascii hi)%nat.

Definition isCap (v : ascii) : bool := between "A" "Z" v.
Definition isLow (v : ascii) : bool := between "a" "z" v.
Definition isNum (v : ascii) : bool := between "0" "9" v.

(** [v += 'a'; v -= 'A'] and [v += 'A'; v -= 'a'] on a byte. *)
Definition toLower (v : ascii) : ascii :=
  ascii_of_nat ((((nat_of_ascii v + 97) mod 256) + 256 - 65) mod 256).

Definition toUpper (v : ascii) : ascii :=
  ascii_of_nat ((((nat_of_ascii v + 65) mod 256) + 256 - 97) mod 256).

(** [v == ' ' || v == '_' || v == '-' || v == '.'] *)
Definition isSeparator (v : ascii) : bool :=
  Ascii.eqb v " " || Ascii.eqb v "_" || Ascii.eqb v "-" || Ascii.eqb v ".".

(** The byte after the change of case at the head of the loop body. *)
Definition recase (screaming : bool) (v : ascii) : ascii :=
  if isLow v && screaming then toUpper v
  else if isCap v && negb screaming then toLower v
  else v.

(** The loop of [ToScreamingDelimited] over the bytes that are left;
    [prev] is the byte before, as it is in the trimmed string. *)
Fixpoint delimited (delimiter : ascii) (screaming : bool) (prev : option ascii)
    (s : list ascii) : list ascii :=
  match s with
  | [] => []
  | v0 :: rest =>
      let vIsCap := isCap v0 in
      let vIsLow := isLow v0 in
      let v := recase screaming v0 in
      let written := delimited delimiter screaming (Some v0) rest in
      let plain := (if isSeparator v then delimiter else v) :: written in
      match rest with
      | [] => plain
      | next :: _ =>
          let vIsNum := isNum v in
          let nextIsCap := isCap next in
          let nextIsLow := isLow next in
          let nextIsNum := isNum next in
          if (vIsCap && (nextIsLow || nextIsNum))
             || (vIsLow && (nextIsCap || nextIsNum))
             || (vIsNum && (nextIsCap || nextIsLow))
          then
            let prevIsCap := match prev with Some p => isCap p | None => false end in
            (if vIsCap && nextIsLow && prevIsCap then [delimiter] else [])
            ++ v :: (if vIsLow || vIsNum || nextIsNum then [delimiter] else [])
            ++ written
          else plain
      end
  end.

(** [asciiSpace]: tab, line feed, vertical tab, form feed, carriage return
    and the blank. *)
Definition asciiSpace (c : ascii) : bool :=
  let n := nat_of_ascii c in
  ((9 <=? n)%nat && (n <=? 13)%nat) || (n =? 32)%nat.

(** [c >= utf8.RuneSelf] *)
Definition notASCII (c : ascii) : bool := (128 <=? nat_of_ascii c)%nat.

Section TrimSpace.

(** [strings.TrimFunc(s, unicode.IsSpace)] and
    [strings.TrimRightFunc(s, unicode.IsSpace)]. *)
Variables TrimFunc_IsSpace TrimRightFunc_IsSpace : list ascii -> list ascii.

(** The second loop of [TrimSpace]: [stop] moves down from the end; the
    argument is [s[start:stop]] read backwards. *)
Fixpoint trim_stop (backwards : list ascii) : list ascii :=
  match backwards with
  | [] => []
  | c :: before =>
      if notASCII c then TrimRightFunc_IsSpace (rev (c :: before))
      else if asciiSpace c then trim_stop before
      else rev (c :: before)
  end.

(** The first loop of [TrimSpace]: [start] moves up from the beginning. *)
Fixpoint trim_start (s : list ascii) : list ascii :=
  match s with
  | [] => []
  | c :: after =>
      if notASCII c then TrimFunc_IsSpace (c :: after)
      else if asciiSpace c then trim_start after
      else trim_stop (rev (c :: after))
  end.

Definition TrimSpace (s : string) : list ascii := trim_start (list_ascii_of_string s).

Definition ToScreamingDelimited (s : string) (delimiter : ascii) (screaming : bool)
    : string :=
  string_of_list_ascii (delimited delimiter screaming None (TrimSpace s)).

Definition ToDelimited (s : string) (delimiter : ascii) : string :=
  ToScreamingDelimited s delimiter false.

Definition ToSnake (s : string) : string := ToDelimited s "_".

End TrimSpace.

(** A byte of a name that is in snake case already: a lower-case letter
    or the underscore. *)
Definition isSnake (v : ascii) : bool := isLow v || Ascii.eqb v "_".

(** What [ToSnake] never writes: a capital letter, a blank, a hyphen or a
    dot. *)
Definition snake_free (v : ascii) : Prop :=
  isCap v = false /\ v <> " "%char /\ v <> "-"%char /\ v <> "."%char.

End strcase.

(** ** A sensor type table

    An example of the [sensorType] enumeration with its [String] method,
    to run [linuxSensor.ID] on concrete sensors. *)
Module sensorNames.

Inductive sensorType : Type :=
  | screenLock
  | batteryLevel.

Definition String_ (t : sensorType) : string :=
  match t with
  | screenLock => "Screen Lock"
  | batteryLevel => "Battery Level"
  end.

End sensorNames.

(** ** package agent: [newOSController]

    The constructors it calls live in other packages; what they return is
    the input here.  A constructor that reports no error is taken to
    return its entities.  The goroutine it starts is [msgsCloser]. *)
Module osController.

Import agent mqttapi.

(** [media.NewCameraControl]'s result. *)
Record cameraEntities : Type := mkCamera {
  StartButton : entity;
  StopButton : entity;
  Images : entity;
  Status : entity
}.

Record platform : Type := mkPlatform {
  workers : list (deviceController.Worker + error);  (* [allworkers], called in order *)
  powerControl : list entity + error;                (* [power.NewPowerControl] *)
  screenLockControl : list entity + error;           (* [power.NewScreenLockControl] *)
  volumeControl : option entity * option entity;     (* [media.VolumeControl] *)
  mprisControl : entity + error;                     (* [media.MPRISControl] *)
  cameraControl : option cameraEntities;             (* [media.NewCameraControl] *)
  dbusCommand : option Subscription * option error   (* [system.NewDBusCommandSubscription] *)
}.

(** One turn of the loop over [allworkers]. *)
Definition add_worker (st : gmap string deviceController.sensorWorker * list logline)
    (r : deviceController.Worker + error)
    : gmap string deviceController.sensorWorker * list logline :=
  match r with
  | inr err => (st.1, st.2 ++ [Warn "Could not start a sensor worker." err])
  | inl w =>
      (<[deviceController.worker_ID w :=
           {| deviceController.object := w; deviceController.started := false |}]> st.1,
       st.2)
  end.

(** The sensor controller and what its logger received. *)
Definition sensorController (p : platform)
    : deviceController.deviceController * list logline :=
  let st := fold_left add_worker (workers p) (∅, []) in
  ({| deviceController.sensorWorkers := st.1 |}, st.2).

(** The MQTT controller, built on the fresh channel [ch]. *)
Definition mqttController (p : platform) (ch : nat) : linuxMQTTController :=
  let c := {| worker := {| msgs := ch; sensors := []; buttons := []; numbers := [];
                           switches := []; controls := []; binarySensors := [];
                           cameras := [] |};
              logger := [] |} in
  let with_buttons (c : linuxMQTTController) (es : list entity) :=
    let w := worker c in
    {| worker := {| msgs := msgs w; sensors := sensors w; buttons := buttons w ++ es;
                    numbers := numbers w; switches := switches w; controls := controls w;
                    binarySensors := binarySensors w; cameras := cameras w |};
       logger := logger c |} in
  let with_sensors (c : linuxMQTTController) (es : list entity) :=
    let w := worker c in
    {| worker := {| msgs := msgs w; sensors := sensors w ++ es; buttons := buttons w;
                    numbers := numbers w; switches := switches w; controls := controls w;
                    binarySensors := binarySensors w; cameras := cameras w |};
       logger := logger c |} in
  let warn (c : linuxMQTTController) (msg : string) (err : error) :=
    {| worker := worker c; logger := logger c ++ [Warn msg err] |} in
  let c := match powerControl p with
           | inr err => warn c "Could not create power controls." err
           | inl powerEntities => with_buttons c powerEntities
           end in
  let c := match screenLockControl p with
           | inr err => warn c "Could not create screen lock controls." err
           | inl screenControls => with_buttons c screenControls
           end in
  let c := match volumeControl p with
           | (Some volEntity, Some muteEntity) =>
               let w := worker c in
               {| worker := {| msgs := msgs w; sensors := sensors w; buttons := buttons w;
                               numbers := numbers w ++ [volEntity];
                               switches := switches w ++ [muteEntity];
                               controls := controls w;
                               binarySensors := binarySensors w; cameras := cameras w |};
                  logger := logger c |}
           | _ => c
           end in
  let c := match mprisControl p with
           | inr err => warn c "Could not activate MPRIS controller." err
           | inl mprisEntity => with_sensors c [mprisEntity]
           end in
  let c := match cameraControl p with
           | Some cam =>
               let c := with_buttons c [StartButton cam; StopButton cam] in
               let w := worker c in
               let c := {| worker := {| msgs := msgs w; sensors := sensors w;
                                        buttons := buttons w; numbers := numbers w;
                                        switches := switches w; controls := controls w;
                                        binarySensors := binarySensors w;
                                        cameras := cameras w ++ [Images cam] |};
                           logger := logger c |} in
               with_sensors c [Status cam]
           | None => c
           end in
  match dbusCommand p with
  | (_, Some err) => warn c "Could not activate D-Bus commands controller." err
  | (dbusCmdController, None) =>
      let w := worker c in
      {| worker := {| msgs := msgs w; sensors := sensors w; buttons := buttons w;
                      numbers := numbers w; switches := switches w;
                      controls := controls w ++ [dbusCmdController];
                      binarySensors := binarySensors w; cameras := cameras w |};
         logger := logger c |}
  end.

(** [newOSController]: without an MQTT device only the sensor controller
    is built. *)
Definition newOSController (p : platform) (mqttDevice : bool) (ch : nat)
    : (deviceController.deviceController * list logline) * option linuxMQTTController :=
  let sc := sensorController p in
  if mqttDevice then (sc, Some (mqttController p ch)) else (sc, None).

(** The entities of a constructor that succeeded. *)
Definition built {A : Type} (r : list A + error) : list A :=
  match r with inl es => es | inr _ => [] end.

End osController.

(** ** package preferences, as far as the agent's code reaches into it

    The structs are declared outside the source files at hand; the fields
    are those the agent reads and writes.  The MQTT preferences are only
    passed around. *)
Module preferences.

Record Registration : Type := mkRegistration {
  Server : string;
  Token : string
}.

Record Hass : Type := mkHass {
  CloudhookURL : string;
  RemoteUIURL : string;
  WebhookID : string;
  IgnoreHassURLs : bool;
  RestAPIURL : string;
  WebsocketURL : string
}.

Inductive MQTT : Type := mkMQTT (settings : string).

Record Preferences : Type := mkPreferences {
  Registered : bool;
  Registration_ : Registration;
  Hass_ : option Hass;      (* [*preferences.Hass] *)
  MQTT_ : option MQTT       (* [*preferences.MQTT] *)
}.

End preferences.

(** ** package agent: the run loop's helpers *)
Module agentRun.

Import agent.

Section Controllers.

Variables SensorController MQTTController : Type.

(** A value returned by [setupControllers], by the interfaces its dynamic
    type implements. *)
Record anyController : Type := mkAny {
  asSensorController : option SensorController;
  asMQTTController : option MQTTController
}.

(** The type switch in [Agent.Run]: the first case that matches wins. *)
Definition sort_step (acc : list SensorController * list MQTTController)
    (c : anyController) : list SensorController * list MQTTController :=
  match asSensorController c with
  | Some controller => (acc.1 ++ [controller], acc.2)
  | None =>
      match asMQTTController c with
      | Some controller => (acc.1, acc.2 ++ [controller])
      | None => acc
      end
  end.

Definition sort_controllers (cs : list anyController)
    : list SensorController * list MQTTController :=
  fold_left sort_step cs ([], []).

(** [if len(mqttControllers) > 0]: whether [runMQTTWorkers] is started. *)
Definition runs_mqtt (cs : list anyController) : bool :=
  match (sort_controllers cs).2 with
  | [] => false
  | _ :: _ => true
  end.

End Controllers.

Arguments mkAny {SensorController MQTTController} _ _.
Arguments asSensorController {SensorController MQTTController} _.
Arguments asMQTTController {SensorController MQTTController} _.
Arguments sort_step {SensorController MQTTController} _ _.
Arguments sort_controllers {SensorController MQTTController} _.
Arguments runs_mqtt {SensorController MQTTController} _.

(** A sensor controller as [runWorkers] sees it: what [StartAll] and
    [StopAll] return.  A channel is a handle; [None] is the nil channel. *)
Record startable : Type := mkStartable {
  name : string;
  StartAll : option nat * option error;
  StopAll : option error
}.

(** The levels the agent's logger is called with here. *)
Inductive level : Type := LevelDebug | LevelWarn | LevelError.

#[global] Instance level_eq_dec : EqDecision level.
Proof. solve_decision. Defined.

(** A line of the agent's log: level, message and the error attached. *)
Definition logged : Type := level * string * error.

Record workersRun : Type := mkWorkersRun {
  processed : list (option nat);   (* the channels handed to [trk.Process] *)
  stopped : list string;           (* the controllers [StopAll] was called on *)
  run_log : list logged
}.

(** The first loop of [runWorkers]: the channel is appended whatever
    [StartAll] reported. *)
Definition start_step (st : list (option nat) * list logged) (controller : startable)
    : list (option nat) * list logged :=
  let '(ch, err) := StartAll controller in
  let log := match err with
             | Some e => st.2 ++ [(LevelWarn, "Starting controller had problems.", e)]
             | None => st.2
             end in
  (st.1 ++ [ch], log).

(** The loop of the goroutine that waits for the context. *)
Definition stop_step (st : list string * list logged) (controller : startable)
    : list string * list logged :=
  match StopAll controller with
  | Some e =>
      (st.1 ++ [name controller],
       st.2 ++ [(LevelDebug, "Error occurred trying to stop sensor workers.", e)])
  | None => (st.1 ++ [name controller], st.2)
  end.

(** What the goroutine running [trk.Process] has done by the time
    [runWorkers] returns: nothing ([None]), or it returned [result] when
    the stopping goroutine had written [after] lines to the log ([after]
    is 0 when [Process] returns before the first of them, and so before
    the context is cancelled). *)
Record processRun : Type := mkProcessRun {
  after : nat;
  result : option error
}.

(** The line of the goroutine running [trk.Process]: logged only when
    [Process] returns an error. *)
Definition process_line (process : option processRun) : list logged :=
  match process with
  | Some {| result := Some e |} => [(LevelError, "Could not process sensor updates", e)]
  | _ => []
  end.

(** [Agent.runWorkers], in a run in which the context is cancelled.  The
    starting loop is over before the two goroutines are launched; the
    lines of the two goroutines interleave. *)
Definition runWorkers (controllers : list startable) (process : option processRun)
    : workersRun :=
  let st := fold_left start_step controllers ([], []) in
  let st' := fold_left stop_step controllers ([], []) in
  let k := match process with Some p => after p | None => O end in
  {| processed := st.1;
     stopped := st'.1;
     run_log := st.2 ++ take k st'.2 ++ process_line process ++ drop k st'.2 |}.

(** A script, by its schedule, its path and its output channel. *)
Record script : Type := mkScript {
  Schedule : string;
  Path : string;
  Output : nat
}.

Record scriptsRun : Type := mkScriptsRun {
  scheduler_started : bool;
  jobs : list script;           (* accepted by [scheduler.AddJob] *)
  outCh : list nat;             (* the channels handed to [trk.Process] *)
  scripts_log : list string
}.

Section Scripts.

(** [scheduler.AddJob(schedule, script)]'s error. *)
Variable AddJob : string -> script -> option error.

(** The loop over the scripts; an [AddJob] error leaves it ([break]). *)
Fixpoint schedule_scripts (scripts : list script)
    (st : list script * list nat * list string) : list script * list nat * list string :=
  match scripts with
  | [] => st
  | script :: rest =>
      if String.eqb (Schedule script) ""
      then schedule_scripts rest st
      else
        match AddJob (Schedule script) script with
        | Some _ => (st.1, st.2 ++ ["Unable to schedule script"])
        | None =>
            schedule_scripts rest
              (st.1.1 ++ [script], st.1.2 ++ [Output script],
               st.2 ++ ["Script sensor scheduled."])
        end
  end.

(** [Agent.runScripts], up to the point where it waits for the context. *)
Definition runScripts (found : list script * option error) : scriptsRun :=
  match found with
  | (_, Some _) =>
      {| scheduler_started := false; jobs := []; outCh := [];
         scripts_log := ["Error finding custom sensor scripts."] |}
  | ([], None) =>
      {| scheduler_started := false; jobs := []; outCh := [];
         scripts_log := ["No custom sensor scripts found."] |}
  | (allScripts, None) =>
      let st := schedule_scripts allScripts ([], [], []) in
      {| scheduler_started := true; jobs := st.1.1; outCh := st.1.2;
         scripts_log := st.2 ++ ["Starting cron scheduler for script sensors."] |}
  end.

End Scripts.

(** The agent's state that [Stop] and [SaveMQTTPreferences] touch: the
    [done] channel and the preferences pointer. *)
Record Agent : Type := mkAgent {
  done_closed : bool;
  done_panicked : bool;      (* a [close] of the closed [done] channel *)
  prefs : option preferences.Preferences
}.

Section Saving.

(** [Preferences.Save] *)
Variable Save : preferences.Preferences -> option error.

(** [Agent.Stop], on an agent that has preferences: the save error is
    logged, and the deferred [close(agent.done)] runs in any case. *)
Definition Stop (a : Agent) (p : preferences.Preferences) : Agent * list logline :=
  let log := match Save p with
             | Some err => [Warn "Could not save agent preferences" err]
             | None => []
             end in
  ({| done_closed := true;
      done_panicked := done_panicked a || done_closed a;
      prefs := prefs a |}, log).

Definition ErrInvalidPrefernces : error := ErrOther "invalid agent preferences".

(** [Agent.SaveMQTTPreferences] *)
Definition SaveMQTTPreferences (a : Agent) (m : option preferences.MQTT)
    : Agent * option error :=
  match prefs a with
  | Some p =>
      let p' := {| preferences.Registered := preferences.Registered p;
                   preferences.Registration_ := preferences.Registration_ p;
                   preferences.Hass_ := preferences.Hass_ p;
                   preferences.MQTT_ := m |} in
      let a' := {| done_closed := done_closed a; done_panicked := done_panicked a;
                   prefs := Some p' |} in
      match Save p' with
      | Some err => (a', Some (Wrapped "failed to save mqtt preferences" err))
      | None => (a', None)
      end
  | None => (a, Some ErrInvalidPrefernces)
  end.

End Saving.

End agentRun.

(** ** package agent: registration *)
Module registration.

Import preferences.

Section Registration.

Context `{url.Package}.

(** The constants [hass.WebHookPath] and [hass.WebsocketPath], declared
    outside the source files at hand. *)
Variables WebHookPath WebsocketPath : string.

(** [generateAPIURL] of the registration code. *)
Definition generateAPIURL (server : string) (prefs : Hass) : string * option error :=
  if negb (String.eqb (CloudhookURL prefs) "") && negb (IgnoreHassURLs prefs)
  then (CloudhookURL prefs, None)
  else if negb (String.eqb (RemoteUIURL prefs) "")
          && negb (String.eqb (WebhookID prefs) "")
          && negb (IgnoreHassURLs prefs)
  then (RemoteUIURL prefs +:+ WebHookPath +:+ WebhookID prefs, None)
  else
    match url.Parse server with
    | inr err => ("", Some (Wrapped "unable to generate API URL" err))
    | inl apiURL =>
        let apiURL := url.JoinPath apiURL [WebHookPath; WebhookID prefs] in
        (url.String_ apiURL, None)
    end.

(** [Preferences.Save] *)
Variable Save : Preferences -> option error.

Definition with_Hass (p : Preferences) (h : Hass) : Preferences :=
  {| Registered := Registered p; Registration_ := Registration_ p;
     Hass_ := Some h; MQTT_ := MQTT_ p |}.

(** [Agent.saveRegistration], on the agent's preferences.  Each URL is
    assigned together with its error, so a failed generation stores the
    empty string before the function returns. *)
Definition saveRegistration (prefs : Preferences) (hassPrefs : Hass) (ignoreURLs : bool)
    : Preferences * option error :=
  let h := {| CloudhookURL := CloudhookURL hassPrefs;
              RemoteUIURL := RemoteUIURL hassPrefs;
              WebhookID := WebhookID hassPrefs;
              IgnoreHassURLs := ignoreURLs;
              RestAPIURL := RestAPIURL hassPrefs;
              WebsocketURL := WebsocketURL hassPrefs |} in
  let '(api, err) := generateAPIURL (Server (Registration_ prefs)) h in
  let h := {| CloudhookURL := CloudhookURL h; RemoteUIURL := RemoteUIURL h;
              WebhookID := WebhookID h; IgnoreHassURLs := IgnoreHassURLs h;
              RestAPIURL := api; WebsocketURL := WebsocketURL h |} in
  match err with
  | Some e => (with_Hass prefs h, Some (Wrapped "unable to save registration" e))
  | None =>
      let '(ws, err) :=
        agent.generateWebsocketURL WebsocketPath (Server (Registration_ prefs)) in
      let h := {| CloudhookURL := CloudhookURL h; RemoteUIURL := RemoteUIURL h;
                  WebhookID := WebhookID h; IgnoreHassURLs := IgnoreHassURLs h;
                  RestAPIURL := RestAPIURL h; WebsocketURL := ws |} in
      match err with
      | Some e => (with_Hass prefs h, Some (Wrapped "unable to save registration" e))
      | None =>
          let prefs' := {| Registered := true; Registration_ := Registration_ prefs;
                           Hass_ := Some h; MQTT_ := MQTT_ prefs |} in
          match Save prefs' with
          | Some e => (prefs', Some (Wrapped "unable to save preferences" e))
          | None => (prefs', None)
          end
      end
  end.

End Registration.

End registration.

(** ** package config: [generateAPIURL] *)
Module configAPI.

Definition webHookPath : string := "/api/webhook/".

(** [generateAPIURL].  The parse error is dropped ([baseURL, _ := ...]), so
    a base URL that does not parse leaves a nil [*URL] whose [JoinPath]
    panics: [None]. *)
Definition generateAPIURL `{url.Package} (host cloudhookURL remoteUIURL webhookID : string)
    : option string :=
  if negb (String.eqb cloudhookURL "") then Some cloudhookURL
  else if negb (String.eqb remoteUIURL "") && negb (String.eqb webhookID "") then
    match url.Parse remoteUIURL with
    | inl baseURL => Some (url.String_ (url.JoinPath baseURL [webHookPath; webhookID]))
    | inr _ => None
    end
  else if negb (String.eqb webhookID "") && negb (String.eqb host "") then
    match url.Parse host with
    | inl baseURL => Some (url.String_ (url.JoinPath baseURL [webHookPath; webhookID]))
    | inr _ => None
    end
  else Some "".

End configAPI.

(** ** package agent, internal/agent/config.go: [agentConfig]

    [fyne.Preferences] is a string store: [String] gives the empty string,
    and [StringWithFallback] the fallback, for a key that is not set. *)
Module agentConfig.

Definition websocketPath : string := "/api/websocket".
Definition webHookPath : string := "/api/webhook/".
Definition PrefApiURL : string := "ApiURL".
Definition PrefWebsocketURL : string := "WebSocketURL".
Definition PrefToken : string := "Token".
Definition PrefWebhookID : string := "WebhookID".
Definition PrefSecret : string := "secret".

Record agentConfig : Type := mkConfig {
  prefs : gmap string string
}.

Definition prefs_String (c : agentConfig) (key : string) : string :=
  default "" (prefs c !! key).

Definition prefs_StringWithFallback (c : agentConfig) (key fallback : string) : string :=
  default fallback (prefs c !! key).

Definition prefs_SetString (c : agentConfig) (key value : string) : agentConfig :=
  {| prefs := <[key := value]> (prefs c) |}.

Definition WebSocketURL (c : agentConfig) : string := prefs_String c PrefWebsocketURL.
Definition WebhookID (c : agentConfig) : string := prefs_String c PrefWebhookID.
Definition Token (c : agentConfig) : string := prefs_String c PrefToken.
Definition ApiURL (c : agentConfig) : string := prefs_String c PrefApiURL.
Definition Secret (c : agentConfig) : string := prefs_String c PrefSecret.

Definition ErrKeyNotSet : error := ErrOther "key not set".

(** [agentConfig.Get] *)
Definition Get (c : agentConfig) (key : string) : string * option error :=
  let value := prefs_StringWithFallback c key "NOTSET" in
  if String.eqb value "NOTSET" then ("", Some ErrKeyNotSet) else (value, None).

(** [agentConfig.Set] *)
Definition Set_ (c : agentConfig) (key value : string) : agentConfig * option error :=
  (prefs_SetString c key value, None).

(** [agentConfig.generateWebsocketURL]; [None] is the panic on the nil
    [*URL] of a host that does not parse. *)
Definition generateWebsocketURL `{url.Package} (c : agentConfig) : option agentConfig :=
  let host := prefs_String c "Host" in
  match url.Parse host with
  | inr _ => None
  | inl u =>
      let u := if String.eqb (url.Scheme u) "https"
               then url.with_Scheme "wss" u
               else url.with_Scheme "ws" u in
      let u := url.JoinPath u [websocketPath] in
      Some (prefs_SetString c PrefWebsocketURL (url.String_ u))
  end.

(** [agentConfig.generateAPIURL] *)
Definition generateAPIURL `{url.Package} (c : agentConfig) : option agentConfig :=
  let cloudhookURL := prefs_String c "CloudhookURL" in
  let remoteUIURL := prefs_String c "RemoteUIURL" in
  let webhookID := prefs_String c PrefWebhookID in
  let host := prefs_String c "Host" in
  let apiURL :=
    if negb (String.eqb cloudhookURL "") then Some cloudhookURL
    else if negb (String.eqb remoteUIURL "") && negb (String.eqb webhookID "")
    then Some (remoteUIURL +:+ webHookPath +:+ webhookID)
    else if negb (String.eqb webhookID "") && negb (String.eqb host "") then
      match url.Parse host with
      | inl u => Some (url.String_ (url.JoinPath u [webHookPath; webhookID]))
      | inr _ => None
      end
    else Some "" in
  match apiURL with
  | Some apiURL => Some (prefs_SetString c "ApiURL" apiURL)
  | None => None
  end.

End agentConfig.

(** ** Generated [String] methods (stringer)

    [strconv.FormatInt(x, 10)] is the decimal rendering [pretty]; the
    conversion [int64(x)] wraps at 64 bits. *)
Module stringer.

Definition int64 (z : Z) : Z := ((z + 2 ^ 63) `mod` 2 ^ 64 - 2 ^ 63)%Z.

Definition FormatInt (z : Z) : string := pretty z.

(** [s[lo:hi]]; [None] is the panic for bounds out of range. *)
Definition slice (s : string) (lo hi : nat) : option string :=
  if (lo <=? hi)%nat && (hi <=? String.length s)%nat
  then Some (String.substring lo (hi - lo) s)
  else None.

(** [name[index[i]:index[i+1]]]; [None] is a panic. *)
Definition entry (name : string) (index : list nat) (i : nat) : option string :=
  match index !! i, index !! (i + 1)%nat with
  | Some lo, Some hi => slice name lo hi
  | _, _ => None
  end.

(** internal/linux/net/connection_generated.go.  [connState] and
    [connIcon] are unsigned integer types (the generated code has no test
    for negative values). *)
Definition _connState_name : string := "UnknownActivatingOnlineDeactivatingOffline".
Definition _connState_index : list nat := [0; 7; 17; 23; 35; 42]%nat.

Definition connState_String (i : N) : option string :=
  if (N.of_nat (length _connState_index - 1) <=? i)%N
  then Some ("connState(" +:+ FormatInt (int64 (Z.of_N i)) +:+ ")")
  else entry _connState_name _connState_index (N.to_nat i).

Definition _connIcon_name : string :=
  "mdi:help-networkmdi:plus-networkmdi:networkmdi:network-minusmdi:network-off".
Definition _connIcon_index : list nat := [0; 16; 32; 43; 60; 75]%nat.

Definition connIcon_String (i : N) : option string :=
  if (N.of_nat (length _connIcon_index - 1) <=? i)%N
  then Some ("connIcon(" +:+ FormatInt (int64 (Z.of_N i)) +:+ ")")
  else entry _connIcon_name _connIcon_index (N.to_nat i).

(** battery_linux_props.go.  [batteryProp] is a signed integer type, taken
    as 64 bits wide; [i -= 4] and [i+4] wrap. *)
Definition _batteryProp_name : string :=
  "PercentageTemperatureEnergyRateVoltageEnergyStateNativePathType".
Definition _batteryProp_index : list nat := [0; 10; 21; 31; 38; 44; 49; 59; 63]%nat.

Definition batteryProp_String (i : Z) : option string :=
  let i := int64 (i - 4) in
  if (i <? 0)%Z || (Z.of_nat (length _batteryProp_index - 1) <=? i)%Z
  then Some ("batteryProp(" +:+ FormatInt (int64 (int64 (i + 4))) +:+ ")")
  else entry _batteryProp_name _batteryProp_index (Z.to_nat i).

(** The names, in the order of the constants. *)
Definition connState_names : list string :=
  ["Unknown"; "Activating"; "Online"; "Deactivating"; "Offline"].

Definition connIcon_names : list string :=
  ["mdi:help-network"; "mdi:plus-network"; "mdi:network"; "mdi:network-minus";
   "mdi:network-off"].

Definition batteryProp_names : list string :=
  ["Percentage"; "Temperature"; "EnergyRate"; "Voltage"; "Energy"; "State";
   "NativePath"; "Type"].

End stringer.

(** ** The screen lock sensor, old and new *)
Module screenlock.

(** [sensor.SensorType] *)
Inductive SensorType : Type := TypeSensor | TypeBinary.

(** internal/linux/screenlock.go: the [screenlock] struct. *)
Record screenlock : Type := mkScreenlock { locked : bool }.

Definition screenlock_Name (l : screenlock) : string := "Screen Lock".
Definition screenlock_ID (l : screenlock) : string := "screen_lock".
Definition screenlock_Icon (l : screenlock) : string :=
  if locked l then "mdi:eye-lock" else "mdi:eye-lock-open".
Definition screenlock_SensorType (l : screenlock) : SensorType := TypeBinary.
Definition screenlock_State (l : screenlock) : linux.any := linux.AnyBool (locked l).
Definition screenlock_Attributes (l : screenlock) : option string := None.

Definition srcDbus : string := "D-Bus".

Section Sensor.

(** The [sensorType] enumeration and its constant [screenLock], declared
    outside the source files at hand. *)
Variable sensorType : Type.
Variable screenLock : sensorType.

(** [linuxSensor.SensorType] *)
Definition linuxSensor_SensorType (l : linux.linuxSensor sensorType) : SensorType :=
  if linux.isBinary sensorType l then TypeBinary else TypeSensor.

(** [linuxSensor.Attributes]: the data source, or nil. *)
Definition linuxSensor_Attributes (l : linux.linuxSensor sensorType) : option string :=
  if negb (String.eqb (linux.source sensorType l) "")
  then Some (linux.source sensorType l)
  else None.

(** [screenlockSensor.Icon]: [s.value.(bool)] panics ([None]) on a value
    that is not a bool. *)
Definition screenlockSensor_Icon (s : linux.linuxSensor sensorType) : option string :=
  match linux.value s with
  | linux.AnyBool true => Some "mdi:eye-lock"
  | linux.AnyBool false => Some "mdi:eye-lock-open"
  | _ => None
  end.

(** [screenlockSensor.SensorType] *)
Definition screenlockSensor_SensorType (s : linux.linuxSensor sensorType) : SensorType :=
  TypeBinary.

(** [newScreenlockEvent]; the other fields keep their zero values. *)
Definition newScreenlockEvent (v : bool) : linux.linuxSensor sensorType :=
  linux.mkSensor sensorType (linux.AnyBool v) "" "" srcDbus screenLock false false 0 0.

End Sensor.

End screenlock.

(** ** package system: [infoWorker] *)
Module infoWorker.

(** [linux.Sensor], by the fields the worker sets. *)
Record Sensor : Type := mkSensor {
  DisplayName : string;
  UniqueID : string;
  Value : string;
  IsDiagnostic : bool;
  IconString : string;
  DataSource : string
}.

Section Sensors.

(** The constant [linux.DataSrcProcfs]. *)
Variable DataSrcProcfs : string.

(** [infoWorker.Sensors], given what [device.GetOSDetails] and
    [device.GetKernelVersion] return. *)
Definition Sensors (osDetails : string * string + error) (kernel : string + error)
    : (list Sensor * option error) * list agent.logline :=
  let '(sensors, log) :=
    match osDetails with
    | inr err => ([], [agent.Warn "Could not retrieve kernel version." err])
    | inl (distro, version) =>
        ([ {| DisplayName := "Distribution Name"; UniqueID := "distribution_name";
              Value := distro; IsDiagnostic := true; IconString := "mdi:linux";
              DataSource := DataSrcProcfs |};
           {| DisplayName := "Distribution Version"; UniqueID := "distribution_version";
              Value := version; IsDiagnostic := true; IconString := "mdi:numeric";
              DataSource := DataSrcProcfs |} ], [])
    end in
  match kernel with
  | inr err =>
      ((sensors, None), log ++ [agent.Warn "Could not retrieve kernel version." err])
  | inl kernelVersion =>
      ((sensors ++ [ {| DisplayName := "Kernel Version"; UniqueID := "kernel_version";
                        Value := kernelVersion; IsDiagnostic := true;
                        IconString := "mdi:chip"; DataSource := DataSrcProcfs |} ],
        None), log)
  end.

End Sensors.

End infoWorker.

(** ** package disk: [ioWorker]

    The sensor type, its constructors and its [update], and the readers of
    the device list are declared outside the source files at hand.  A
    returned sensor is a pointer into the worker's map: the device and the
    position. *)
Module diskIO.

Inductive ioSensor : Type := diskReads | diskWrites | diskReadRate | diskWriteRate.

Record device : Type := mkDevice { id : string }.

Section Worker.

Variables (diskIOSensor Time : Type).
Variable newDiskIOSensor : Time -> device -> ioSensor -> diskIOSensor.
Variable newDiskIORateSensor : device -> ioSensor -> diskIOSensor.
Variable update : diskIOSensor -> gmap nat N -> Z -> diskIOSensor.
Variable getDevice : string -> device * option (gmap nat N) + error.

Record ioWorker : Type := mkWorker {
  boottime : Time;
  devices : gmap string (list diskIOSensor)
}.

Definition newDeviceSensors (bt : Time) (dev : device) : list diskIOSensor :=
  [newDiskIOSensor bt dev diskReads; newDiskIOSensor bt dev diskWrites;
   newDiskIORateSensor dev diskReadRate; newDiskIORateSensor dev diskWriteRate].

(** [NewIOWorker]'s worker. *)
Definition NewIOWorker (bt : Time) : ioWorker :=
  {| boottime := bt;
     devices := {[ "total" := newDeviceSensors bt {| id := "total" |} ]} |}.

Definition addDevice (w : ioWorker) (dev : device) : ioWorker :=
  match devices w !! id dev with
  | Some _ => w
  | None =>
      {| boottime := boottime w;
         devices := <[id dev := newDeviceSensors (boottime w) dev]> (devices w) |}
  end.

(** The slice [make([]sensor.Details, n)] after [sensors[idx] = ...] for
    the [k] sensors of device [name]; [None] is the panic of an index out
    of range. *)
Definition fill (n : nat) (name : string) (k : nat) : option (list (option (string * nat))) :=
  if (k <=? n)%nat
  then Some (map (fun idx => Some (name, idx)) (seq 0 k) ++ replicate (n - k) None)
  else None.

Definition total_length (w : ioWorker) : nat := length (default [] (devices w !! "total")).

Definition updateDevice (w : ioWorker) (dev : device) (stats : option (gmap nat N))
    (delta : Z) : option (ioWorker * list (option (string * nat))) :=
  match devices w !! id dev, stats with
  | Some sensors, Some st =>
      match fill (total_length w) (id dev) (length sensors) with
      | Some out =>
          Some ({| boottime := boottime w;
                   devices := <[id dev := map (fun s => update s st delta) sensors]>
                                (devices w) |}, out)
      | None => None
      end
  | _, _ => Some (w, replicate (total_length w) None)
  end.

Definition updateTotals (w : ioWorker) (stats : gmap nat N) (delta : Z)
    : ioWorker * list (option (string * nat)) :=
  match devices w !! "total" with
  | Some sensors =>
      ({| boottime := boottime w;
          devices := <["total" := map (fun s => update s stats delta) sensors]>
                       (devices w) |},
       map (fun idx => Some ("total", idx)) (seq 0 (length sensors)))
  | None => (w, [])
  end.

(** [totals[stat] += value] for every entry of [stats], in [uint64]. *)
Definition add_stats (totals stats : gmap nat N) : gmap nat N :=
  union_with (fun a b => Some ((a + b) `mod` 2 ^ 64)%N) totals stats.

Definition is_aggregate (dev : device) : bool :=
  gourl.has_prefix "dm" (id dev) || gourl.has_prefix "md" (id dev).

Record loop_state : Type := mkLoop {
  worker : ioWorker;
  sensors : list (option (string * nat));
  totals : gmap nat N;
  unreadable : nat      (* devices skipped because [getDevice] failed *)
}.

(** One turn of the loop over the device names; [None] is a panic. *)
Definition visit (delta : Z) (st : option loop_state) (name : string) : option loop_state :=
  match st with
  | None => None
  | Some st =>
      match getDevice name with
      | inr _ =>
          Some {| worker := worker st; sensors := sensors st; totals := totals st;
                  unreadable := S (unreadable st) |}
      | inl (dev, stats) =>
          let w := addDevice (worker st) dev in
          match updateDevice w dev stats delta with
          | None => None
          | Some (w', out) =>
              let totals' :=
                if is_aggregate dev then totals st
                else match stats with
                     | Some s => add_stats (totals st) s
                     | None => totals st
                     end in
              Some {| worker := w'; sensors := sensors st ++ out; totals := totals';
                      unreadable := unreadable st |}
          end
      end
  end.

(** [ioWorker.Sensors], given what [getDeviceNames] returned; the outer
    [None] is a panic. *)
Definition Sensors (w : ioWorker) (deviceNames : list string + error) (duration : Z)
    : option (ioWorker * (list (option (string * nat)) * option error)) :=
  match deviceNames with
  | inr err => Some (w, ([], Some (Wrapped "could not fetch disk devices" err)))
  | inl names =>
      match fold_left (visit duration) names
              (Some {| worker := w; sensors := []; totals := ∅; unreadable := 0 |}) with
      | None => None
      | Some st =>
          let '(w', out) := updateTotals (worker st) (totals st) duration in
          Some (w', (sensors st ++ out, None))
      end
  end.

(** Whether a device can be read. *)
Definition readable (name : string) : bool :=
  match getDevice name with inl _ => true | inr _ => false end.

(** What one device adds to the totals. *)
Definition contribution (name : string) : option (gmap nat N) :=
  match getDevice name with
  | inl (dev, Some s) => if is_aggregate dev then None else Some s
  | _ => None
  end.

(** Every tracked device has the four sensors of [newDeviceSensors], and
    the [total] device is tracked. *)
Definition well_formed (w : ioWorker) : Prop :=
  (exists ss, devices w !! "total" = Some ss)
  /\ forall name ss, devices w !! name = Some ss -> length ss = 4%nat.

End Worker.

End diskIO.

(** ** package linux: [Device] *)
Module device.

Record Device : Type := mkDevice {
  appName : string;
  appVersion : string;
  hostname : string;
  deviceID : string;
  hwVendor : string;
  hwModel : string
}.

(** [Device.DeviceName]: [strings.Cut(l.hostname, ".")], first part. *)
Definition DeviceName (l : Device) : string := (gourl.cut "."%char (hostname l)).1.

(** [Device.AppID], given what [user.Current] returned. *)
Definition AppID (l : Device) (currentUser : string + error) : string :=
  match currentUser with
  | inr _ => appName l +:+ "-unknown"
  | inl username => appName l +:+ "-" +:+ username
  end.

End device.

(** ** package agent: [checkRegistration] *)
Module registrationCheck.

Import preferences.



Record Agent : Type := mkAgent {
  prefs : Preferences;
  forceRegister : bool;
  headless : bool
}.

Section Check.

Context `{url.Package}.
Variables WebHookPath WebsocketPath : string.
Variable Save : Preferences -> option error.
(** [Registration.IsDefault] *)
Variable IsDefault : Registration -> bool.
(** The registration window lets the user edit the preferences. *)
Variable userInput : Preferences -> Preferences.
(** [hass.RegisterDevice] *)
Variable RegisterDevice : Registration -> Hass + error.
(** [registry.Reset]'s error. *)
Variable registryReset : option error.


End Check.

End registrationCheck.

(** ** Example inputs *)

(** The sensor names of the examples are ASCII, so the Unicode fallbacks
    of [strings.TrimSpace] are never reached; they are given as the
    identity. *)
Definition exampleToSnake : string -> string :=
  strcase.ToSnake (fun s => s) (fun s => s).

(** An empty open store, and a closed one. *)
Definition emptyStore : badger.DB := {| badger.closed := false; badger.kv := ∅ |}.
Definition closedStore : badger.DB := badger.Close emptyStore.

(** A button that marshals, and one whose marshalling fails. *)
Definition suspendSubscription : mqttapi.Subscription :=
  {| mqttapi.sub_Topic := "gohassagent/button/suspend"; mqttapi.sub_Callback := 1 |}.

Definition suspendConfig : mqttapi.Msg :=
  {| mqttapi.Topic := "homeassistant/button/suspend/config"; mqttapi.Message := "{}" |}.

Definition okButton : agent.entity :=
  {| agent.MarshalSubscription := (Some suspendSubscription, None);
     agent.MarshalConfig := (Some suspendConfig, None) |}.

Definition badButton : agent.entity :=
  {| agent.MarshalSubscription := (None, Some (ErrMarshal "no command topic"));
     agent.MarshalConfig := (None, Some (ErrMarshal "no state topic")) |}.

Definition twoButtons : agent.linuxMQTTController :=
  {| agent.worker :=
       {| agent.msgs := 0; agent.sensors := [];
          agent.buttons := [badButton; okButton];
          agent.numbers := []; agent.switches := []; agent.controls := [];
          agent.binarySensors := []; agent.cameras := [] |};
     agent.logger := [] |}.

(** A controller that manages one worker, not yet started. *)
Definition batteryWorker : deviceController.Worker :=
  {| deviceController.worker_ID := "battery";
     deviceController.Updates := inl [ {| sensor.ID := "battery_level"; sensor.State := 42 |} ];
     deviceController.Stop_ := None |}.

Definition oneWorker : deviceController.deviceController :=
  {| deviceController.sensorWorkers :=
       {[ "battery" := {| deviceController.object := batteryWorker;
                          deviceController.started := false |} ]} |}.

(** Two screen lock events with different values. *)
Definition lockedEvent : linux.linuxSensor sensorNames.sensorType :=
  linux.mkSensor _ (linux.AnyBool true) "" "" "D-Bus" sensorNames.screenLock false false 0 0.

Definition unlockedEvent : linux.linuxSensor sensorNames.sensorType :=
  linux.mkSensor _ (linux.AnyBool false) "" "" "D-Bus" sensorNames.screenLock false false 0 0.

(** The snapshots of the spec's end-to-end scenario, a registry in which
    [cpu_pct] is disabled, and a publisher that always succeeds. *)
Definition battery42 : sensor.Details := {| sensor.ID := "battery_level"; sensor.State := 42 |}.
Definition cpu10 : sensor.Details := {| sensor.ID := "cpu_pct"; sensor.State := 10 |}.
Definition cpu15 : sensor.Details := {| sensor.ID := "cpu_pct"; sensor.State := 15 |}.

Definition cpuDisabledStore : badger.DB :=
  (sensors.Set_ emptyStore "cpu_pct"
     {| sensors.Registered := true; sensors.Disabled := true |}).1.

Definition alwaysOk : nat -> tracker.request -> bool := fun _ _ => true.

(** The two-button controller with a camera, and with a control. *)
Definition twoButtonsAndCamera : agent.linuxMQTTController :=
  {| agent.worker :=
       {| agent.msgs := 0; agent.sensors := [okButton];
          agent.buttons := [badButton; okButton];
          agent.numbers := []; agent.switches := []; agent.controls := [];
          agent.binarySensors := []; agent.cameras := [okButton] |};
     agent.logger := [] |}.

Definition twoButtonsWithControl : agent.linuxMQTTController :=
  {| agent.worker :=
       {| agent.msgs := 0; agent.sensors := [];
          agent.buttons := [badButton; okButton];
          agent.numbers := []; agent.switches := [];
          agent.controls := [Some suspendSubscription];
          agent.binarySensors := []; agent.cameras := [] |};
     agent.logger := [] |}.

(** A platform on which one worker constructor and the power controls
    fail. *)
Definition examplePlatform : osController.platform :=
  {| osController.workers := [inr (ErrOther "no D-Bus"); inl batteryWorker];
     osController.powerControl := inr (ErrOther "no logind");
     osController.screenLockControl := inl [okButton];
     osController.volumeControl := (Some okButton, None);
     osController.mprisControl := inl okButton;
     osController.cameraControl := None;
     osController.dbusCommand := (Some suspendSubscription, None) |}.

(** Four scripts, and a scheduler that refuses the schedule [@hourly]. *)
Definition exampleScripts : list agentRun.script :=
  [agentRun.mkScript "@every 5m" "/scripts/a.sh" 1;
   agentRun.mkScript "" "/scripts/b.sh" 2;
   agentRun.mkScript "@hourly" "/scripts/c.sh" 3;
   agentRun.mkScript "@every 1m" "/scripts/d.sh" 4].

Definition refuseHourly (schedule : string) (_ : agentRun.script) : option error :=
  if String.eqb schedule "@hourly" then Some (ErrOther "bad schedule") else None.

(** Registration details as returned for a Nabu Casa user, the same with
    Home Assistant's URLs ignored, and preferences before registration. *)
Definition nabuCasaPrefs : preferences.Hass :=
  preferences.mkHass "https://hooks.nabu.casa/abc" "https://ui.nabu.casa" "id42" false "" "".

Definition ignoring (h : preferences.Hass) : preferences.Hass :=
  preferences.mkHass (preferences.CloudhookURL h) (preferences.RemoteUIURL h)
    (preferences.WebhookID h) true (preferences.RestAPIURL h) (preferences.WebsocketURL h).

Definition unregisteredPrefs : preferences.Preferences :=
  preferences.mkPreferences false
    (preferences.mkRegistration "http://hass.local:8123" "token") None None.

Definition unparseablePrefs : preferences.Preferences :=
  preferences.mkPreferences false (preferences.mkRegistration ":bad" "token") None None.

(** An agent configuration that holds a host, and one that also holds a
    webhook ID. *)
Definition hostConfig (host : string) : agentConfig.agentConfig :=
  agentConfig.mkConfig {[ "Host" := host ]}.

Definition webhookConfig : agentConfig.agentConfig :=
  agentConfig.mkConfig (<["WebhookID" := "id42"]> {[ "Host" := "http://hass.local:8123" ]}).

(** A disk IO worker over counters: a sensor counts its updates; [sda] and
    the aggregate [dm-0] can be read, nothing else can. *)
Definition exampleNewSensor (_ : unit) (_ : diskIO.device) (_ : diskIO.ioSensor) : N := 0%N.
Definition exampleNewRateSensor (_ : diskIO.device) (_ : diskIO.ioSensor) : N := 0%N.
Definition exampleUpdate (s : N) (_ : gmap nat N) (_ : Z) : N := (s + 1)%N.

Definition exampleGetDevice (name : string)
    : diskIO.device * option (gmap nat N) + error :=
  if String.eqb name "sda" then inl (diskIO.mkDevice "sda", Some {[ 0%nat := 5%N ]})
  else if String.eqb name "dm-0" then inl (diskIO.mkDevice "dm-0", Some {[ 0%nat := 7%N ]})
  else inr (ErrOther "no such device").

(** Preferences of an agent that is registered. *)
Definition registeredPrefs : preferences.Preferences :=
  preferences.mkPreferences true
    (preferences.mkRegistration "http://hass.local:8123" "token")
    (Some nabuCasaPrefs) None.

(** * Properties *)

(** ** The registry *)
Section RegistryFacts.

Import sensors badger.

Lemma json_round_trip (v st : registryValues) :
  json_Unmarshal (json_Marshal v).1 st = (v, None).
Proof. destruct v as [[] []]; reflexivity. Qed.

Lemma check_key_nonempty (id : string) :
  check_key id = None -> (String.length id =? 0)%nat = false.
Proof. unfold check_key. by destruct (String.length id =? 0)%nat. Qed.

Lemma Set_closed (reg : DB) (id : string) (v : registryValues) :
  closed reg = true -> Set_ reg id v = (reg, Some ErrDBClosed).
Proof. intros Hc. unfold Set_, badger.Update. by rewrite Hc. Qed.

Lemma Set_open (reg : DB) (id : string) (v : registryValues) :
  closed reg = false -> check_key id = None ->
  Set_ reg id v =
    ({| closed := false; kv := <[id := (json_Marshal v).1]> (kv reg) |}, None).
Proof.
  intros Ho Hk. unfold Set_, badger.Update, Txn_Set. rewrite Ho. cbn -[check_key].
  rewrite Hk. cbn. unfold Txn_Commit. rewrite Ho. cbn.
  f_equal. f_equal.
  rewrite (left_id_L ∅ (∪)).
  by rewrite <- insert_union_l, (left_id_L ∅ (∪)).
Qed.

(** A key that badger refuses is not written: [Set] reports badger's
    error and the store stays as it was. *)
Lemma Set_refused (reg : DB) (id : string) (v : registryValues) (err : error) :
  closed reg = false -> check_key id = Some err ->
  Set_ reg id v = (reg, Some err).
Proof.
  intros Ho Hk. unfold Set_, badger.Update, Txn_Set. rewrite Ho. cbn -[check_key].
  by rewrite Hk.
Qed.

Lemma Set_ok_inv (reg reg' : DB) (id : string) (v : registryValues) :
  Set_ reg id v = (reg', None) ->
  closed reg = false /\
  reg' = {| closed := false; kv := <[id := (json_Marshal v).1]> (kv reg) |}.
Proof.
  intros H. destruct (closed reg) eqn:Hc.
  - rewrite Set_closed in H by done. discriminate.
  - destruct (check_key id) as [err|] eqn:Hk.
    + rewrite (Set_refused _ _ _ err) in H by done. discriminate.
    + rewrite Set_open in H by done. by inversion H.
Qed.

Lemma Set_ok_key (reg reg' : DB) (id : string) (v : registryValues) :
  Set_ reg id v = (reg', None) -> check_key id = None.
Proof.
  intros H. destruct (closed reg) eqn:Hc.
  - rewrite Set_closed in H by done. discriminate.
  - destruct (check_key id) as [err|] eqn:Hk; [|done].
    rewrite (Set_refused _ _ _ err) in H by done. discriminate.
Qed.

(** Whatever [Set] reports, the store it leaves is the old one or the old
    one with the marshalled value under [id]. *)
Lemma Set_store (reg : DB) (id : string) (v : registryValues) :
  (Set_ reg id v).1 = reg
  \/ (closed reg = false /\ check_key id = None
      /\ (Set_ reg id v).1
         = {| closed := false; kv := <[id := (json_Marshal v).1]> (kv reg) |}).
Proof.
  destruct (closed reg) eqn:Hc.
  - left. by rewrite Set_closed.
  - destruct (check_key id) as [err|] eqn:Hk.
    + left. by rewrite (Set_refused _ _ _ err).
    + right. by rewrite Set_open.
Qed.

Lemma Get_closed (reg : DB) (id : string) :
  closed reg = true -> Get reg id = (zeroValues, Some ErrDBClosed).
Proof. intros Hc. unfold Get, View. by rewrite Hc. Qed.

Lemma Get_empty_key (reg : DB) (id : string) :
  closed reg = false -> (String.length id =? 0)%nat = true ->
  Get reg id = (zeroValues, Some ErrEmptyKey).
Proof. intros Ho Hk. unfold Get, View, Txn_Get. by rewrite Ho, Hk. Qed.

Lemma Get_missing (reg : DB) (id : string) :
  closed reg = false -> (String.length id =? 0)%nat = false -> kv reg !! id = None ->
  Get reg id = (zeroValues, Some ErrKeyNotFound).
Proof.
  intros Ho Hne Hk. unfold Get, View, Txn_Get. rewrite Ho, Hne. cbn.
  by rewrite lookup_empty, Hk.
Qed.

Lemma Get_stored (reg : DB) (id val : string) :
  closed reg = false -> (String.length id =? 0)%nat = false -> kv reg !! id = Some val ->
  Get reg id = json_Unmarshal val zeroValues.
Proof.
  intros Ho Hne Hk. unfold Get, View, Txn_Get, item_Value. rewrite Ho, Hne. cbn.
  rewrite lookup_empty, Hk.
  by destruct (json_Unmarshal val zeroValues) as [st [e|]].
Qed.

(** The errors [Get] can report. *)
Lemma Get_not_found_inv (reg : DB) (id : string) (x : registryValues) (err : error) :
  Get reg id = (x, Some err) -> errors_Is err ErrKeyNotFound = true ->
  closed reg = false /\ kv reg !! id = None.
Proof.
  intros HG HI. destruct (closed reg) eqn:Hc.
  - rewrite Get_closed in HG by done. inversion HG; subst. discriminate.
  - split; [done|]. destruct (String.length id =? 0)%nat eqn:Hne.
    { rewrite Get_empty_key in HG by done. inversion HG; subst. discriminate. }
    destruct (kv reg !! id) as [val|] eqn:Hk; [|done].
    rewrite (Get_stored _ _ val) in HG by done.
    unfold json_Unmarshal in HG.
    destruct (json.object set_field val zeroValues); inversion HG; subst.
    discriminate.
Qed.

Lemma Get_after_Set_same (reg : DB) (id : string) (v : registryValues) :
  closed reg = false -> check_key id = None -> Get (Set_ reg id v).1 id = (v, None).
Proof.
  intros Ho Hk. rewrite Set_open by done. cbn.
  rewrite (Get_stored _ _ (json_Marshal v).1).
  - apply json_round_trip.
  - reflexivity.
  - by apply check_key_nonempty.
  - cbn. apply lookup_insert_eq.
Qed.

(** On a never-seen id, [Add] returns the defaults and leaves the store
    as [Set] of the defaults leaves it; when badger accepts the id as a
    key, they can be read back, and when it does not, nothing is
    written. *)
Lemma Add_on_missing_id (reg : DB) (id : string) (x : registryValues)
    (err : error) :
  Get reg id = (x, Some err) ->
  errors_Is err ErrKeyNotFound = true ->
  Add reg id = ((Set_ reg id newRegistryValues).1, newRegistryEntry id)
  /\ (check_key id = None ->
      Get (Set_ reg id newRegistryValues).1 id = (newRegistryValues, None))
  /\ (check_key id <> None -> (Set_ reg id newRegistryValues).1 = reg).
Proof.
  intros HG HI. split; [|split].
  - unfold Add. cbn. rewrite HG, HI. by destruct (Set_ reg id newRegistryValues).
  - intros Hk. destruct (Get_not_found_inv _ _ _ _ HG HI) as [Ho _].
    by apply Get_after_Set_same.
  - intros Hk. destruct (Get_not_found_inv _ _ _ _ HG HI) as [Ho _].
    destruct (check_key id) as [e|] eqn:He; [|done].
    by rewrite (Set_refused _ _ _ e).
Qed.

End RegistryFacts.

(** C1. For every id and every registry value [v], a [Set(id, v)] that
    reports no error followed by [Get(id)] returns exactly [v], with no
    error: the value survives marshalling, the store and unmarshalling. *)
Theorem Set_Get_round_trip (reg reg' : badger.DB) (id : string)
    (v : sensors.registryValues) :
  sensors.Set_ reg id v = (reg', None) ->
  sensors.Get reg' id = (v, None).
Proof.
  intros HS. pose proof (Set_ok_inv _ _ _ _ HS) as [Ho _].
  pose proof (Set_ok_key _ _ _ _ HS) as Hk.
  replace reg' with (sensors.Set_ reg id v).1 by (by rewrite HS).
  by apply Get_after_Set_same.
Qed.

Lemma Set_Get_round_trip_witness :
  sensors.Set_ emptyStore "cpu_pct" {| sensors.Registered := true; sensors.Disabled := false |}
    = ({| badger.closed := false;
          badger.kv := {[ "cpu_pct" := "{" +:+ json.quoted "Registered" +:+ ":true,"
                                        +:+ json.quoted "Disabled" +:+ ":false}" ]} |}, None)
  /\ sensors.Get
       {| badger.closed := false;
          badger.kv := {[ "cpu_pct" := "{" +:+ json.quoted "Registered" +:+ ":true,"
                                        +:+ json.quoted "Disabled" +:+ ":false}" ]} |}
       "cpu_pct"
     = ({| sensors.Registered := true; sensors.Disabled := false |}, None).
Proof.
  split.
  - vm_compute. reflexivity.
  - apply (Set_Get_round_trip emptyStore). vm_compute. reflexivity.
Defined.

(** The claim C2 fails on an id that badger refuses as a key.  On the
    empty open store [Get] of the id [!badger!x] fails with key-not-found,
    so the id has never been seen; [Set] is refused because of the reserved
    prefix, [Add] goes on and returns the defaults, and nothing is
    persisted: the store is unchanged and [Get] still fails with
    key-not-found. *)
Lemma reserved_key_not_persisted :
  sensors.Get emptyStore "!badger!x" = (sensors.zeroValues, Some ErrKeyNotFound)
  /\ sensors.Set_ emptyStore "!badger!x" sensors.newRegistryValues
     = (emptyStore, Some ErrInvalidKey)
  /\ sensors.Add emptyStore "!badger!x"
     = (emptyStore, sensors.newRegistryEntry "!badger!x")
  /\ sensors.Get (sensors.Add emptyStore "!badger!x").1 "!badger!x"
     = (sensors.zeroValues, Some ErrKeyNotFound).
Proof. vm_compute. repeat split. Qed.

(** C2, as the code has it.  [Add(id)] on an id that has never been seen
    ([Get] fails with key-not-found) returns the entry with the defaults
    [{registered:false, disabled:false}].  When badger accepts the id as a
    key (it is not empty, does not start with [!badger!] and has at most
    65000 bytes) the entry is persisted: [Set(id, defaults)] succeeds, the
    store after [Add] is the one it leaves, and [Get(id)] on it returns
    the defaults.  When badger refuses the id, [Set] fails, [Add] returns
    the defaults all the same and the store is unchanged, so the id is
    still unseen.  On an id that has an entry ([Get] succeeds with [v])
    [Add] returns [v] and leaves the store as it was. *)
Theorem Add_creates_or_returns (reg : badger.DB) (id : string) :
  (forall x err,
     sensors.Get reg id = (x, Some err) ->
     errors_Is err ErrKeyNotFound = true ->
     (sensors.Add reg id).2 = sensors.newRegistryEntry id
     /\ sensors.values (sensors.Add reg id).2
        = {| sensors.Registered := false; sensors.Disabled := false |}
     /\ (badger.check_key id = None ->
         sensors.Set_ reg id sensors.newRegistryValues = ((sensors.Add reg id).1, None)
         /\ sensors.Get (sensors.Add reg id).1 id = (sensors.newRegistryValues, None))
     /\ (forall refusal,
           badger.check_key id = Some refusal ->
           sensors.Set_ reg id sensors.newRegistryValues = (reg, Some refusal)
           /\ (sensors.Add reg id).1 = reg
           /\ sensors.Get (sensors.Add reg id).1 id = (x, Some err)))
  /\ (forall v,
        sensors.Get reg id = (v, None) ->
        sensors.Add reg id = (reg, {| sensors.id := id; sensors.values := v |})).
Proof.
  split.
  - intros x err HG HI.
    destruct (Add_on_missing_id reg id x err HG HI) as (HA & Hok & _).
    destruct (Get_not_found_inv _ _ _ _ HG HI) as [Ho _].
    rewrite HA. cbn [fst snd]. split; [done|]. split; [done|]. split.
    + intros Hk. split; [|by apply Hok].
      by rewrite Set_open.
    + intros refusal Hk. rewrite (Set_refused _ _ _ refusal) by done.
      cbn [fst]. by rewrite HG.
  - intros v HG. unfold sensors.Add. cbn. by rewrite HG.
Qed.

Lemma Add_creates_or_returns_witness :
  (sensors.Add emptyStore "battery_level").2 = sensors.newRegistryEntry "battery_level"
  /\ sensors.Get (sensors.Add emptyStore "battery_level").1 "battery_level"
     = (sensors.newRegistryValues, None)
  /\ (sensors.Add emptyStore "!badger!x").1 = emptyStore
  /\ let reg := (sensors.Set_ emptyStore "battery_level"
                   {| sensors.Registered := true; sensors.Disabled := true |}).1 in
     sensors.Add reg "battery_level"
     = (reg, {| sensors.id := "battery_level";
                sensors.values := {| sensors.Registered := true; sensors.Disabled := true |} |}).
Proof.
  pose proof (Add_creates_or_returns emptyStore "battery_level") as [Hnew _].
  destruct (Hnew sensors.zeroValues ErrKeyNotFound) as (H1 & _ & H3 & _);
    [vm_compute; reflexivity | reflexivity |].
  destruct H3 as [_ H4]; [vm_compute; reflexivity|].
  split; [exact H1|]. split; [exact H4|].
  pose proof (Add_creates_or_returns emptyStore "!badger!x") as [Hbad _].
  destruct (Hbad sensors.zeroValues ErrKeyNotFound) as (_ & _ & _ & H5);
    [vm_compute; reflexivity | reflexivity |].
  destruct (H5 ErrInvalidKey) as (_ & H6 & _); [vm_compute; reflexivity|].
  split; [exact H6|].
  cbv zeta.
  apply (Add_creates_or_returns
           (sensors.Set_ emptyStore "battery_level"
              {| sensors.Registered := true; sensors.Disabled := true |}).1
           "battery_level").
  vm_compute. reflexivity.
Defined.

(** C3. When [Get] fails with any error other than key-not-found (the
    backing store is unavailable), [Add(id)] returns, for every id, the
    entry with [registered=false] and [disabled=false], and writes
    nothing: the sensor is treated as unregistered and enabled. *)
Theorem Add_fails_open (reg : badger.DB) (id : string)
    (x : sensors.registryValues) (err : error) :
  sensors.Get reg id = (x, Some err) ->
  errors_Is err ErrKeyNotFound = false ->
  sensors.Add reg id = (reg, sensors.newRegistryEntry id)
  /\ sensors.IsRegistered (sensors.Add reg id).2 = false
  /\ sensors.IsDisabled (sensors.Add reg id).2 = false.
Proof.
  intros HG HI.
  assert (HA : sensors.Add reg id = (reg, sensors.newRegistryEntry id)).
  { unfold sensors.Add. cbn. by rewrite HG, HI. }
  rewrite HA. repeat split.
Qed.

Lemma Add_fails_open_witness :
  sensors.Get closedStore "battery_level" = (sensors.zeroValues, Some ErrDBClosed)
  /\ sensors.Add closedStore "battery_level"
     = (closedStore, sensors.newRegistryEntry "battery_level").
Proof.
  split; [vm_compute; reflexivity|].
  apply (Add_fails_open closedStore "battery_level" sensors.zeroValues ErrDBClosed);
    vm_compute; reflexivity.
Defined.

(** Whatever [Get] reports as an error, the entry [Add] returns carries the
    defaults. *)
Lemma Add_defaults_on_any_error (reg : badger.DB) (id : string)
    (x : sensors.registryValues) (err : error) :
  sensors.Get reg id = (x, Some err) ->
  (sensors.Add reg id).2 = sensors.newRegistryEntry id.
Proof.
  intros HG. unfold sensors.Add. cbn. rewrite HG.
  destruct (errors_Is err ErrKeyNotFound); [|done].
  by destruct (sensors.Set_ reg id _).
Qed.

(** ** The MQTT controller *)
Section ControllerFacts.

Import agent mqttapi.

(** The loop adds one slot per entity, in order, and the warnings of the
    entities that failed. *)
Lemma append_each_map {A : Type} (gen : entity -> option A * list logline)
    (es : list entity) (acc : list (option A) * list logline) :
  append_each gen es acc
  = (acc.1 ++ map (fun e => (gen e).1) es,
     acc.2 ++ concat (map (fun e => (gen e).2) es)).
Proof.
  unfold append_each. revert acc.
  induction es as [|e es IH]; intros [slots log]; cbn.
  - by rewrite !app_nil_r.
  - rewrite IH. destruct (gen e) as [x l]. cbn.
    by rewrite <- !app_assoc.
Qed.

Lemma generateSubscription_slot (e : entity) :
  (generateSubscription e).1
  = match MarshalSubscription e with
    | (_, Some _) => None
    | (sub, None) => sub
    end.
Proof.
  unfold generateSubscription.
  by destruct (MarshalSubscription e) as [sub [err|]].
Qed.

Lemma generateConfig_slot (e : entity) :
  (generateConfig e).1
  = match MarshalConfig e with
    | (_, Some _) => None
    | (cfg, None) => cfg
    end.
Proof.
  unfold generateConfig.
  by destruct (MarshalConfig e) as [cfg [err|]].
Qed.

Lemma present_app {A : Type} (l1 l2 : list (option A)) :
  present (l1 ++ l2) = present l1 ++ present l2.
Proof. unfold present. apply omap_app. Qed.

(** Dropping the nil slots leaves what the skipping reading keeps. *)
Lemma present_slots {A : Type} (marshal : entity -> option A * option error)
    (es : list entity) :
  present (map (fun e => match marshal e with
                         | (_, Some _) => None
                         | (x, None) => x
                         end) es)
  = present (skipping marshal es).
Proof.
  unfold present, skipping.
  induction es as [|e es IH]; [done|]. cbn.
  destruct (marshal e) as [[x|] [err|]]; cbn; by rewrite ?IH.
Qed.

(** The lengths of the two slices, whatever fails. *)
Lemma slices_length_aux (c : linuxMQTTController) :
  length (Configs c).1
  = (length (sensors (worker c)) + length (binarySensors (worker c))
     + length (buttons (worker c)) + length (switches (worker c))
     + length (numbers (worker c)) + length (cameras (worker c)))%nat
  /\ length (Subscriptions c).1
     = (length (buttons (worker c)) + length (numbers (worker c))
        + length (switches (worker c)) + length (controls (worker c)))%nat.
Proof.
  unfold Configs, Subscriptions. cbn.
  rewrite !append_each_map. cbn.
  rewrite !length_app, !length_map. lia.
Qed.

End ControllerFacts.

(** C4, as the code has it.  [Subscriptions] returns one slot per button,
    number and switch, in that order, followed by the free-standing
    controls; [Configs] returns one slot per sensor, binary sensor, button,
    number, switch and camera.  The slot of an entity whose marshalling
    fails holds nil, the slot of any other entity holds its marshalled
    result, so a failure changes no other slot; the non-nil slots are
    exactly what the reading that leaves failed entities out would
    return. *)
Theorem Subscriptions_Configs_slots (c : agent.linuxMQTTController) :
  let w := agent.worker c in
  let sub_slot := fun e =>
    match agent.MarshalSubscription e with
    | (_, Some _) => None
    | (sub, None) => sub
    end in
  let cfg_slot := fun e =>
    match agent.MarshalConfig e with
    | (_, Some _) => None
    | (cfg, None) => cfg
    end in
  (agent.Subscriptions c).1
    = map sub_slot (agent.buttons w ++ agent.numbers w ++ agent.switches w)
      ++ agent.controls w
  /\ (agent.Configs c).1
     = map cfg_slot (agent.sensors w ++ agent.binarySensors w ++ agent.buttons w
                     ++ agent.numbers w ++ agent.switches w ++ agent.cameras w)
  /\ agent.present (agent.Subscriptions c).1 = agent.present (agent.skipping_Subscriptions c)
  /\ agent.present (agent.Configs c).1 = agent.present (agent.skipping_Configs c).
Proof.
  intros w sub_slot cfg_slot.
  assert (HS : (agent.Subscriptions c).1
    = map sub_slot (agent.buttons w ++ agent.numbers w ++ agent.switches w)
      ++ agent.controls w).
  { unfold agent.Subscriptions. fold w. cbn.
    rewrite !append_each_map. cbn. rewrite !map_app, <- !app_assoc.
    assert (Hm : forall l, map (fun e => (agent.generateSubscription e).1) l
                           = map sub_slot l)
      by (intros l; apply map_ext; intros e; apply generateSubscription_slot).
    by rewrite !Hm. }
  assert (HC : (agent.Configs c).1
    = map cfg_slot (agent.sensors w ++ agent.binarySensors w ++ agent.buttons w
                    ++ agent.numbers w ++ agent.switches w ++ agent.cameras w)).
  { unfold agent.Configs. fold w. cbn.
    rewrite !append_each_map. cbn. rewrite !map_app, <- !app_assoc.
    assert (Hm : forall l, map (fun e => (agent.generateConfig e).1) l
                           = map cfg_slot l)
      by (intros l; apply map_ext; intros e; apply generateConfig_slot).
    by rewrite !Hm. }
  split; [exact HS|]. split; [exact HC|]. split.
  - rewrite HS. unfold agent.skipping_Subscriptions. fold w.
    rewrite !present_app. f_equal. apply present_slots.
  - rewrite HC. unfold agent.skipping_Configs. fold w. apply present_slots.
Qed.

(** C4, as stated, fails: with a failing button before a working one,
    [Subscriptions] and [Configs] return a nil slot for the failing button
    instead of leaving it out. *)
Lemma failed_entity_keeps_a_slot :
  (agent.Subscriptions twoButtons).1 = [None; Some suspendSubscription]
  /\ agent.skipping_Subscriptions twoButtons = [Some suspendSubscription]
  /\ (agent.Subscriptions twoButtons).1 <> agent.skipping_Subscriptions twoButtons
  /\ (agent.Configs twoButtons).1 = [None; Some suspendConfig]
  /\ (agent.Configs twoButtons).1 <> agent.skipping_Configs twoButtons.
Proof. repeat split; discriminate. Qed.

(** Each failing entity leaves one warning in the log. *)
Lemma Subscriptions_log (c : agent.linuxMQTTController) :
  agent.logger (agent.Subscriptions c).2
  = agent.logger c
    ++ concat (map (fun e => (agent.generateSubscription e).2)
                 (agent.buttons (agent.worker c) ++ agent.numbers (agent.worker c)
                  ++ agent.switches (agent.worker c))).
Proof.
  unfold agent.Subscriptions. cbn. rewrite !append_each_map. cbn.
  by rewrite !map_app, !concat_app, <- !app_assoc.
Qed.

(** ** The goroutine closing the message channel *)
Section CloserFacts.

Import msgsCloser.

Lemma invariant_init (done : bool) : invariant (init done).
Proof. split; [done|]. left. done. Qed.

Lemma invariant_step (s : state) (e : event) : invariant s -> invariant (step s e).
Proof.
  intros [Hp [(Hb & Hc & Hn)|(Hr & Hc & Hn & Hd)]]; destruct e; cbn.
  - split; [done|]. left. done.
  - rewrite Hb. destruct (ctx_done s) eqn:Hd; cbn.
    + split; [by rewrite Hp, Hc|]. right. by rewrite Hn.
    + split; [done|]. left. done.
  - split; [done|]. right. done.
  - rewrite Hr. split; [done|]. right. done.
Qed.

Lemma invariant_run (evs : list event) (s : state) :
  invariant s -> invariant (run evs s).
Proof.
  unfold run. revert s.
  induction evs as [|e evs IH]; intros s Hs; cbn; [done|].
  apply IH. by apply invariant_step.
Qed.

Lemma run_app (evs1 evs2 : list event) (s : state) :
  run (evs1 ++ evs2) s = run evs2 (run evs1 s).
Proof. unfold run. apply fold_left_app. Qed.

Lemma closed_stays (evs : list event) (s : state) :
  invariant s -> chan_closed s = true ->
  chan_closed (run evs s) = true /\ closes (run evs s) = closes s.
Proof.
  unfold run. revert s.
  induction evs as [|e evs IH]; intros s Hs Hc; cbn; [done|].
  assert (Hstep : chan_closed (step s e) = true /\ closes (step s e) = closes s).
  { destruct Hs as [_ [(_ & Ho & _)|(Hr & _)]]; [congruence|].
    destruct e; cbn; [done|]. by rewrite Hr. }
  destruct Hstep as [Hc' Hn'].
  destruct (IH (step s e)) as [H1 H2]; [by apply invariant_step|done|].
  split; [done|]. by rewrite H2.
Qed.

End CloserFacts.

(** C5. In every run of the goroutine started by [newOSController], from
    any state of the owning context: the channel returned by [Msgs] is
    closed at most once and never a second time (no close of a closed
    channel), it is closed only after the context is cancelled, once the
    context is cancelled the goroutine's next turn closes it, and a closed
    channel stays closed with that one close whatever follows, also if the
    cancellation fires again. *)
Theorem msgs_closed_once_on_cancel (done : bool) (evs : list msgsCloser.event) :
  let s := msgsCloser.run evs (msgsCloser.init done) in
  (msgsCloser.closes s <= 1)%nat
  /\ msgsCloser.panicked s = false
  /\ (msgsCloser.chan_closed s = true <-> msgsCloser.closes s = 1%nat)
  /\ (msgsCloser.chan_closed s = true -> msgsCloser.ctx_done s = true)
  /\ (msgsCloser.ctx_done s = true ->
      msgsCloser.chan_closed (msgsCloser.step s msgsCloser.Schedule) = true
      /\ msgsCloser.closes (msgsCloser.step s msgsCloser.Schedule) = 1%nat)
  /\ (msgsCloser.ctx_done s = false ->
      msgsCloser.chan_closed (msgsCloser.step s msgsCloser.Schedule) = false)
  /\ (msgsCloser.chan_closed s = true ->
      forall evs', msgsCloser.chan_closed (msgsCloser.run evs' s) = true
                   /\ msgsCloser.closes (msgsCloser.run evs' s) = 1%nat).
Proof.
  intros s.
  assert (Hs : msgsCloser.invariant s)
    by (apply invariant_run, invariant_init).
  pose proof Hs as [Hp [(Hb & Hc & Hn)|(Hr & Hc & Hn & Hd)]].
  - split; [lia|]. split; [done|]. split; [split; intros; [congruence|lia]|].
    split; [congruence|]. split; [|split; [|congruence]].
    + intros Hd. cbn. rewrite Hb, Hd. cbn. by rewrite Hn.
    + intros Hd. cbn. by rewrite Hb, Hd.
  - split; [lia|]. split; [done|]. split; [done|].
    split; [done|]. split; [|split; [congruence|]].
    + intros _. cbn. by rewrite Hr.
    + intros _ evs'. destruct (closed_stays evs' s Hs Hc) as [H1 H2].
      split; [done|]. by rewrite H2.
Qed.

Lemma msgs_closed_once_on_cancel_witness :
  let s := msgsCloser.run [msgsCloser.Schedule; msgsCloser.Cancel] (msgsCloser.init false) in
  msgsCloser.chan_closed s = false
  /\ msgsCloser.chan_closed (msgsCloser.step s msgsCloser.Schedule) = true
  /\ msgsCloser.closes
       (msgsCloser.run [msgsCloser.Cancel; msgsCloser.Schedule]
          (msgsCloser.step s msgsCloser.Schedule)) = 1%nat.
Proof.
  intros s.
  pose proof (msgs_closed_once_on_cancel false [msgsCloser.Schedule; msgsCloser.Cancel])
    as (_ & _ & _ & _ & Hgo & _ & _).
  pose proof (msgs_closed_once_on_cancel false
                [msgsCloser.Schedule; msgsCloser.Cancel; msgsCloser.Schedule])
    as (_ & _ & _ & _ & _ & _ & Hstay).
  split; [reflexivity|]. split.
  - apply Hgo. reflexivity.
  - apply (Hstay eq_refl [msgsCloser.Cancel; msgsCloser.Schedule]).
Defined.

(** ** The goroutines of [OpenSensorRegistry] *)
Section RegistryTaskFacts.

Import registryTasks.

Lemma gc_step_not_exited (s : state) (e : event) :
  gc s <> GcExited -> gc (step s e) <> GcExited.
Proof.
  intros H. destruct e as [| |failed|]; cbn; try done.
  - destruct (gc s) eqn:E; cbn; congruence.
  - destruct (gc s) eqn:E; cbn; try congruence. by destruct failed.
  - destruct (closer s); [|done]. by destruct (ctx_done s).
Qed.

Lemma gc_run_not_exited (evs : list event) (s : state) :
  gc s <> GcExited -> gc (run evs s) <> GcExited.
Proof.
  unfold run. revert s.
  induction evs as [|e evs IH]; intros s H; cbn; [done|].
  by apply IH, gc_step_not_exited.
Qed.

Lemma tasks_run_app (evs1 evs2 : list event) (s : state) :
  run (evs1 ++ evs2) s = run evs2 (run evs1 s).
Proof. unfold run. apply fold_left_app. Qed.

(** The closing goroutine returns only after it has closed the store. *)
Lemma closer_returned_closed (evs : list event) (store : badger.DB) (done : bool) :
  closer (run evs (init store done)) = CloserReturned ->
  badger.closed (db (run evs (init store done))) = true.
Proof.
  assert (H : forall s, (closer s = CloserReturned -> badger.closed (db s) = true) ->
                        closer (run evs s) = CloserReturned ->
                        badger.closed (db (run evs s)) = true).
  { unfold run. induction evs as [|e evs IH]; intros s Hs; cbn; [done|].
    apply IH. destruct e as [| |failed|]; cbn; try done.
    - by destruct (gc s).
    - by destruct (gc s).
    - destruct (closer s) eqn:Hc; [|by rewrite Hc].
      destruct (ctx_done s); cbn; [done|]. by rewrite Hc. }
  apply H. discriminate.
Qed.

(** Once the context is cancelled, the closing goroutine's turn leaves the
    store closed, with its content untouched. *)
Lemma cancel_closes_store (evs : list event) (store : badger.DB) (done : bool) :
  let s := run (evs ++ [Cancel; ScheduleCloser]) (init store done) in
  ctx_done s = true /\ badger.closed (db s) = true /\ closer s = CloserReturned.
Proof.
  intros s. subst s. rewrite tasks_run_app. cbn.
  destruct (closer (run evs (init store done))) eqn:Hc; cbn.
  - done.
  - split; [done|]. split; [|done].
    by apply closer_returned_closed.
Qed.

(** Cancelling again changes nothing. *)
Lemma cancel_twice (s : state) : step (step s Cancel) Cancel = step s Cancel.
Proof. reflexivity. Qed.

End RegistryTaskFacts.

(** C6, on the code.  After the cancellation has fired and the closing
    goroutine has run, the store is closed, but the GC goroutine has not
    stopped and never does: in no continuation does it leave its loop, the
    next tick starts another [RunValueLogGC], and a second cancellation
    changes nothing of that. *)
Theorem gc_loop_outlives_cancellation (store : badger.DB) (done : bool)
    (evs : list registryTasks.event) :
  let s := registryTasks.run (evs ++ [registryTasks.Cancel; registryTasks.ScheduleCloser])
             (registryTasks.init store done) in
  registryTasks.ctx_done s = true
  /\ badger.closed (registryTasks.db s) = true
  /\ (forall evs', registryTasks.gc (registryTasks.run evs' s) <> registryTasks.GcExited)
  /\ (forall evs',
        let s' := registryTasks.run (evs' ++ [registryTasks.GcReturns true; registryTasks.Tick]) s in
        registryTasks.gc s' = registryTasks.GcRunning)
  /\ registryTasks.step s registryTasks.Cancel = s.
Proof.
  intros s.
  destruct (cancel_closes_store evs store done) as (Hd & Hc & Hr). fold s in Hd, Hc, Hr.
  assert (Hlive : forall evs', registryTasks.gc (registryTasks.run evs' s) <> registryTasks.GcExited).
  { intros evs'. subst s. rewrite <- tasks_run_app.
    by apply gc_run_not_exited. }
  split; [done|]. split; [done|]. split; [done|]. split.
  - intros evs' s'. subst s'. rewrite tasks_run_app. cbn.
    specialize (Hlive evs').
    destruct (registryTasks.gc (registryTasks.run evs' s)) eqn:E; cbn;
      rewrite ?E; cbn; congruence.
  - destruct s as [d b g n c]. cbn in Hd. by subst d.
Qed.

(** The run in which the registry is opened, the context is cancelled, the
    store is closed, and the GC loop then collects on the next tick. *)
Lemma gc_loop_outlives_cancellation_run :
  let s := registryTasks.run
             [registryTasks.Cancel; registryTasks.ScheduleCloser; registryTasks.Cancel;
              registryTasks.Tick; registryTasks.GcReturns true; registryTasks.Tick]
             (registryTasks.init emptyStore false) in
  registryTasks.ctx_done s = true
  /\ badger.closed (registryTasks.db s) = true
  /\ registryTasks.gc s = registryTasks.GcRunning
  /\ registryTasks.gc_runs s = 1%nat.
Proof. repeat split. Qed.

(** ** The sensor controller *)

(** C7.  [Start(ctx, name)] returns [ErrUnknownWorker] when [name] is not
    among the managed workers and [ErrWorkerAlreadyStarted] when the named
    worker is already running; in both cases the error reaches the caller
    and the controller is left as it was.  When [Start] returns no error,
    the worker was managed and not running before, and is recorded as
    running afterwards. *)
Theorem Start_reports_errors (c : deviceController.deviceController) (name : string) :
  (deviceController.sensorWorkers c !! name = None ->
   deviceController.Start c name = (c, (None, Some ErrUnknownWorker)))
  /\ (forall w,
        deviceController.sensorWorkers c !! name = Some w ->
        deviceController.started w = true ->
        deviceController.Start c name = (c, (None, Some ErrWorkerAlreadyStarted)))
  /\ (forall c' ch,
        deviceController.Start c name = (c', (ch, None)) ->
        exists w,
          deviceController.sensorWorkers c !! name = Some w
          /\ deviceController.started w = false
          /\ deviceController.sensorWorkers c' !! name
             = Some {| deviceController.object := deviceController.object w;
                       deviceController.started := true |}).
Proof.
  unfold deviceController.Start. split; [|split].
  - by intros ->.
  - by intros w -> ->.
  - intros c' ch.
    destruct (deviceController.sensorWorkers c !! name) as [w|] eqn:Hw; [|done].
    destruct (deviceController.started w) eqn:Hs; [done|].
    destruct (deviceController.Updates (deviceController.object w)) as [upd|err]; [|done].
    intros [= <- <-]. exists w. split; [done|]. split; [done|].
    cbn. apply lookup_insert_eq.
Qed.

Lemma Start_reports_errors_witness :
  deviceController.Start oneWorker "cpu" = (oneWorker, (None, Some ErrUnknownWorker))
  /\ (let c := (deviceController.Start oneWorker "battery").1 in
      deviceController.Start c "battery" = (c, (None, Some ErrWorkerAlreadyStarted)))
  /\ (exists w,
        deviceController.sensorWorkers oneWorker !! "battery" = Some w
        /\ deviceController.started w = false
        /\ deviceController.sensorWorkers (deviceController.Start oneWorker "battery").1
             !! "battery"
           = Some {| deviceController.object := deviceController.object w;
                     deviceController.started := true |}).
Proof.
  split; [|split].
  - apply (Start_reports_errors oneWorker "cpu"). vm_compute. reflexivity.
  - cbv zeta.
    apply (Start_reports_errors (deviceController.Start oneWorker "battery").1 "battery")
      with (w := {| deviceController.object := batteryWorker;
                    deviceController.started := true |});
      vm_compute; reflexivity.
  - apply (Start_reports_errors oneWorker "battery")
      with (ch := Some [ {| sensor.ID := "battery_level"; sensor.State := 42 |} ]).
    vm_compute. reflexivity.
Defined.

(** ** Sensor identifiers *)

Section SnakeFacts.

Import strcase.

Variables TrimFunc_IsSpace TrimRightFunc_IsSpace : list ascii -> list ascii.

Lemma recase_not_cap (v : ascii) : isCap (recase false v) = false.
Proof. destruct v as [[] [] [] [] [] [] [] []]; vm_compute; reflexivity. Qed.

Lemma recase_written (v : ascii) :
  isSeparator (recase false v) = false -> snake_free (recase false v).
Proof.
  destruct v as [[] [] [] [] [] [] [] []]; vm_compute; intros H;
    first [discriminate H | repeat split; discriminate].
Qed.

Lemma recase_alnum (v : ascii) :
  isCap v || isLow v || isNum (recase false v) = true ->
  isSeparator (recase false v) = false.
Proof.
  destruct v as [[] [] [] [] [] [] [] []]; vm_compute; intros H;
    first [discriminate H | reflexivity].
Qed.

Lemma underscore_free : snake_free "_"%char.
Proof. repeat split; discriminate. Qed.

Lemma delimited_snake_free (prev : option ascii) (s : list ascii) :
  Forall snake_free (delimited "_" false prev s).
Proof.
  revert prev. induction s as [|v0 rest IH]; intros prev; [constructor|].
  assert (Hplain : Forall snake_free
            ((if isSeparator (recase false v0) then "_"%char else recase false v0)
             :: delimited "_" false (Some v0) rest)).
  { constructor; [|apply IH].
    destruct (isSeparator (recase false v0)) eqn:Hs;
      [apply underscore_free|by apply recase_written]. }
  cbn [delimited]. destruct rest as [|next rest']; [exact Hplain|].
  match goal with |- Forall _ (if ?c then _ else _) => destruct c eqn:Hc end;
    [|exact Hplain].
  assert (Hv : snake_free (recase false v0)).
  { apply recase_written, recase_alnum.
    destruct (isCap v0), (isLow v0), (isNum (recase false v0));
      first [done | cbn in Hc; discriminate]. }
  assert (Hd : forall c : bool, Forall snake_free (if c then ["_"%char] else [])).
  { intros []; repeat constructor; apply underscore_free. }
  apply Forall_app. split; [apply Hd|].
  constructor; [exact Hv|]. apply Forall_app. split; [apply Hd|apply IH].
Qed.

Lemma isSnake_inv (v : ascii) :
  isSnake v = true ->
  isCap v = false /\ isNum v = false /\ recase false v = v
  /\ notASCII v = false /\ asciiSpace v = false
  /\ (if isSeparator v then "_"%char else v) = v.
Proof.
  destruct v as [[] [] [] [] [] [] [] []]; vm_compute; intros H;
    first [discriminate H | repeat split].
Qed.

(** A name in snake case is left as it is by the loop. *)
Lemma delimited_snake (prev : option ascii) (s : list ascii) :
  Forall (fun v => isSnake v = true) s -> delimited "_" false prev s = s.
Proof.
  intros Hs. revert prev. induction Hs as [|v0 rest Hv Hrest IH]; intros prev; [done|].
  destruct (isSnake_inv _ Hv) as (Hcap & Hnum & Hre & _ & _ & Hsep).
  cbn [delimited]. rewrite Hre, Hsep, IH.
  destruct Hrest as [|next rest' Hn _]; [done|].
  destruct (isSnake_inv _ Hn) as (Hcap' & Hnum' & _).
  rewrite Hcap, Hnum, Hcap', Hnum'. cbn.
  by rewrite !andb_false_r.
Qed.

Lemma trim_stop_snake (v : ascii) (before : list ascii) :
  isSnake v = true ->
  trim_stop TrimRightFunc_IsSpace (v :: before) = rev (v :: before).
Proof.
  intros Hv. destruct (isSnake_inv _ Hv) as (_ & _ & _ & Hascii & Hspace & _).
  cbn [trim_stop]. by rewrite Hascii, Hspace.
Qed.

(** and by [TrimSpace]. *)
Lemma TrimSpace_snake (s : string) :
  Forall (fun v => isSnake v = true) (list_ascii_of_string s) ->
  TrimSpace TrimFunc_IsSpace TrimRightFunc_IsSpace s = list_ascii_of_string s.
Proof.
  unfold TrimSpace. destruct (list_ascii_of_string s) as [|c after] eqn:Hl; [done|].
  intros Hall. pose proof (Forall_inv Hall) as Hc.
  destruct (isSnake_inv _ Hc) as (_ & _ & _ & Hascii & Hspace & _).
  cbn [trim_start]. rewrite Hascii, Hspace.
  assert (Hrev : Forall (fun v => isSnake v = true) (rev (c :: after)))
    by (by apply Forall_rev).
  destruct (rev (c :: after)) as [|v before] eqn:Hr.
  - apply (f_equal (@length ascii)) in Hr. rewrite length_rev in Hr. discriminate.
  - rewrite trim_stop_snake by (by apply (Forall_inv Hrev)).
    by rewrite <- Hr, rev_involutive.
Qed.

End SnakeFacts.

(** C9.  The identifier of a sensor is a function of its name alone, the
    snake-case transformation of the name: two sensors with the same name
    have the same identifier, whatever else they hold (values, units,
    flags: all that can differ from one evaluation or one run of the
    process to the next).  The transformation is strcase's loop; it reads
    nothing but the bytes of the name, so the identifier never holds a
    capital letter, a blank, a hyphen or a dot, and a name that is in snake
    case already is its own identifier. *)
Theorem ID_determined_by_Name (sensorType : Type)
    (sensorType_String : sensorType -> string)
    (TrimFunc_IsSpace TrimRightFunc_IsSpace : list ascii -> list ascii)
    (l1 l2 : linux.linuxSensor sensorType) :
  let ToSnake := strcase.ToSnake TrimFunc_IsSpace TrimRightFunc_IsSpace in
  let ID := linux.ID sensorType_String ToSnake in
  let Name := linux.Name sensorType_String in
  (Name l1 = Name l2 -> ID l1 = ID l2)
  /\ ID l1 = ToSnake (Name l1)
  /\ Forall (fun v => strcase.isCap v = false
                      /\ v <> " "%char /\ v <> "-"%char /\ v <> "."%char)
       (list_ascii_of_string (ID l1))
  /\ (Forall (fun v => strcase.isSnake v = true) (list_ascii_of_string (Name l1)) ->
      ID l1 = Name l1).
Proof.
  intros ToSnake ID Name. subst ToSnake ID Name.
  unfold linux.ID, linux.Name.
  split; [by intros ->|]. split; [done|].
  unfold strcase.ToSnake, strcase.ToDelimited, strcase.ToScreamingDelimited.
  split.
  - rewrite list_ascii_of_string_of_list_ascii. apply delimited_snake_free.
  - intros Hs. rewrite TrimSpace_snake by done.
    rewrite delimited_snake by done. apply string_of_list_ascii_of_string.
Qed.

Lemma ID_determined_by_Name_witness :
  linux.value lockedEvent <> linux.value unlockedEvent
  /\ linux.ID sensorNames.String_ exampleToSnake lockedEvent
     = linux.ID sensorNames.String_ exampleToSnake unlockedEvent
  /\ linux.ID sensorNames.String_ exampleToSnake lockedEvent = "screen_lock"
  /\ exampleToSnake "screen_lock" = "screen_lock".
Proof.
  split; [discriminate|].
  destruct (ID_determined_by_Name sensorNames.sensorType sensorNames.String_
              (fun s => s) (fun s => s) lockedEvent unlockedEvent) as (H1 & H2 & _ & _).
  split; [apply H1; reflexivity|].
  split; [unfold exampleToSnake; rewrite H2; vm_compute; reflexivity|].
  vm_compute. reflexivity.
Defined.

(** ** The websocket URL helpers *)

(** C10, as stated, fails: for a host that already carries the [ws] scheme
    the registration helper returns the websocket URL and the config helper
    returns the empty string. *)
Lemma websocket_urls_differ :
  (agent.generateWebsocketURL config.websocketPath "ws://homeassistant.local:8123").1
    = "ws://homeassistant.local:8123/api/websocket"
  /\ config.generateWebsocketURL "ws://homeassistant.local:8123" = ""
  /\ (agent.generateWebsocketURL config.websocketPath "ws://homeassistant.local:8123").1
     <> config.generateWebsocketURL "ws://homeassistant.local:8123".
Proof. repeat split. discriminate. Qed.

(** C10, as the code has it, for any implementation of net/url and with
    [hass.WebsocketPath] equal to the config package's [websocketPath]:
    on a host that fails to parse both helpers give the empty string (the
    registration helper with the wrapped error); on a host whose scheme is
    [https] or [http] they give the same URL; on any other scheme the
    config helper gives the empty string, while the registration helper
    keeps [wss], turns every other scheme into [ws], and appends the
    path. *)
Theorem generateWebsocketURL_agreement `{url.Package} (WebsocketPath host : string) :
  WebsocketPath = config.websocketPath ->
  (forall err,
     url.Parse host = inr err ->
     agent.generateWebsocketURL WebsocketPath host
       = ("", Some (Wrapped "unable to generate websocket URL" err))
     /\ config.generateWebsocketURL host = "")
  /\ (forall u,
        url.Parse host = inl u ->
        url.Scheme u = "https" \/ url.Scheme u = "http" ->
        agent.generateWebsocketURL WebsocketPath host
          = (config.generateWebsocketURL host, None))
  /\ (forall u,
        url.Parse host = inl u ->
        url.Scheme u <> "https" -> url.Scheme u <> "http" ->
        config.generateWebsocketURL host = ""
        /\ agent.generateWebsocketURL WebsocketPath host
           = (url.String_
                (url.JoinPath
                   (if String.eqb (url.Scheme u) "wss" then u
                    else url.with_Scheme "ws" u)
                   [WebsocketPath]), None)).
Proof.
  intros ->. unfold agent.generateWebsocketURL, config.generateWebsocketURL.
  split; [|split].
  - by intros err ->.
  - intros u -> [Hs|Hs]; rewrite Hs; reflexivity.
  - intros u -> H1 H2.
    apply String.eqb_neq in H1, H2. rewrite H1, H2. split; [done|].
    by destruct (String.eqb (url.Scheme u) "wss").
Qed.

Lemma generateWebsocketURL_agreement_witness :
  agent.generateWebsocketURL "/api/websocket" "https://homeassistant.local:8123"
    = (config.generateWebsocketURL "https://homeassistant.local:8123", None)
  /\ config.generateWebsocketURL "https://homeassistant.local:8123"
     = "wss://homeassistant.local:8123/api/websocket"
  /\ config.generateWebsocketURL ":8123" = "".
Proof.
  destruct (generateWebsocketURL_agreement (H := gourl.package)
              "/api/websocket" "https://homeassistant.local:8123" eq_refl)
    as (_ & Hsame & _).
  destruct (generateWebsocketURL_agreement (H := gourl.package)
              "/api/websocket" ":8123" eq_refl)
    as (Hbad & _ & _).
  split; [|split].
  - apply (Hsame (url.mkURL "https" "" "homeassistant.local:8123" "" "" "")).
    + reflexivity.
    + left. reflexivity.
  - reflexivity.
  - apply (Hbad ErrURLParse). reflexivity.
Defined.

(** ** The tracker *)
Section TrackerFacts.

Import tracker sensor.

Context {A : Type}.

Lemma concat_lookup_cons (streams : list (list A)) (i : nat) (x : A) (rest : list A) :
  streams !! i = Some (x :: rest) ->
  concat streams ≡ₚ x :: concat (<[i := rest]> streams).
Proof.
  intros Hi.
  rewrite insert_take_drop by (by eapply lookup_lt_Some).
  rewrite <- (take_drop_middle streams i (x :: rest)) at 1 by done.
  rewrite !concat_app. cbn.
  by rewrite <- Permutation_middle.
Qed.

Lemma all_closed_concat (streams : list (list A)) :
  Forall (fun s => s = []) streams -> concat streams = [].
Proof. induction 1 as [|s streams -> _ IH]; [done|]. by cbn. Qed.










Lemma open_stream (streams : list (list A)) :
  ~ Forall (fun s => s = []) streams ->
  exists i x rest, streams !! i = Some (x :: rest).
Proof.
  induction streams as [|s streams IH]; intros Hn.
  - destruct Hn. constructor.
  - destruct s as [|x rest].
    + destruct IH as (i & x & rest & Hi).
      { intros Hall. apply Hn. by constructor. }
      by exists (S i), x, rest.
    + by exists 0, x, rest.
Qed.

(** Streams of finite length are always read to their end: a merge exists. *)
Lemma merge_total (streams : list (list A)) : exists out, merge streams out.
Proof.
  remember (length (concat streams)) as n eqn:Hn.
  revert streams Hn. induction n as [|n IH]; intros streams Hn.
  - exists []. constructor.
    apply Forall_forall. intros s Hs.
    apply list_elem_of_lookup in Hs as [i Hi].
    destruct s as [|x rest]; [done|].
    apply concat_lookup_cons, Permutation_length in Hi.
    rewrite <- Hn in Hi. discriminate.
  - destruct (decide (Forall (fun s => s = []) streams)) as [Hall|Hopen].
    + rewrite all_closed_concat in Hn by done. discriminate.
    + apply open_stream in Hopen as (i & x & rest & Hi).
      destruct (IH (<[i := rest]> streams)) as [out Hout].
      { apply concat_lookup_cons, Permutation_length in Hi.
        rewrite <- Hn in Hi. cbn in Hi. lia. }
      exists ((i, x) :: out). by econstructor.
Qed.

End TrackerFacts.

Section ProcessFacts.

Import tracker sensor.

Variable publish : nat -> request -> bool.

(** [Get] looks at nothing but the store's state and the one key. *)
Lemma Get_ext (r1 r2 : badger.DB) (id : string) :
  badger.closed r1 = badger.closed r2 ->
  badger.kv r1 !! id = badger.kv r2 !! id ->
  sensors.Get r1 id = sensors.Get r2 id.
Proof.
  intros Hc Hk. unfold sensors.Get, badger.View, badger.Txn_Get.
  rewrite Hc. destruct (badger.closed r2); [done|]. cbn.
  destruct (String.length id =? 0)%nat; [done|].
  by rewrite !lookup_empty, Hk.
Qed.

Lemma Get_after_Set_other (reg : badger.DB) (id id' : string)
    (v : sensors.registryValues) :
  id <> id' ->
  sensors.Get (sensors.Set_ reg id v).1 id' = sensors.Get reg id'.
Proof.
  intros Hne. destruct (Set_store reg id v) as [->|(Ho & _ & ->)]; [done|].
  apply Get_ext; cbn; [done|]. by apply lookup_insert_ne.
Qed.






End ProcessFacts.


(** The spec's end-to-end scenario on an empty registry: three calls to the
    publisher, and both sensors end up registered and enabled. *)
Lemma end_to_end_scenario :
  let st := tracker.Process alwaysOk [1; 0; 1] emptyStore
              [[battery42]; [cpu10; cpu15]] in
  tracker.merged [1; 0; 1] [[battery42]; [cpu10; cpu15]]
    = [(1, cpu10); (0, battery42); (1, cpu15)]
  /\ tracker.sent st
     = [tracker.RegisterSensor cpu10; tracker.RegisterSensor battery42;
        tracker.UpdateSensor cpu15]
  /\ sensors.Get (tracker.registry st) "cpu_pct"
     = ({| sensors.Registered := true; sensors.Disabled := false |}, None)
  /\ sensors.Get (tracker.registry st) "battery_level"
     = ({| sensors.Registered := true; sensors.Disabled := false |}, None).
Proof. vm_compute. repeat split. Qed.

(** The updates of a sensor that the registry marks disabled reach the
    merge point and are dropped there. *)
Lemma disabled_snapshot_dropped :
  tracker.merged [0; 1] [[battery42]; [cpu10]] = [(0, battery42); (1, cpu10)]
  /\ tracker.delivered
       (tracker.Process alwaysOk [0; 1] cpuDisabledStore [[battery42]; [cpu10]])
     = [battery42].
Proof. vm_compute. split; reflexivity. Qed.



(** * Further properties of the modelled code *)

(** ** The registry: locality, upserts and idempotence *)

(** X1.  [Set] and [Add] on one id never change what [Get] reports for
    another id. *)
Theorem registry_writes_are_local (reg : badger.DB) (id id' : string)
    (v : sensors.registryValues) :
  id <> id' ->
  sensors.Get (sensors.Set_ reg id v).1 id' = sensors.Get reg id'
  /\ sensors.Get (sensors.Add reg id).1 id' = sensors.Get reg id'.
Proof.
  intros Hne. split; [by apply Get_after_Set_other|].
  unfold sensors.Add. cbn.
  destruct (sensors.Get reg id) as [x [err|]]; [|done].
  destruct (errors_Is err ErrKeyNotFound); [|done].
  destruct (sensors.Set_ reg id sensors.newRegistryValues) as [reg1 e1] eqn:HS.
  cbn. change reg1 with (reg1, e1).1. rewrite <- HS.
  by apply Get_after_Set_other.
Qed.

Lemma registry_writes_are_local_witness :
  sensors.Get (sensors.Set_ cpuDisabledStore "battery_level" sensors.newRegistryValues).1
    "cpu_pct"
  = ({| sensors.Registered := true; sensors.Disabled := true |}, None)
  /\ sensors.Get (sensors.Add cpuDisabledStore "battery_level").1 "cpu_pct"
     = ({| sensors.Registered := true; sensors.Disabled := true |}, None).
Proof.
  destruct (registry_writes_are_local cpuDisabledStore "battery_level" "cpu_pct"
              sensors.newRegistryValues) as [H1 H2]; [discriminate|].
  rewrite H1, H2. split; vm_compute; reflexivity.
Defined.

(** X2.  [Set] is an upsert: of two successful [Set]s on the same id the
    second wins, and the store is the one a single [Set] of the second
    value would have left. *)
Theorem Set_last_write_wins (reg r1 r2 : badger.DB) (id : string)
    (v1 v2 : sensors.registryValues) :
  sensors.Set_ reg id v1 = (r1, None) ->
  sensors.Set_ r1 id v2 = (r2, None) ->
  sensors.Get r2 id = (v2, None)
  /\ sensors.Set_ reg id v2 = (r2, None).
Proof.
  intros H1 H2.
  pose proof (Set_ok_key _ _ _ _ H1) as Hk.
  apply Set_ok_inv in H1 as [Ho ->].
  apply Set_ok_inv in H2 as [_ ->]. cbn.
  rewrite insert_insert_eq. split.
  - rewrite <- (Get_after_Set_same reg id v2 Ho Hk). by rewrite Set_open.
  - by rewrite Set_open.
Qed.

Lemma Set_last_write_wins_witness :
  sensors.Get
    (sensors.Set_ cpuDisabledStore "cpu_pct"
       {| sensors.Registered := true; sensors.Disabled := false |}).1 "cpu_pct"
  = ({| sensors.Registered := true; sensors.Disabled := false |}, None).
Proof.
  apply (Set_last_write_wins emptyStore cpuDisabledStore _ "cpu_pct"
           {| sensors.Registered := true; sensors.Disabled := true |}
           {| sensors.Registered := true; sensors.Disabled := false |});
    vm_compute; reflexivity.
Defined.

(** X3.  [Add] is idempotent on every store, open or closed, whatever the
    id holds: a second [Add] of the same id returns the same entry and
    leaves the store as the first one left it. *)
Theorem Add_idempotent (reg : badger.DB) (id : string) :
  sensors.Add (sensors.Add reg id).1 id = sensors.Add reg id.
Proof.
  destruct (sensors.Get reg id) as [x [err|]] eqn:HG.
  - destruct (errors_Is err ErrKeyNotFound) eqn:HI.
    + destruct (Add_on_missing_id reg id x err HG HI) as (HA & Hok & Hno).
      destruct (badger.check_key id) as [refusal|] eqn:Hk.
      * rewrite HA at 1. cbn [fst]. by rewrite Hno.
      * rewrite HA. cbn. unfold sensors.Add at 1. cbn. by rewrite Hok.
    + assert (HA : sensors.Add reg id = (reg, sensors.newRegistryEntry id))
        by (unfold sensors.Add; cbn; by rewrite HG, HI).
      by rewrite HA.
  - assert (HA : sensors.Add reg id = (reg, {| sensors.id := id; sensors.values := x |}))
      by (unfold sensors.Add; cbn; by rewrite HG).
    by rewrite HA.
Qed.

(** X4.  An entry written with [Update] is what [Add] returns afterwards:
    a successful [Update(entry)] followed by [Add(entry.id)] gives back the
    entry, flags included, and writes nothing more. *)
Theorem Update_then_Add (reg reg' : badger.DB) (e : sensors.registryEntry) :
  sensors.Update reg e = (reg', None) ->
  sensors.Add reg' (sensors.id e) = (reg', e).
Proof.
  unfold sensors.Update. intros HU.
  pose proof (Set_ok_inv _ _ _ _ HU) as [Ho _].
  pose proof (Set_ok_key _ _ _ _ HU) as Hk.
  assert (HG : sensors.Get reg' (sensors.id e) = (sensors.values e, None)).
  { replace reg' with (sensors.Set_ reg (sensors.id e) (sensors.values e)).1
      by (by rewrite HU).
    by apply Get_after_Set_same. }
  unfold sensors.Add. cbn. rewrite HG. by destruct e.
Qed.

Lemma Update_then_Add_witness :
  let e := sensors.SetDisabled (sensors.newRegistryEntry "cpu_pct") true in
  let reg' := (sensors.Update emptyStore e).1 in
  sensors.Add reg' "cpu_pct" = (reg', e)
  /\ sensors.IsDisabled (sensors.Add reg' "cpu_pct").2 = true.
Proof.
  intros e reg'.
  assert (H : sensors.Add reg' (sensors.id e) = (reg', e)).
  { apply (Update_then_Add emptyStore). vm_compute. reflexivity. }
  split; [exact H|]. change "cpu_pct" with (sensors.id e). rewrite H. reflexivity.
Defined.

(** After [CloseSensorRegistry] the registry refuses every operation
    and keeps its content: [Get] and [Set] report the closed store, [Set]
    changes nothing, [Add] returns the defaults without writing, and
    closing again changes nothing. *)
Theorem closed_registry_refuses (reg : badger.DB) (id : string)
    (v : sensors.registryValues) :
  let c := sensors.CloseSensorRegistry reg in
  sensors.Get c id = (sensors.zeroValues, Some ErrDBClosed)
  /\ sensors.Set_ c id v = (c, Some ErrDBClosed)
  /\ sensors.Add c id = (c, sensors.newRegistryEntry id)
  /\ sensors.CloseSensorRegistry c = c
  /\ badger.kv c = badger.kv reg.
Proof.
  intros c. split; [by apply Get_closed|]. split; [by apply Set_closed|].
  split; [|done].
  unfold sensors.Add. by rewrite Get_closed.
Qed.

(** ** The MQTT controller: the log *)

(** X5.  The controller logs exactly one warning per failing entity, in
    entity order and carrying that entity's error, after what was logged
    before; entities that marshal leave no trace in the log. *)
Theorem one_warning_per_failure (c : agent.linuxMQTTController) :
  let w := agent.worker c in
  agent.logger (agent.Subscriptions c).2
  = agent.logger c
    ++ omap (fun e => match (agent.MarshalSubscription e).2 with
                      | Some err => Some (agent.Warn "Could not create subscription." err)
                      | None => None
                      end)
         (agent.buttons w ++ agent.numbers w ++ agent.switches w)
  /\ agent.logger (agent.Configs c).2
     = agent.logger c
       ++ omap (fun e => match (agent.MarshalConfig e).2 with
                         | Some err => Some (agent.Warn "Could not create config." err)
                         | None => None
                         end)
            (agent.sensors w ++ agent.binarySensors w ++ agent.buttons w
             ++ agent.numbers w ++ agent.switches w ++ agent.cameras w).
Proof.
  intros w.
  assert (Hs : forall es,
    concat (map (fun e => (agent.generateSubscription e).2) es)
    = omap (fun e => match (agent.MarshalSubscription e).2 with
                     | Some err => Some (agent.Warn "Could not create subscription." err)
                     | None => None
                     end) es).
  { induction es as [|e es IH]; [done|]. cbn. rewrite IH.
    unfold agent.generateSubscription.
    by destruct (agent.MarshalSubscription e) as [sub [err|]]. }
  assert (Hc : forall es,
    concat (map (fun e => (agent.generateConfig e).2) es)
    = omap (fun e => match (agent.MarshalConfig e).2 with
                     | Some err => Some (agent.Warn "Could not create config." err)
                     | None => None
                     end) es).
  { induction es as [|e es IH]; [done|]. cbn. rewrite IH.
    unfold agent.generateConfig.
    by destruct (agent.MarshalConfig e) as [cfg [err|]]. }
  split.
  - unfold agent.Subscriptions. fold w. cbn. rewrite !append_each_map. cbn.
    rewrite !Hs, !omap_app. by rewrite <- !app_assoc.
  - unfold agent.Configs. fold w. cbn. rewrite !append_each_map. cbn.
    rewrite !Hc, !omap_app. by rewrite <- !app_assoc.
Qed.

(** [Subscriptions] looks at the buttons, numbers, switches and
    controls only: sensors, binary sensors and cameras never contribute a
    subscription, although the cameras are counted in the capacity it
    reserves.  [Configs] never looks at the controls. *)
Theorem Subscriptions_ignore_cameras (c c' : agent.linuxMQTTController) :
  let w := agent.worker c in
  let w' := agent.worker c' in
  agent.buttons w = agent.buttons w' ->
  agent.numbers w = agent.numbers w' ->
  agent.switches w = agent.switches w' ->
  (agent.controls w = agent.controls w' ->
   (agent.Subscriptions c).1 = (agent.Subscriptions c').1)
  /\ (agent.sensors w = agent.sensors w' ->
      agent.binarySensors w = agent.binarySensors w' ->
      agent.cameras w = agent.cameras w' ->
      (agent.Configs c).1 = (agent.Configs c').1).
Proof.
  intros w w' Hb Hn Hs. split.
  - intros Hc. unfold agent.Subscriptions. fold w w'. cbn.
    rewrite !append_each_map. cbn. by rewrite Hb, Hn, Hs, Hc.
  - intros Hse Hbi Hca. unfold agent.Configs. fold w w'. cbn.
    rewrite !append_each_map. cbn. by rewrite Hb, Hn, Hs, Hse, Hbi, Hca.
Qed.

Lemma Subscriptions_ignore_cameras_witness :
  (agent.Subscriptions twoButtons).1 = (agent.Subscriptions twoButtonsAndCamera).1
  /\ (agent.Configs twoButtons).1 = (agent.Configs twoButtonsWithControl).1.
Proof.
  split.
  - apply (Subscriptions_ignore_cameras twoButtons twoButtonsAndCamera); reflexivity.
  - apply (Subscriptions_ignore_cameras twoButtons twoButtonsWithControl); reflexivity.
Defined.

(** ** [newOSController] *)
Section OSControllerFacts.

Import osController deviceController.

Lemma add_worker_fold (l : list (Worker + error))
    (m : gmap string sensorWorker) (log : list agent.logline) :
  let st := fold_left add_worker l (m, log) in
  (forall id sw, st.1 !! id = Some sw ->
     m !! id = Some sw
     \/ (started sw = false /\ worker_ID (object sw) = id /\ inl (object sw) ∈ l))
  /\ (forall id sw, m !! id = Some sw -> started sw = false ->
        exists sw', st.1 !! id = Some sw' /\ started sw' = false)
  /\ (forall w, inl w ∈ l ->
        exists sw, st.1 !! worker_ID w = Some sw /\ started sw = false)
  /\ st.2 = log ++ omap (fun r => match r with
                                  | inr err =>
                                      Some (agent.Warn "Could not start a sensor worker." err)
                                  | inl _ => None
                                  end) l.
Proof.
  revert m log. induction l as [|r l IH]; intros m log st.
  - subst st. cbn. split; [by left|]. split; [by eauto|].
    split; [by intros w ?%elem_of_nil|]. by rewrite app_nil_r.
  - subst st. cbn [fold_left].
    destruct (IH (add_worker (m, log) r).1 (add_worker (m, log) r).2)
      as (H1 & H2 & H3 & H4).
    rewrite <- surjective_pairing in H1, H2, H3, H4.
    split; [|split; [|split]].
    + intros id sw Hsw. destruct (H1 id sw Hsw) as [Hm|(Hs & Hi & Hin)].
      * destruct r as [w|err]; cbn in Hm; [|by left].
        destruct (decide (worker_ID w = id)) as [<-|Hne].
        -- rewrite lookup_insert_eq in Hm. injection Hm as <-.
           right. cbn. split; [done|]. split; [done|]. by left.
        -- rewrite lookup_insert_ne in Hm by done. by left.
      * right. split; [done|]. split; [done|]. by right.
    + intros id sw Hm Hs. destruct r as [w|err]; cbn in H2; [|by eapply H2].
      destruct (decide (worker_ID w = id)) as [<-|Hne].
      * eapply H2; [apply lookup_insert_eq|done].
      * eapply H2; [by rewrite lookup_insert_ne|done].
    + intros w [Heq|Hin]%elem_of_cons; [|by apply H3].
      subst r. cbn in H2. eapply H2; [apply lookup_insert_eq|done].
    + rewrite H4. destruct r as [w|err]; cbn; [done|]. by rewrite <- app_assoc.
Qed.

End OSControllerFacts.

(** X6.  The sensor controller built by [newOSController] manages every
    worker whose constructor succeeded, under that worker's ID and not yet
    started; it manages nothing else; and a constructor that fails costs
    one warning and no other worker. *)
Theorem newOSController_manages_built_workers (p : osController.platform)
    (mqttDevice : bool) (ch : nat) :
  let c := (osController.newOSController p mqttDevice ch).1.1 in
  let log := (osController.newOSController p mqttDevice ch).1.2 in
  (forall id sw,
     deviceController.sensorWorkers c !! id = Some sw ->
     deviceController.started sw = false
     /\ deviceController.worker_ID (deviceController.object sw) = id
     /\ inl (deviceController.object sw) ∈ osController.workers p)
  /\ (forall w,
        inl w ∈ osController.workers p ->
        exists sw,
          deviceController.sensorWorkers c !! deviceController.worker_ID w = Some sw
          /\ deviceController.started sw = false)
  /\ log = omap (fun r => match r with
                          | inr err =>
                              Some (agent.Warn "Could not start a sensor worker." err)
                          | inl _ => None
                          end) (osController.workers p).
Proof.
  intros c log.
  assert (Hc : c = (osController.sensorController p).1)
    by (subst c; unfold osController.newOSController; by destruct mqttDevice).
  assert (Hl : log = (osController.sensorController p).2)
    by (subst log; unfold osController.newOSController; by destruct mqttDevice).
  rewrite Hc, Hl. unfold osController.sensorController. cbn.
  destruct (add_worker_fold (osController.workers p) ∅ []) as (H1 & _ & H3 & H4).
  split; [|split; [done|done]].
  intros id sw Hsw. destruct (H1 id sw Hsw) as [Hm|H]; [|done].
  by rewrite lookup_empty in Hm.
Qed.

Lemma newOSController_manages_built_workers_witness :
  exists sw,
    deviceController.sensorWorkers
      (osController.newOSController examplePlatform true 7).1.1 !! "battery" = Some sw
    /\ deviceController.started sw = false.
Proof.
  destruct (newOSController_manages_built_workers examplePlatform true 7)
    as (_ & H & _).
  apply (H batteryWorker). vm_compute. right. left.
Defined.

(** X7.  In the MQTT controller built by [newOSController] the volume
    number and the mute switch come together or not at all, there are no
    binary sensors, and what [Configs] and [Subscriptions] return has one
    slot per entity of the constructors that succeeded: a constructor that
    fails removes its own entities and nothing else. *)
Theorem newOSController_mqtt_assembly (p : osController.platform) (ch : nat) :
  let c := osController.mqttController p ch in
  let w := agent.worker c in
  let volume := match osController.volumeControl p with
                | (Some _, Some _) => 1%nat
                | _ => 0%nat
                end in
  let mpris := match osController.mprisControl p with inl _ => 1%nat | inr _ => 0%nat end in
  let camera := match osController.cameraControl p with Some _ => 1%nat | None => 0%nat end in
  let dbus := match osController.dbusCommand p with (_, None) => 1%nat | _ => 0%nat end in
  let power := length (osController.built (osController.powerControl p)) in
  let screen := length (osController.built (osController.screenLockControl p)) in
  agent.Msgs c = ch
  /\ length (agent.numbers w) = volume /\ length (agent.switches w) = volume
  /\ agent.binarySensors w = []
  /\ length (agent.Configs c).1 = (power + screen + 2 * volume + mpris + 4 * camera)%nat
  /\ length (agent.Subscriptions c).1
     = (power + screen + 2 * camera + 2 * volume + dbus)%nat.
Proof.
  intros c w volume mpris camera dbus power screen.
  destruct (slices_length_aux c) as [HC HS]. fold w in HC, HS.
  rewrite HC, HS. subst c w volume mpris camera dbus power screen.
  destruct p as [ws [pw|pe] [sl|se] [[v|] [m|]] [mp|me] [cam|] [sub [de|]]];
    cbn; rewrite ?length_app; cbn; repeat split; lia.
Qed.

(** ** The run loop's helpers *)
Section AgentRunFacts.

Import agentRun.

Context {SC MC : Type}.

Lemma sort_fold (cs : list (anyController SC MC)) (acc : list SC * list MC) :
  fold_left sort_step cs acc
  = (acc.1 ++ omap asSensorController cs,
     acc.2 ++ omap (fun c => match asSensorController c with
                             | Some _ => None
                             | None => asMQTTController c
                             end) cs).
Proof.
  revert acc. induction cs as [|c cs IH]; intros [ss ms]; cbn.
  - by rewrite !app_nil_r.
  - rewrite IH. unfold sort_step. cbn.
    destruct (asSensorController c) as [s|]; cbn; [by rewrite <- app_assoc|].
    destruct (asMQTTController c) as [m|]; cbn; [by rewrite <- app_assoc|done].
Qed.

End AgentRunFacts.

(** X8.  [Agent.Run] sorts the controllers with a type switch whose first
    case is [SensorController]: every controller that implements it is run
    as a sensor controller, in order, and a controller is run as an MQTT
    controller only if it does not.  A controller implementing both
    interfaces therefore never has its MQTT side run, and the MQTT workers
    are started exactly when some controller implements
    [MQTTController] alone. *)
Theorem Run_sorts_by_first_match {SC MC : Type}
    (cs : list (agentRun.anyController SC MC)) :
  (agentRun.sort_controllers cs).1 = omap agentRun.asSensorController cs
  /\ (agentRun.sort_controllers cs).2
     = omap (fun c => match agentRun.asSensorController c with
                      | Some _ => None
                      | None => agentRun.asMQTTController c
                      end) cs
  /\ (agentRun.runs_mqtt cs = true <->
      exists c m, c ∈ cs /\ agentRun.asSensorController c = None
                  /\ agentRun.asMQTTController c = Some m).
Proof.
  unfold agentRun.runs_mqtt, agentRun.sort_controllers.
  rewrite sort_fold. cbn. split; [done|]. split; [done|].
  induction cs as [|c cs IH]; cbn.
  - split; [done|]. by intros (c & m & ?%elem_of_nil & _).
  - destruct (agentRun.asSensorController c) as [s|] eqn:Hs; cbn.
    + rewrite IH. split.
      * intros (c' & m & Hin & H1 & H2). exists c', m. split; [by right|done].
      * intros (c' & m & [->|Hin]%elem_of_cons & H1 & H2); [congruence|].
        by exists c', m.
    + destruct (agentRun.asMQTTController c) as [m|] eqn:Hm; cbn.
      * split; [|done]. intros _. exists c, m. split; [by left|done].
      * rewrite IH. split.
        -- intros (c' & m & Hin & H1 & H2). exists c', m. split; [by right|done].
        -- intros (c' & m & [->|Hin]%elem_of_cons & H1 & H2); [congruence|].
           by exists c', m.
Qed.

Section WorkerRunFacts.

Import agentRun.

Lemma start_fold (cs : list startable) (st : list (option nat) * list logged) :
  fold_left start_step cs st
  = (st.1 ++ map (fun c => (StartAll c).1) cs,
     st.2 ++ omap (fun c => match (StartAll c).2 with
                            | Some e => Some (LevelWarn, "Starting controller had problems.", e)
                            | None => None
                            end) cs).
Proof.
  revert st. induction cs as [|c cs IH]; intros [chs log]; cbn.
  - by rewrite !app_nil_r.
  - rewrite IH. unfold start_step. cbn.
    destruct (StartAll c) as [ch [e|]]; cbn; by rewrite <- ?app_assoc.
Qed.

Lemma stop_fold (cs : list startable) (st : list string * list logged) :
  fold_left stop_step cs st
  = (st.1 ++ map name cs,
     st.2 ++ omap (fun c => match StopAll c with
                            | Some e =>
                                Some (LevelDebug,
                                      "Error occurred trying to stop sensor workers.", e)
                            | None => None
                            end) cs).
Proof.
  revert st. induction cs as [|c cs IH]; intros [ns log]; cbn.
  - by rewrite !app_nil_r.
  - rewrite IH. unfold stop_step. cbn.
    destruct (StopAll c) as [e|]; cbn; by rewrite <- ?app_assoc.
Qed.

Lemma filter_keeps_all {A : Type} (P : A -> Prop) `{!forall x, Decision (P x)}
    (l : list A) :
  (forall x, x ∈ l -> P x) -> filter P l = l.
Proof.
  induction l as [|x l IH]; intros HP; [done|].
  rewrite filter_cons, decide_True by (apply HP; by left).
  rewrite IH; [done|]. intros y Hy. apply HP. by right.
Qed.

Lemma filter_drops_all {A : Type} (P : A -> Prop) `{!forall x, Decision (P x)}
    (l : list A) :
  (forall x, x ∈ l -> ~ P x) -> filter P l = [].
Proof.
  induction l as [|x l IH]; intros HP; [done|].
  rewrite filter_cons, decide_False by (apply HP; by left).
  apply IH. intros y Hy. apply HP. by right.
Qed.

End WorkerRunFacts.

(** X9.  [runWorkers] hands [trk.Process] one channel per controller, in
    order, also for a controller whose [StartAll] reported an error, and on
    cancellation calls [StopAll] on every controller, also after one of
    them failed to stop.  Whatever [Process] does meanwhile, the warnings
    and debug lines of the log are one warning per controller that failed
    to start, then one debug line per controller that failed to stop, each
    with that controller's error; the warnings come before every other
    line; and the log holds an error line exactly when [Process] returned
    an error, once and with that error. *)
Theorem runWorkers_covers_every_controller (controllers : list agentRun.startable)
    (process : option agentRun.processRun) :
  let run := agentRun.runWorkers controllers process in
  let warnings :=
    omap (fun c => match (agentRun.StartAll c).2 with
                   | Some e =>
                       Some (agentRun.LevelWarn, "Starting controller had problems.", e)
                   | None => None
                   end) controllers in
  let debug_lines :=
    omap (fun c => match agentRun.StopAll c with
                   | Some e =>
                       Some (agentRun.LevelDebug,
                             "Error occurred trying to stop sensor workers.", e)
                   | None => None
                   end) controllers in
  agentRun.processed run = map (fun c => (agentRun.StartAll c).1) controllers
  /\ agentRun.stopped run = map agentRun.name controllers
  /\ filter (fun l => l.1.1 <> agentRun.LevelError) (agentRun.run_log run)
     = warnings ++ debug_lines
  /\ (exists others, agentRun.run_log run = warnings ++ others)
  /\ filter (fun l => l.1.1 = agentRun.LevelError) (agentRun.run_log run)
     = match process with
       | Some p =>
           match agentRun.result p with
           | Some e => [(agentRun.LevelError, "Could not process sensor updates", e)]
           | None => []
           end
       | None => []
       end.
Proof.
  intros run warnings debug_lines. subst run.
  unfold agentRun.runWorkers.
  rewrite start_fold, stop_fold. cbn [fst snd agentRun.processed agentRun.stopped
                                      agentRun.run_log app].
  fold warnings. fold debug_lines.
  set (k := match process with Some p => agentRun.after p | None => 0%nat end).
  assert (Hwarn : forall l, l ∈ warnings -> l.1.1 = agentRun.LevelWarn).
  { intros l Hl. unfold warnings in Hl. apply list_elem_of_omap in Hl as (c & _ & Hc).
    destruct (agentRun.StartAll c).2; by inversion Hc. }
  assert (Hdebug : forall l, l ∈ debug_lines -> l.1.1 = agentRun.LevelDebug).
  { intros l Hl. unfold debug_lines in Hl. apply list_elem_of_omap in Hl as (c & _ & Hc).
    destruct (agentRun.StopAll c); by inversion Hc. }
  assert (Hline : forall l, l ∈ agentRun.process_line process ->
                            l.1.1 = agentRun.LevelError).
  { intros l Hl. unfold agentRun.process_line in Hl.
    destruct process as [[n [e|]]|]; try by apply elem_of_nil in Hl.
    apply list_elem_of_singleton in Hl. by subst l. }
  assert (Htake : forall l, l ∈ take k debug_lines -> l.1.1 = agentRun.LevelDebug).
  { intros l Hl. apply Hdebug. by apply (subseteq_take k debug_lines). }
  assert (Hdrop : forall l, l ∈ drop k debug_lines -> l.1.1 = agentRun.LevelDebug).
  { intros l Hl. apply Hdebug. by apply (subseteq_drop k debug_lines). }
  split; [done|]. split; [done|]. split; [|split].
  - rewrite !filter_app.
    rewrite (filter_keeps_all _ warnings)
      by (intros l Hl; by rewrite (Hwarn l Hl)).
    rewrite (filter_keeps_all _ (take k debug_lines))
      by (intros l Hl; by rewrite (Htake l Hl)).
    rewrite (filter_drops_all _ (agentRun.process_line process))
      by (intros l Hl; rewrite (Hline l Hl); by intros []).
    rewrite (filter_keeps_all _ (drop k debug_lines))
      by (intros l Hl; by rewrite (Hdrop l Hl)).
    cbn. by rewrite take_drop.
  - by eexists.
  - rewrite !filter_app.
    rewrite (filter_drops_all _ warnings)
      by (intros l Hl; by rewrite (Hwarn l Hl)).
    rewrite (filter_drops_all _ (take k debug_lines))
      by (intros l Hl; by rewrite (Htake l Hl)).
    rewrite (filter_drops_all _ (drop k debug_lines))
      by (intros l Hl; by rewrite (Hdrop l Hl)).
    rewrite app_nil_r. cbn.
    rewrite (filter_keeps_all _ (agentRun.process_line process))
      by (intros l Hl; by apply Hline).
    unfold agentRun.process_line. by destruct process as [[n [e|]]|].
Qed.

Section ScriptFacts.

Import agentRun.

Variable AddJob : string -> script -> option error.

(** While every script with a schedule is accepted, the loop schedules
    exactly those. *)
Lemma schedule_scripts_accepted (scripts : list script)
    (st : list script * list nat * list string) :
  (forall x, x ∈ scripts -> Schedule x <> "" -> AddJob (Schedule x) x = None) ->
  (schedule_scripts AddJob scripts st).1
  = (st.1.1 ++ filter (fun x => Schedule x <> "") scripts,
     st.1.2 ++ map Output (filter (fun x => Schedule x <> "") scripts)).
Proof.
  revert st. induction scripts as [|s scripts IH]; intros [[js os] log] Hok.
  - cbn. by rewrite !app_nil_r.
  - cbn [schedule_scripts fst snd].
    rewrite filter_cons. destruct (String.eqb_spec (Schedule s) "") as [He|Hne].
    + rewrite decide_False by (by intros []).
      apply IH. intros x Hx. apply Hok. by right.
    + rewrite decide_True by done.
      rewrite Hok; [|by left|done].
      rewrite IH by (intros x Hx; apply Hok; by right).
      cbn. by rewrite <- !app_assoc.
Qed.

(** A script that is refused ends the loop: nothing after it is looked
    at. *)
Lemma schedule_scripts_refused (pre post : list script) (s : script)
    (st : list script * list nat * list string) :
  (forall x, x ∈ pre -> Schedule x <> "" -> AddJob (Schedule x) x = None) ->
  Schedule s <> "" -> AddJob (Schedule s) s <> None ->
  (schedule_scripts AddJob (pre ++ s :: post) st).1
  = (st.1.1 ++ filter (fun x => Schedule x <> "") pre,
     st.1.2 ++ map Output (filter (fun x => Schedule x <> "") pre)).
Proof.
  revert st. induction pre as [|p pre IH]; intros [[js os] log] Hok Hs Hbad.
  - cbn. apply String.eqb_neq in Hs. rewrite Hs.
    destruct (AddJob (Schedule s) s); [|done]. cbn. by rewrite !app_nil_r.
  - cbn [schedule_scripts fst snd app].
    rewrite filter_cons. destruct (String.eqb_spec (Schedule p) "") as [He|Hne].
    + rewrite decide_False by (by intros []).
      apply IH; [|done|done]. intros x Hx. apply Hok. by right.
    + rewrite decide_True by done.
      rewrite Hok; [|by left|done].
      rewrite IH; [|intros x Hx; apply Hok; by right|done|done].
      cbn. by rewrite <- !app_assoc.
Qed.

Lemma schedule_scripts_outputs (scripts : list script)
    (st : list script * list nat * list string) :
  st.1.2 = map Output st.1.1 ->
  (schedule_scripts AddJob scripts st).1.2
  = map Output (schedule_scripts AddJob scripts st).1.1.
Proof.
  revert st. induction scripts as [|s scripts IH]; intros [[js os] log] Hst; cbn.
  - done.
  - destruct (String.eqb (Schedule s) ""); [by apply IH|].
    destruct (AddJob (Schedule s) s); [done|].
    apply IH. cbn in *. by rewrite map_app, Hst.
Qed.

End ScriptFacts.

(** X10.  [runScripts] processes the output of exactly the scripts the
    scheduler accepted.  Scripts without a schedule are skipped.  The first
    script whose schedule the scheduler refuses ends the scheduling: the
    scripts before it stay scheduled, and no script after it is scheduled,
    whatever its schedule.  The scheduler is started whenever scripts were
    found, also when none was accepted. *)
Theorem runScripts_stops_at_first_refusal
    (AddJob : string -> agentRun.script -> option error)
    (allScripts : list agentRun.script) :
  let r := agentRun.runScripts AddJob (allScripts, None) in
  agentRun.outCh r = map agentRun.Output (agentRun.jobs r)
  /\ (agentRun.scheduler_started r = true <-> allScripts <> [])
  /\ ((forall x, x ∈ allScripts -> agentRun.Schedule x <> "" ->
                 AddJob (agentRun.Schedule x) x = None) ->
      agentRun.jobs r = filter (fun x => agentRun.Schedule x <> "") allScripts)
  /\ (forall pre s post,
        allScripts = pre ++ s :: post ->
        (forall x, x ∈ pre -> agentRun.Schedule x <> "" ->
                   AddJob (agentRun.Schedule x) x = None) ->
        agentRun.Schedule s <> "" -> AddJob (agentRun.Schedule s) s <> None ->
        agentRun.jobs r = filter (fun x => agentRun.Schedule x <> "") pre).
Proof.
  intros r. subst r. destruct allScripts as [|s0 rest].
  - cbn. split; [done|]. split; [done|]. split; [done|].
    intros pre s post H. by destruct pre.
  - unfold agentRun.runScripts.
    cbn [agentRun.outCh agentRun.jobs agentRun.scheduler_started].
    split; [by apply schedule_scripts_outputs|]. split; [done|]. split.
    + intros Hok. by rewrite schedule_scripts_accepted.
    + intros pre s post -> Hok Hs Hbad. by rewrite schedule_scripts_refused.
Qed.

Lemma runScripts_stops_at_first_refusal_witness :
  agentRun.jobs (agentRun.runScripts refuseHourly (exampleScripts, None))
  = [agentRun.mkScript "@every 5m" "/scripts/a.sh" 1].
Proof.
  destruct (runScripts_stops_at_first_refusal refuseHourly exampleScripts)
    as (_ & _ & _ & H).
  apply (H [agentRun.mkScript "@every 5m" "/scripts/a.sh" 1;
            agentRun.mkScript "" "/scripts/b.sh" 2]
           (agentRun.mkScript "@hourly" "/scripts/c.sh" 3)
           [agentRun.mkScript "@every 1m" "/scripts/d.sh" 4]).
  - reflexivity.
  - intros x Hx Hs.
    repeat (apply elem_of_cons in Hx as [->|Hx]; [try reflexivity; by destruct Hs|]).
    by apply elem_of_nil in Hx.
  - discriminate.
  - discriminate.
Defined.

(** [Agent.Stop] closes the [done] channel whether or not the
    preferences could be saved, and it does so unguarded: on an agent whose
    [done] channel is still open it closes it without a panic, on one whose
    channel is already closed it panics; so a second [Stop] always
    panics. *)
Theorem Stop_closes_done (Save : preferences.Preferences -> option error)
    (a : agentRun.Agent) (p q : preferences.Preferences) :
  let a' := (agentRun.Stop Save a p).1 in
  agentRun.done_closed a' = true
  /\ (agentRun.done_closed a = false ->
      agentRun.done_panicked a' = agentRun.done_panicked a)
  /\ (agentRun.done_closed a = true -> agentRun.done_panicked a' = true)
  /\ agentRun.done_panicked (agentRun.Stop Save a' q).1 = true
  /\ length (agentRun.Stop Save a p).2
     = match Save p with Some _ => 1%nat | None => 0%nat end.
Proof.
  cbn. split; [done|]. split; [by intros ->; rewrite orb_false_r|].
  split; [by intros ->; rewrite orb_true_r|]. split; [by rewrite orb_true_r|].
  by destruct (Save p).
Qed.

(** [SaveMQTTPreferences] fails with [ErrInvalidPrefernces], and
    changes nothing, exactly on an agent without preferences.  Otherwise
    the new MQTT preferences replace the old ones in memory and nothing
    else changes, also when saving fails; the returned error is then the
    save error, wrapped. *)
Theorem SaveMQTTPreferences_sets_before_saving
    (Save : preferences.Preferences -> option error)
    (a : agentRun.Agent) (m : option preferences.MQTT) :
  (agentRun.prefs a = None ->
   agentRun.SaveMQTTPreferences Save a m = (a, Some agentRun.ErrInvalidPrefernces))
  /\ (forall p,
        agentRun.prefs a = Some p ->
        exists p',
          agentRun.prefs (agentRun.SaveMQTTPreferences Save a m).1 = Some p'
          /\ preferences.MQTT_ p' = m
          /\ preferences.Registered p' = preferences.Registered p
          /\ preferences.Registration_ p' = preferences.Registration_ p
          /\ preferences.Hass_ p' = preferences.Hass_ p
          /\ (agentRun.SaveMQTTPreferences Save a m).2
             = match Save p' with
               | Some err => Some (Wrapped "failed to save mqtt preferences" err)
               | None => None
               end
          /\ (agentRun.SaveMQTTPreferences Save a m).2
             <> Some agentRun.ErrInvalidPrefernces).
Proof.
  unfold agentRun.SaveMQTTPreferences. split.
  - by intros ->.
  - intros p ->. eexists. split.
    + by destruct (Save _).
    + repeat split; try by destruct (Save _).
Qed.

(** ** Registration *)

Section RegistrationFacts.

Context `{url.Package}.

Lemma generateAPIURL_error_inv (WebHookPath server : string) (p : preferences.Hass)
    (e : error) :
  (registration.generateAPIURL WebHookPath server p).2 = Some e ->
  exists e', url.Parse server = inr e'.
Proof.
  unfold registration.generateAPIURL.
  destruct (negb (String.eqb (preferences.CloudhookURL p) "")
            && negb (preferences.IgnoreHassURLs p)); [done|].
  destruct (negb (String.eqb (preferences.RemoteUIURL p) "")
            && negb (String.eqb (preferences.WebhookID p) "")
            && negb (preferences.IgnoreHassURLs p)); [done|].
  destruct (url.Parse server) as [u|e']; [done|]. by exists e'.
Qed.

(** [generateAPIURL] reads four fields of the preferences. *)
Lemma generateAPIURL_reads (WebHookPath server : string) (p p' : preferences.Hass) :
  preferences.CloudhookURL p = preferences.CloudhookURL p' ->
  preferences.RemoteUIURL p = preferences.RemoteUIURL p' ->
  preferences.WebhookID p = preferences.WebhookID p' ->
  preferences.IgnoreHassURLs p = preferences.IgnoreHassURLs p' ->
  registration.generateAPIURL WebHookPath server p
  = registration.generateAPIURL WebHookPath server p'.
Proof. unfold registration.generateAPIURL. by intros -> -> -> ->. Qed.

Lemma generateWebsocketURL_error_iff (WebsocketPath server : string) :
  (agent.generateWebsocketURL WebsocketPath server).2 = None
  <-> exists u, url.Parse server = inl u.
Proof.
  unfold agent.generateWebsocketURL.
  destruct (url.Parse server) as [u|e]; cbn.
  - split; [by exists u|done].
  - split; [done|by intros [u ?]].
Qed.

End RegistrationFacts.

(** X11.  The registration code's [generateAPIURL] uses the cloudhook URL
    whenever there is one and Home Assistant's URLs are not ignored,
    without looking at the server.  With [IgnoreHassURLs] set, the result
    depends on the server and the webhook ID only.  It reports an error
    only when the server it has to fall back to does not parse. *)
Theorem generateAPIURL_sources `{url.Package} (WebHookPath server : string)
    (p p' : preferences.Hass) :
  (preferences.IgnoreHassURLs p = false ->
   preferences.CloudhookURL p <> "" ->
   registration.generateAPIURL WebHookPath server p = (preferences.CloudhookURL p, None))
  /\ (preferences.IgnoreHassURLs p = true ->
      preferences.IgnoreHassURLs p' = true ->
      preferences.WebhookID p = preferences.WebhookID p' ->
      registration.generateAPIURL WebHookPath server p
      = registration.generateAPIURL WebHookPath server p')
  /\ (forall e,
        (registration.generateAPIURL WebHookPath server p).2 = Some e ->
        exists e', url.Parse server = inr e'
                   /\ e = Wrapped "unable to generate API URL" e'
                   /\ (registration.generateAPIURL WebHookPath server p).1 = "")
  /\ ((exists u, url.Parse server = inl u) ->
      (registration.generateAPIURL WebHookPath server p).2 = None).
Proof.
  unfold registration.generateAPIURL. split; [|split; [|split]].
  - intros -> Hc. apply String.eqb_neq in Hc. by rewrite Hc.
  - intros -> -> ->. by rewrite !andb_false_r.
  - intros e.
    destruct (negb (String.eqb (preferences.CloudhookURL p) "")
              && negb (preferences.IgnoreHassURLs p)); [done|].
    destruct (negb (String.eqb (preferences.RemoteUIURL p) "")
              && negb (String.eqb (preferences.WebhookID p) "")
              && negb (preferences.IgnoreHassURLs p)); [done|].
    destruct (url.Parse server) as [u|e']; [done|].
    cbn. intros [= <-]. by exists e'.
  - intros [u ->].
    destruct (negb (String.eqb (preferences.CloudhookURL p) "")
              && negb (preferences.IgnoreHassURLs p)); [done|].
    by destruct (negb (String.eqb (preferences.RemoteUIURL p) "")
                 && negb (String.eqb (preferences.WebhookID p) "")
                 && negb (preferences.IgnoreHassURLs p)).
Qed.

Lemma generateAPIURL_sources_witness :
  registration.generateAPIURL "/api/webhook/" ":bad" nabuCasaPrefs
    = ("https://hooks.nabu.casa/abc", None)
  /\ registration.generateAPIURL "/api/webhook/" "http://hass.local:8123"
       (ignoring nabuCasaPrefs)
     = ("http://hass.local:8123/api/webhook/id42", None)
  /\ (registration.generateAPIURL "/api/webhook/" ":bad" (ignoring nabuCasaPrefs)).2
     = Some (Wrapped "unable to generate API URL" ErrURLParse).
Proof.
  destruct (generateAPIURL_sources (H := gourl.package) "/api/webhook/" ":bad"
              nabuCasaPrefs nabuCasaPrefs) as (H1 & _ & _ & _).
  destruct (generateAPIURL_sources (H := gourl.package) "/api/webhook/"
              "http://hass.local:8123" (ignoring nabuCasaPrefs)
              (preferences.mkHass "" "" "id42" true "" "")) as (_ & H2 & _ & _).
  destruct (generateAPIURL_sources (H := gourl.package) "/api/webhook/" ":bad"
              (ignoring nabuCasaPrefs) nabuCasaPrefs) as (_ & _ & H3 & _).
  split; [|split].
  - apply H1; [reflexivity|discriminate].
  - rewrite H2 by reflexivity. reflexivity.
  - destruct (H3 (Wrapped "unable to generate API URL" ErrURLParse) eq_refl)
      as (e' & _ & _ & _). reflexivity.
Defined.

(** X12.  [saveRegistration] succeeds exactly when the server parses as a
    URL and the preferences can be saved; the cloudhook and remote UI URLs
    cannot make up for a server that does not parse, because the websocket
    URL always comes from the server.  On success the agent is marked
    registered and holds the two generated URLs and the given ignore flag;
    when the server does not parse, the registered mark is left as it was.
    The registration details and the MQTT preferences are never touched. *)
Theorem saveRegistration_outcome `{url.Package} (WebHookPath WebsocketPath : string)
    (Save : preferences.Preferences -> option error)
    (prefs : preferences.Preferences) (hassPrefs : preferences.Hass) (ignoreURLs : bool) :
  let server := preferences.Server (preferences.Registration_ prefs) in
  let r := registration.saveRegistration WebHookPath WebsocketPath Save
             prefs hassPrefs ignoreURLs in
  (r.2 = None <-> (exists u, url.Parse server = inl u) /\ Save r.1 = None)
  /\ (r.2 = None ->
      preferences.Registered r.1 = true
      /\ exists h,
           preferences.Hass_ r.1 = Some h
           /\ preferences.IgnoreHassURLs h = ignoreURLs
           /\ preferences.WebhookID h = preferences.WebhookID hassPrefs
           /\ preferences.RestAPIURL h
              = (registration.generateAPIURL WebHookPath server h).1
           /\ preferences.WebsocketURL h
              = (agent.generateWebsocketURL WebsocketPath server).1)
  /\ ((forall u, url.Parse server <> inl u) ->
      r.2 <> None /\ preferences.Registered r.1 = preferences.Registered prefs)
  /\ preferences.Registration_ r.1 = preferences.Registration_ prefs
  /\ preferences.MQTT_ r.1 = preferences.MQTT_ prefs.
Proof.
  intros server r. subst r. unfold registration.saveRegistration. fold server.
  set (h0 := {| preferences.CloudhookURL := preferences.CloudhookURL hassPrefs;
                preferences.RemoteUIURL := preferences.RemoteUIURL hassPrefs;
                preferences.WebhookID := preferences.WebhookID hassPrefs;
                preferences.IgnoreHassURLs := ignoreURLs;
                preferences.RestAPIURL := preferences.RestAPIURL hassPrefs;
                preferences.WebsocketURL := preferences.WebsocketURL hassPrefs |}).
  pose proof (generateAPIURL_error_inv WebHookPath server h0) as HAerr.
  pose proof (generateWebsocketURL_error_iff WebsocketPath server) as HWerr.
  destruct (registration.generateAPIURL WebHookPath server h0) as [api [ea|]] eqn:HA.
  - destruct (HAerr ea eq_refl) as [e' HP]. cbn.
    split; [split; [done|]; intros [[u Hu] _]; congruence|].
    split; [done|]. split; [done|done].
  - destruct (agent.generateWebsocketURL WebsocketPath server) as [ws [ew|]] eqn:HW.
    + cbn. assert (Hno : forall u, url.Parse server <> inl u).
      { intros u Hu. destruct HWerr as [_ HWerr]. cbn in HWerr.
        specialize (HWerr (ex_intro _ u Hu)). discriminate. }
      split; [split; [done|]; intros [[u Hu] _]; by destruct (Hno u)|].
      split; [done|]. split; [done|done].
    + assert (Hyes : exists u, url.Parse server = inl u) by (by apply HWerr).
      cbn.
      match goal with |- context [Save ?q] => set (prefs' := q) end.
      assert (Hfields :
        preferences.Registered prefs' = true
        /\ exists h,
             preferences.Hass_ prefs' = Some h
             /\ preferences.IgnoreHassURLs h = ignoreURLs
             /\ preferences.WebhookID h = preferences.WebhookID hassPrefs
             /\ preferences.RestAPIURL h
                = (registration.generateAPIURL WebHookPath server h).1
             /\ preferences.WebsocketURL h = ws).
      { split; [done|]. eexists. split; [reflexivity|]. cbn.
        split; [done|]. split; [done|]. split; [|done].
        rewrite (generateAPIURL_reads WebHookPath server _ h0) by done.
        by rewrite HA. }
      destruct (Save prefs') as [se|] eqn:HS; cbn.
      * split; [split; [done|]; intros [_ ?]; congruence|].
        split; [done|]. split; [|done].
        intros Hn. destruct Hyes as [u Hu]. by destruct (Hn u).
      * split; [done|]. split; [done|]. split; [|done].
        intros Hn. destruct Hyes as [u Hu]. by destruct (Hn u).
Qed.

Lemma saveRegistration_outcome_witness :
  let r := registration.saveRegistration "/api/webhook/" "/api/websocket"
             (fun _ => None) unregisteredPrefs nabuCasaPrefs false in
  r.2 = None
  /\ preferences.Registered r.1 = true
  /\ (registration.saveRegistration "/api/webhook/" "/api/websocket" (fun _ => None)
        unparseablePrefs nabuCasaPrefs false).2 <> None.
Proof.
  intros r.
  destruct (saveRegistration_outcome (H := gourl.package) "/api/webhook/" "/api/websocket"
              (fun _ => None) unregisteredPrefs nabuCasaPrefs false)
    as (Hiff & Hok & _).
  destruct (saveRegistration_outcome (H := gourl.package) "/api/webhook/" "/api/websocket"
              (fun _ => None) unparseablePrefs nabuCasaPrefs false)
    as (_ & _ & Hbad & _).
  assert (Hr : r.2 = None).
  { apply Hiff. split; [|reflexivity]. eexists. reflexivity. }
  split; [exact Hr|]. split; [by apply Hok|].
  apply Hbad. intros u. discriminate.
Defined.

(** ** The agent's configuration helpers *)

(** X13.  [agentConfig.Get] after [Set] returns the value that was set,
    except for the value [NOTSET], which [Get] cannot tell from a key that
    was never set and reports as an error.  A key that was never set is an
    error, and [Set] on one key does not change what [Get] returns for
    another. *)
Theorem agentConfig_Set_Get (c : agentConfig.agentConfig) (key key' value : string) :
  (value <> "NOTSET" ->
   agentConfig.Get (agentConfig.Set_ c key value).1 key = (value, None))
  /\ agentConfig.Get (agentConfig.Set_ c key "NOTSET").1 key
     = ("", Some agentConfig.ErrKeyNotSet)
  /\ (agentConfig.prefs c !! key = None ->
      agentConfig.Get c key = ("", Some agentConfig.ErrKeyNotSet))
  /\ (key <> key' ->
      agentConfig.Get (agentConfig.Set_ c key value).1 key' = agentConfig.Get c key')
  /\ (agentConfig.Set_ c key value).2 = None.
Proof.
  unfold agentConfig.Get, agentConfig.Set_, agentConfig.prefs_StringWithFallback,
    agentConfig.prefs_SetString. cbn.
  split; [|split; [|split; [|split]]].
  - intros Hv. rewrite lookup_insert_eq. cbn.
    apply String.eqb_neq in Hv. by rewrite Hv.
  - by rewrite lookup_insert_eq.
  - by intros ->.
  - intros Hne. by rewrite lookup_insert_ne.
  - done.
Qed.

Lemma agentConfig_Set_Get_witness :
  agentConfig.Get
    (agentConfig.Set_ (agentConfig.mkConfig ∅) agentConfig.PrefToken "abc").1
    agentConfig.PrefToken = ("abc", None)
  /\ agentConfig.Get (agentConfig.mkConfig ∅) agentConfig.PrefToken
     = ("", Some agentConfig.ErrKeyNotSet).
Proof.
  destruct (agentConfig_Set_Get (agentConfig.mkConfig ∅) agentConfig.PrefToken
              agentConfig.PrefWebhookID "abc") as (H1 & _ & H3 & _).
  split; [apply H1; discriminate|apply H3; reflexivity].
Defined.

(** X14.  [agentConfig.generateWebsocketURL] stores, for every host that
    parses and whose scheme is not [wss], the URL the registration helper
    returns for that host; a [wss] host is stored with the scheme [ws],
    where the registration helper keeps [wss]; a host that does not parse
    makes it panic, where the registration helper returns an error.  It
    writes the key [WebSocketURL] and no other. *)
Theorem agentConfig_generateWebsocketURL_vs_registration `{url.Package}
    (c : agentConfig.agentConfig) :
  let host := agentConfig.prefs_String c "Host" in
  (forall e, url.Parse host = inr e ->
     agentConfig.generateWebsocketURL c = None
     /\ (agent.generateWebsocketURL agentConfig.websocketPath host).2 <> None)
  /\ (forall u, url.Parse host = inl u ->
        exists c',
          agentConfig.generateWebsocketURL c = Some c'
          /\ (forall key, key <> agentConfig.PrefWebsocketURL ->
                agentConfig.prefs c' !! key = agentConfig.prefs c !! key)
          /\ (url.Scheme u <> "wss" ->
              agentConfig.WebSocketURL c'
              = (agent.generateWebsocketURL agentConfig.websocketPath host).1)
          /\ (url.Scheme u = "wss" ->
              agentConfig.WebSocketURL c'
              = url.String_ (url.JoinPath (url.with_Scheme "ws" u)
                               [agentConfig.websocketPath])
              /\ (agent.generateWebsocketURL agentConfig.websocketPath host).1
                 = url.String_ (url.JoinPath u [agentConfig.websocketPath]))).
Proof.
  intros host. unfold agentConfig.generateWebsocketURL, agent.generateWebsocketURL.
  fold host. split.
  - by intros e ->.
  - intros u ->. eexists. split; [reflexivity|]. split; [|split].
    + intros key Hk. cbn. by rewrite lookup_insert_ne.
    + intros Hs. unfold agentConfig.WebSocketURL, agentConfig.prefs_String. cbn.
      rewrite lookup_insert_eq. cbn.
      apply String.eqb_neq in Hs. rewrite Hs.
      destruct (String.eqb (url.Scheme u) "https"); [done|].
      by destruct (String.eqb (url.Scheme u) "http").
    + intros Hs. unfold agentConfig.WebSocketURL, agentConfig.prefs_String. cbn.
      rewrite lookup_insert_eq. by rewrite Hs.
Qed.

Lemma agentConfig_generateWebsocketURL_vs_registration_witness :
  (exists c',
     agentConfig.generateWebsocketURL (hostConfig "https://hass.local:8123") = Some c'
     /\ agentConfig.WebSocketURL c' = "wss://hass.local:8123/api/websocket")
  /\ agentConfig.generateWebsocketURL (hostConfig ":bad") = None.
Proof.
  destruct (agentConfig_generateWebsocketURL_vs_registration (H := gourl.package)
              (hostConfig "https://hass.local:8123")) as [_ Hok].
  destruct (agentConfig_generateWebsocketURL_vs_registration (H := gourl.package)
              (hostConfig ":bad")) as [Hbad _].
  split.
  - destruct (Hok (url.mkURL "https" "" "hass.local:8123" "" "" "") eq_refl)
      as (c' & Hc & _ & Hsame & _).
    exists c'. split; [exact Hc|]. rewrite Hsame by discriminate. reflexivity.
  - apply (Hbad ErrURLParse). reflexivity.
Defined.

(** X15.  The config package's [generateAPIURL] and [agentConfig]'s compute
    the same API URL from the same four settings, and panic on the same
    inputs, except when the remote UI URL is used (no cloudhook URL, a
    remote UI URL and a webhook ID): there [agentConfig] concatenates the
    strings and the config package joins URL paths.  Both return the
    cloudhook URL whenever there is one, and the empty URL when there is
    neither a cloudhook URL nor a webhook ID. *)
Theorem generateAPIURL_config_vs_agentConfig `{url.Package} (c : agentConfig.agentConfig) :
  let host := agentConfig.prefs_String c "Host" in
  let cloudhookURL := agentConfig.prefs_String c "CloudhookURL" in
  let remoteUIURL := agentConfig.prefs_String c "RemoteUIURL" in
  let webhookID := agentConfig.prefs_String c agentConfig.PrefWebhookID in
  let stored := option_map agentConfig.ApiURL (agentConfig.generateAPIURL c) in
  let computed := configAPI.generateAPIURL host cloudhookURL remoteUIURL webhookID in
  (cloudhookURL <> "" \/ remoteUIURL = "" \/ webhookID = "" -> stored = computed)
  /\ (cloudhookURL <> "" -> stored = Some cloudhookURL)
  /\ (cloudhookURL = "" -> webhookID = "" -> stored = Some "")
  /\ (cloudhookURL = "" -> remoteUIURL <> "" -> webhookID <> "" ->
      stored = Some (remoteUIURL +:+ "/api/webhook/" +:+ webhookID)).
Proof.
  intros host cloudhookURL remoteUIURL webhookID stored computed.
  assert (Hst : stored
    = if negb (String.eqb cloudhookURL "") then Some cloudhookURL
      else if negb (String.eqb remoteUIURL "") && negb (String.eqb webhookID "")
      then Some (remoteUIURL +:+ agentConfig.webHookPath +:+ webhookID)
      else if negb (String.eqb webhookID "") && negb (String.eqb host "") then
        match url.Parse host with
        | inl u => Some (url.String_ (url.JoinPath u [agentConfig.webHookPath; webhookID]))
        | inr _ => None
        end
      else Some "").
  { subst stored. unfold agentConfig.generateAPIURL.
    fold host cloudhookURL remoteUIURL webhookID.
    assert (Hread : forall v, agentConfig.ApiURL (agentConfig.prefs_SetString c "ApiURL" v) = v).
    { intros v. unfold agentConfig.ApiURL, agentConfig.prefs_String. cbn.
      by rewrite lookup_insert_eq. }
    destruct (negb (String.eqb cloudhookURL "")); [cbn; by rewrite Hread|].
    destruct (negb (String.eqb remoteUIURL "") && negb (String.eqb webhookID ""));
      [cbn; by rewrite Hread|].
    destruct (negb (String.eqb webhookID "") && negb (String.eqb host ""));
      [|cbn; by rewrite Hread].
    destruct (url.Parse host); cbn; [by rewrite Hread|done]. }
  rewrite Hst. subst computed. unfold configAPI.generateAPIURL.
  split; [|split; [|split]].
  - intros [Hc|[Hr|Hw]].
    + apply String.eqb_neq in Hc. by rewrite Hc.
    + rewrite Hr. cbn. done.
    + rewrite Hw. cbn. rewrite andb_false_r. done.
  - intros Hc. apply String.eqb_neq in Hc. by rewrite Hc.
  - intros -> ->. cbn. by rewrite andb_false_r.
  - intros -> Hr Hw. apply String.eqb_neq in Hr, Hw. cbn. by rewrite Hr, Hw.
Qed.

Lemma generateAPIURL_config_vs_agentConfig_witness :
  option_map agentConfig.ApiURL (agentConfig.generateAPIURL webhookConfig)
  = Some "http://hass.local:8123/api/webhook/id42"
  /\ configAPI.generateAPIURL "http://hass.local:8123" "" "" "id42"
     = Some "http://hass.local:8123/api/webhook/id42".
Proof.
  destruct (generateAPIURL_config_vs_agentConfig (H := gourl.package) webhookConfig)
    as (Hsame & _).
  cbv zeta in Hsame.
  assert (Hc : configAPI.generateAPIURL "http://hass.local:8123" "" "" "id42"
               = Some "http://hass.local:8123/api/webhook/id42") by reflexivity.
  split; [|exact Hc].
  rewrite Hsame by (right; left; reflexivity). exact Hc.
Defined.

(** ** Generated [String] methods *)
Section StringerFacts.

Import stringer.

Lemma string_length_app (a b : string) :
  String.length (a +:+ b) = (String.length a + String.length b)%nat.
Proof. induction a as [|c a IH]; [done|]. cbv [String.append] in *. cbn. by rewrite IH. Qed.

Lemma string_app_inv_tail (a b c : string) : a +:+ c = b +:+ c -> a = b.
Proof.
  revert b. induction a as [|x a IH]; intros [|y b] Heq.
  - done.
  - apply (f_equal String.length) in Heq.
    rewrite !string_length_app in Heq. cbn in Heq. lia.
  - apply (f_equal String.length) in Heq.
    rewrite !string_length_app in Heq. cbn in Heq. lia.
  - cbv [String.append] in Heq. injection Heq as -> Heq.
    f_equal. by apply IH.
Qed.

Lemma int64_inj_unsigned (a b : Z) :
  (0 <= a < 2 ^ 64)%Z -> (0 <= b < 2 ^ 64)%Z -> int64 a = int64 b -> a = b.
Proof.
  unfold int64.
  change (2 ^ 64)%Z with 18446744073709551616%Z.
  change (2 ^ 63)%Z with 9223372036854775808%Z.
  intros Ha Hb Heq. Z.div_mod_to_equations. lia.
Qed.

Lemma int64_signed (a : Z) : (- 2 ^ 63 <= a < 2 ^ 63)%Z -> int64 a = a.
Proof.
  unfold int64.
  change (2 ^ 64)%Z with 18446744073709551616%Z.
  change (2 ^ 63)%Z with 9223372036854775808%Z.
  intros Ha. Z.div_mod_to_equations. lia.
Qed.

Lemma int64_range (a : Z) : (- 2 ^ 63 <= int64 a < 2 ^ 63)%Z.
Proof.
  unfold int64.
  change (2 ^ 64)%Z with 18446744073709551616%Z.
  change (2 ^ 63)%Z with 9223372036854775808%Z.
  Z.div_mod_to_equations. lia.
Qed.

(** The rendering of a value outside the table, for a table with the
    prefix [p]: distinct values give distinct texts. *)
Lemma fallback_inj (p : string) (a b : Z) :
  p +:+ FormatInt a +:+ ")" = p +:+ FormatInt b +:+ ")" -> a = b.
Proof.
  intros Heq. apply (inj (String.app p)) in Heq.
  apply string_app_inv_tail in Heq. by apply (inj pretty) in Heq.
Qed.

Lemma connState_names_NoDup : NoDup connState_names.
Proof. apply (bool_decide_unpack _). vm_compute. reflexivity. Qed.

Lemma connIcon_names_NoDup : NoDup connIcon_names.
Proof. apply (bool_decide_unpack _). vm_compute. reflexivity. Qed.

Lemma batteryProp_names_NoDup : NoDup batteryProp_names.
Proof. apply (bool_decide_unpack _). vm_compute. reflexivity. Qed.

Lemma connState_table (i : N) :
  (i < 5)%N -> connState_String i = connState_names !! N.to_nat i.
Proof.
  intros Hi.
  assert (i = 0 \/ i = 1 \/ i = 2 \/ i = 3 \/ i = 4)%N as [->|[->|[->|[->| ->]]]] by lia;
    reflexivity.
Qed.

Lemma connIcon_table (i : N) :
  (i < 5)%N -> connIcon_String i = connIcon_names !! N.to_nat i.
Proof.
  intros Hi.
  assert (i = 0 \/ i = 1 \/ i = 2 \/ i = 3 \/ i = 4)%N as [->|[->|[->|[->| ->]]]] by lia;
    reflexivity.
Qed.

Lemma connState_fallback (i : N) :
  (5 <= i)%N ->
  connState_String i = Some ("connState(" +:+ FormatInt (int64 (Z.of_N i)) +:+ ")").
Proof.
  intros Hi. unfold connState_String.
  change (N.of_nat (length _connState_index - 1)) with 5%N.
  by rewrite (proj2 (N.leb_le 5 i) Hi).
Qed.

Lemma connIcon_fallback (i : N) :
  (5 <= i)%N ->
  connIcon_String i = Some ("connIcon(" +:+ FormatInt (int64 (Z.of_N i)) +:+ ")").
Proof.
  intros Hi. unfold connIcon_String.
  change (N.of_nat (length _connIcon_index - 1)) with 5%N.
  by rewrite (proj2 (N.leb_le 5 i) Hi).
Qed.

(** No name of a table starts like the rendering of a value outside it. *)
Lemma name_not_fallback (names : list string) (c : ascii) (p x s : string) :
  Forall (fun n => match n with String d _ => d <> c | EmptyString => True end) names ->
  s ∈ names -> s <> String c p +:+ x.
Proof.
  intros Hall Hin Heq. rewrite Forall_forall in Hall. specialize (Hall s Hin).
  subst s. cbv [String.append] in Hall. by destruct Hall.
Qed.

Lemma batteryProp_table (i : Z) :
  (4 <= i <= 11)%Z -> batteryProp_String i = batteryProp_names !! Z.to_nat (i - 4).
Proof.
  intros Hi.
  assert (i = 4 \/ i = 5 \/ i = 6 \/ i = 7 \/ i = 8 \/ i = 9 \/ i = 10 \/ i = 11)%Z
    as [->|[->|[->|[->|[->|[->|[->| ->]]]]]]] by lia; reflexivity.
Qed.

Lemma batteryProp_fallback (i : Z) :
  (- 2 ^ 63 <= i < 2 ^ 63)%Z -> (i < 4 \/ 11 < i)%Z ->
  batteryProp_String i = Some ("batteryProp(" +:+ FormatInt i +:+ ")").
Proof.
  intros Hr Hi. unfold batteryProp_String.
  change (Z.of_nat (length _batteryProp_index - 1)) with 8%Z.
  assert (Hback : int64 (int64 (int64 (i - 4) + 4)) = i).
  { rewrite (int64_signed (int64 _)) by apply int64_range.
    revert Hr. unfold int64.
    change (2 ^ 64)%Z with 18446744073709551616%Z.
    change (2 ^ 63)%Z with 9223372036854775808%Z.
    intros Hr. Z.div_mod_to_equations. lia. }
  assert (Hout : (int64 (i - 4) <? 0)%Z || (8 <=? int64 (i - 4))%Z = true).
  { apply orb_true_iff. rewrite Z.ltb_lt, Z.leb_le.
    revert Hr Hi. unfold int64.
    change (2 ^ 64)%Z with 18446744073709551616%Z.
    change (2 ^ 63)%Z with 9223372036854775808%Z.
    intros Hr Hi. Z.div_mod_to_equations. lia. }
  by rewrite Hout, Hback.
Qed.

End StringerFacts.

(** X16.  [connState.String] and [connIcon.String] never index out of
    range; on the five constants they give the five names (and the five
    icons, one per state); on every other value they give the type name
    with the number; and no two values of the type render to the same
    text. *)
Theorem connection_strings_total_and_distinct (i j : N) :
  (i < 2 ^ 64)%N -> (j < 2 ^ 64)%N ->
  (exists s, stringer.connState_String i = Some s)
  /\ (exists s, stringer.connIcon_String i = Some s)
  /\ ((i < 5)%N ->
      stringer.connState_String i = stringer.connState_names !! N.to_nat i
      /\ stringer.connIcon_String i = stringer.connIcon_names !! N.to_nat i)
  /\ (stringer.connState_String i = stringer.connState_String j -> i = j)
  /\ (stringer.connIcon_String i = stringer.connIcon_String j -> i = j).
Proof.
  intros Hi Hj.
  assert (Hlook : forall (names : list string) (k : N),
            length names = 5%nat -> (k < 5)%N -> exists s, names !! N.to_nat k = Some s).
  { intros names k Hlen Hk. apply lookup_lt_is_Some_2. lia. }
  assert (Hin : forall (k : N), (k < 2 ^ 64)%N -> (0 <= Z.of_N k < 2 ^ 64)%Z).
  { intros k Hk. split; [lia|].
    change (2 ^ 64)%Z with (Z.of_N (2 ^ 64)%N). lia. }
  assert (Hinj : forall (f : N -> option string) (names : list string) (c : ascii) (p : string),
            NoDup names -> length names = 5%nat ->
            Forall (fun n => match n with String d _ => d <> c | EmptyString => True end) names ->
            (forall k, (k < 5)%N -> f k = names !! N.to_nat k) ->
            (forall k, (5 <= k)%N ->
               f k = Some (String c p +:+ stringer.FormatInt (stringer.int64 (Z.of_N k)) +:+ ")")) ->
            f i = f j -> i = j).
  { intros f names c p Hnd Hlen Hhead Htab Hfall Heq.
    destruct (decide (i < 5)%N) as [Hi5|Hi5], (decide (j < 5)%N) as [Hj5|Hj5].
    - rewrite !Htab in Heq by done.
      destruct (Hlook names i Hlen Hi5) as [s Hs]. rewrite Hs in Heq.
      pose proof (NoDup_lookup _ _ _ _ Hnd Hs (eq_sym Heq)). lia.
    - rewrite Htab, Hfall in Heq by lia.
      destruct (name_not_fallback names c p
                  (stringer.FormatInt (stringer.int64 (Z.of_N j)) +:+ ")") _ Hhead
                  (list_elem_of_lookup_2 _ _ _ Heq)). done.
    - rewrite Hfall, Htab in Heq by lia. symmetry in Heq.
      destruct (name_not_fallback names c p
                  (stringer.FormatInt (stringer.int64 (Z.of_N i)) +:+ ")") _ Hhead
                  (list_elem_of_lookup_2 _ _ _ Heq)). done.
    - rewrite !Hfall in Heq by lia. injection Heq as Heq.
      apply fallback_inj, int64_inj_unsigned in Heq; [lia|by apply Hin..]. }
  split; [|split; [|split; [|split]]].
  - destruct (decide (i < 5)%N) as [Hi5|Hi5].
    + rewrite connState_table by done. by apply Hlook.
    + rewrite connState_fallback by lia. by eexists.
  - destruct (decide (i < 5)%N) as [Hi5|Hi5].
    + rewrite connIcon_table by done. by apply Hlook.
    + rewrite connIcon_fallback by lia. by eexists.
  - intros Hi5. split; [by apply connState_table|by apply connIcon_table].
  - apply (Hinj _ stringer.connState_names "c"%char "onnState(").
    + apply connState_names_NoDup.
    + reflexivity.
    + repeat constructor; discriminate.
    + apply connState_table.
    + apply connState_fallback.
  - apply (Hinj _ stringer.connIcon_names "c"%char "onnIcon(").
    + apply connIcon_names_NoDup.
    + reflexivity.
    + repeat constructor; discriminate.
    + apply connIcon_table.
    + apply connIcon_fallback.
Qed.

Lemma connection_strings_total_and_distinct_witness :
  stringer.connState_String 2 = Some "Online"
  /\ stringer.connIcon_String 2 = Some "mdi:network"
  /\ stringer.connState_String 9 = Some "connState(9)".
Proof.
  destruct (connection_strings_total_and_distinct 2 9) as (_ & _ & Htab & _);
    [reflexivity|reflexivity|].
  destruct Htab as [H1 H2]; [reflexivity|].
  rewrite H1, H2. repeat split.
Defined.

(** X17.  [batteryProp.String] never indexes out of range: on the eight
    constants 4 to 11 it gives the eight names, on every other value the
    type name with that value, also where [i -= 4] wraps around; and no
    two values render to the same text. *)
Theorem batteryProp_String_total_and_distinct (i j : Z) :
  (- 2 ^ 63 <= i < 2 ^ 63)%Z -> (- 2 ^ 63 <= j < 2 ^ 63)%Z ->
  ((4 <= i <= 11)%Z ->
   stringer.batteryProp_String i = stringer.batteryProp_names !! Z.to_nat (i - 4)
   /\ exists s, stringer.batteryProp_String i = Some s)
  /\ ((i < 4 \/ 11 < i)%Z ->
      stringer.batteryProp_String i
      = Some ("batteryProp(" +:+ stringer.FormatInt i +:+ ")"))
  /\ (stringer.batteryProp_String i = stringer.batteryProp_String j -> i = j).
Proof.
  intros Hi Hj.
  assert (Hlook : forall k, (4 <= k <= 11)%Z ->
            exists s, stringer.batteryProp_names !! Z.to_nat (k - 4) = Some s).
  { intros k Hk. apply lookup_lt_is_Some_2. cbn. lia. }
  assert (Hhead : Forall (fun n => match n with
                                   | String d _ => d <> "b"%char
                                   | EmptyString => True
                                   end) stringer.batteryProp_names)
    by (repeat constructor; discriminate).
  split; [|split].
  - intros Hin. rewrite batteryProp_table by done. split; [done|by apply Hlook].
  - by apply batteryProp_fallback.
  - intros Heq.
    destruct (decide (4 <= i <= 11)%Z) as [Hi5|Hi5],
             (decide (4 <= j <= 11)%Z) as [Hj5|Hj5].
    + rewrite !batteryProp_table in Heq by done.
      destruct (Hlook i Hi5) as [s Hs]. rewrite Hs in Heq.
      pose proof (NoDup_lookup _ _ _ _ batteryProp_names_NoDup Hs (eq_sym Heq)). lia.
    + rewrite batteryProp_table, batteryProp_fallback in Heq by (done || lia).
      destruct (name_not_fallback _ "b"%char "atteryProp("
                  (stringer.FormatInt j +:+ ")") _ Hhead
                  (list_elem_of_lookup_2 _ _ _ Heq)). done.
    + rewrite batteryProp_fallback, batteryProp_table in Heq by (done || lia).
      symmetry in Heq.
      destruct (name_not_fallback _ "b"%char "atteryProp("
                  (stringer.FormatInt i +:+ ")") _ Hhead
                  (list_elem_of_lookup_2 _ _ _ Heq)). done.
    + rewrite !batteryProp_fallback in Heq by (done || lia). injection Heq as Heq.
      by apply fallback_inj in Heq.
Qed.

Lemma batteryProp_String_total_and_distinct_witness :
  stringer.batteryProp_String 4 = Some "Percentage"
  /\ stringer.batteryProp_String (- 2 ^ 63) = Some "batteryProp(-9223372036854775808)".
Proof.
  destruct (batteryProp_String_total_and_distinct 4 (- 2 ^ 63)) as (H1 & _); [lia|lia|].
  destruct (batteryProp_String_total_and_distinct (- 2 ^ 63) 4) as (_ & H2 & _); [lia|lia|].
  destruct H1 as [H1 _]; [lia|]. rewrite H1, H2 by lia. split; reflexivity.
Defined.

(** ** The screen lock sensor and the system information worker *)

(** X18.  For every lock state, the event built by [newScreenlockEvent]
    and the older [screenlock] sensor agree on icon, state and sensor
    type; the icon's type assertion never fails on such an event.  The
    event is reported as binary by [screenlockSensor.SensorType] although
    its [isBinary] flag is unset, so the embedded [linuxSensor.SensorType]
    alone would report a plain sensor.  Its name and ID do not depend on
    the lock state, and its attributes name D-Bus as the data source. *)
Theorem screenlock_event_agrees_with_old (sensorType : Type) (screenLock : sensorType)
    (sensorType_String : sensorType -> string) (strcase_ToSnake : string -> string)
    (v v' : bool) :
  let e := screenlock.newScreenlockEvent sensorType screenLock v in
  let old := screenlock.mkScreenlock v in
  screenlock.screenlockSensor_Icon sensorType e = Some (screenlock.screenlock_Icon old)
  /\ linux.State e = screenlock.screenlock_State old
  /\ screenlock.screenlockSensor_SensorType sensorType e
     = screenlock.screenlock_SensorType old
  /\ screenlock.linuxSensor_SensorType sensorType e = screenlock.TypeSensor
  /\ screenlock.linuxSensor_Attributes sensorType e = Some "D-Bus"
  /\ linux.ID sensorType_String strcase_ToSnake e
     = linux.ID sensorType_String strcase_ToSnake
         (screenlock.newScreenlockEvent sensorType screenLock v')
  /\ linux.Category sensorType e = "".
Proof. intros e old. subst e old. destruct v; repeat split. Qed.

(** X19.  [infoWorker.Sensors] never returns an error.  The distribution
    name and version are reported together or, when the OS details cannot
    be read, not at all; the kernel version is reported whenever it can be
    read, whatever happened to the OS details.  Each failure is logged
    once, and a failure to read the OS details is logged with the message
    of the kernel version.  Every sensor is diagnostic, has the procfs data
    source, and no two sensors share a unique ID. *)
Theorem infoWorker_Sensors_degrade (DataSrcProcfs : string)
    (osDetails : string * string + error) (kernel : string + error) :
  let r := infoWorker.Sensors DataSrcProcfs osDetails kernel in
  let sensors := r.1.1 in
  r.1.2 = None
  /\ length sensors
     = ((match osDetails with inl _ => 2 | inr _ => 0 end)
        + (match kernel with inl _ => 1 | inr _ => 0 end))%nat
  /\ r.2
     = (match osDetails with
        | inl _ => []
        | inr err => [agent.Warn "Could not retrieve kernel version." err]
        end)
       ++ (match kernel with
           | inl _ => []
           | inr err => [agent.Warn "Could not retrieve kernel version." err]
           end)
  /\ (forall k, kernel = inl k ->
        exists s, s ∈ sensors /\ infoWorker.UniqueID s = "kernel_version"
                  /\ infoWorker.Value s = k)
  /\ (forall d ver, osDetails = inl (d, ver) ->
        (exists s, s ∈ sensors /\ infoWorker.UniqueID s = "distribution_name"
                   /\ infoWorker.Value s = d)
        /\ (exists s, s ∈ sensors /\ infoWorker.UniqueID s = "distribution_version"
                      /\ infoWorker.Value s = ver))
  /\ Forall (fun s => infoWorker.IsDiagnostic s = true
                      /\ infoWorker.DataSource s = DataSrcProcfs) sensors
  /\ NoDup (map infoWorker.UniqueID sensors).
Proof.
  intros r sensors. subst sensors r.
  assert (Hpick : forall (l : list infoWorker.Sensor) (i : nat) (s : infoWorker.Sensor)
                         (uid val : string),
            l !! i = Some s -> infoWorker.UniqueID s = uid -> infoWorker.Value s = val ->
            exists s', s' ∈ l /\ infoWorker.UniqueID s' = uid /\ infoWorker.Value s' = val).
  { intros l i s uid val Hl Hu Hv. exists s. split; [|done].
    by eapply list_elem_of_lookup_2. }
  destruct osDetails as [[d ver]|e1], kernel as [k|e2]; cbn;
    (split; [done|]); (split; [done|]); (split; [done|]).
  - split; [intros k' [= <-]; by eapply (Hpick _ 2%nat)|].
    split; [intros d' ver' [= <- <-]; split;
            [by eapply (Hpick _ 0%nat)|by eapply (Hpick _ 1%nat)]|].
    split; [repeat constructor|].
    apply (bool_decide_unpack _). vm_compute. reflexivity.
  - split; [by intros k' ?|].
    split; [intros d' ver' [= <- <-]; split;
            [by eapply (Hpick _ 0%nat)|by eapply (Hpick _ 1%nat)]|].
    split; [repeat constructor|].
    apply (bool_decide_unpack _). vm_compute. reflexivity.
  - split; [intros k' [= <-]; by eapply (Hpick _ 0%nat)|].
    split; [by intros d' ver' ?|].
    split; [repeat constructor|].
    apply (bool_decide_unpack _). vm_compute. reflexivity.
  - split; [by intros k' ?|]. split; [by intros d' ver' ?|].
    split; [repeat constructor|]. constructor.
Qed.

(** ** The disk IO worker *)
Section DiskFacts.

Import diskIO.

Variables (diskIOSensor Time : Type).
Variable newDiskIOSensor : Time -> device -> ioSensor -> diskIOSensor.
Variable newDiskIORateSensor : device -> ioSensor -> diskIOSensor.
Variable update : diskIOSensor -> gmap nat N -> Z -> diskIOSensor.
Variable getDevice : string -> device * option (gmap nat N) + error.

#[local] Abbreviation worker_t := (ioWorker diskIOSensor Time).
#[local] Abbreviation wf := (well_formed diskIOSensor Time).
#[local] Abbreviation addDev :=
  (addDevice diskIOSensor Time newDiskIOSensor newDiskIORateSensor).
#[local] Abbreviation updDev := (updateDevice diskIOSensor Time update).
#[local] Abbreviation updTot := (updateTotals diskIOSensor Time update).
#[local] Abbreviation visit1 :=
  (visit diskIOSensor Time newDiskIOSensor newDiskIORateSensor update getDevice).
#[local] Abbreviation readable := (diskIO.readable getDevice).
#[local] Abbreviation contribution := (diskIO.contribution getDevice).

Lemma wf_total_length (w : worker_t) : wf w -> total_length diskIOSensor Time w = 4%nat.
Proof.
  intros [[ss Hs] Hall]. unfold total_length. rewrite Hs. cbn. by eapply Hall.
Qed.

Lemma wf_NewIOWorker (bt : Time) :
  wf (NewIOWorker diskIOSensor Time newDiskIOSensor newDiskIORateSensor bt).
Proof.
  split.
  - eexists. cbn. apply lookup_singleton_eq.
  - intros name ss. cbn. intros [_ <-]%lookup_singleton_Some. done.
Qed.

Lemma wf_addDevice (w : worker_t) (dev : device) : wf w -> wf (addDev w dev).
Proof.
  intros [[ts Hts] Hall]. unfold addDevice.
  destruct (devices _ _ w !! id dev) as [ss|] eqn:Hd; [by split; [exists ts|]|].
  split; cbn.
  - exists ts. rewrite lookup_insert_ne; [done|]. intros He. congruence.
  - intros name ss. destruct (decide (id dev = name)) as [<-|Hne].
    + rewrite lookup_insert_eq. by intros [= <-].
    + rewrite lookup_insert_ne by done. apply Hall.
Qed.

Lemma wf_insert_map (w : worker_t) (name : string) (ss : list diskIOSensor)
    (f : diskIOSensor -> diskIOSensor) :
  wf w -> devices _ _ w !! name = Some ss ->
  wf {| boottime := boottime _ _ w; devices := <[name := map f ss]> (devices _ _ w) |}.
Proof.
  intros [[ts Hts] Hall] Hs. split; cbn.
  - destruct (decide (name = "total")) as [->|Hne].
    + eexists. apply lookup_insert_eq.
    + exists ts. by rewrite lookup_insert_ne.
  - intros n ss'. destruct (decide (name = n)) as [<-|Hne].
    + rewrite lookup_insert_eq. intros [= <-]. rewrite length_map. by eapply Hall.
    + rewrite lookup_insert_ne by done. apply Hall.
Qed.

Lemma updateDevice_wf (w : worker_t) (dev : device) (stats : option (gmap nat N))
    (delta : Z) :
  wf w ->
  exists w' out, updDev w dev stats delta = Some (w', out)
                 /\ wf w' /\ length out = 4%nat.
Proof.
  intros Hw. unfold updateDevice. rewrite wf_total_length by done.
  destruct (devices _ _ w !! id dev) as [ss|] eqn:Hd; [|by eexists _, _].
  destruct stats as [st|]; [|by eexists _, _].
  assert (Hlen : length ss = 4%nat) by (destruct Hw as [_ Hall]; by eapply Hall).
  rewrite Hlen. cbn. eexists _, _. split; [done|]. split; [|done].
  by apply wf_insert_map.
Qed.

Lemma visit_step (delta : Z) (n : string) (st : loop_state diskIOSensor Time) :
  wf (worker _ _ st) ->
  exists st',
    visit1 delta (Some st) n = Some st'
    /\ wf (worker _ _ st')
    /\ length (sensors _ _ st')
       = (length (sensors _ _ st) + if readable n then 4 else 0)%nat
    /\ totals _ _ st'
       = match contribution n with
         | Some s => add_stats (totals _ _ st) s
         | None => totals _ _ st
         end
    /\ unreadable _ _ st'
       = (unreadable _ _ st + if readable n then 0 else 1)%nat.
Proof.
  intros Hw. unfold visit, diskIO.readable, diskIO.contribution.
  destruct (getDevice n) as [[dev stats]|err].
  - destruct (updateDevice_wf (addDev (worker _ _ st) dev) dev stats delta)
      as (w' & out & Hu & Hw' & Hout); [by apply wf_addDevice|].
    rewrite Hu. eexists. split; [done|]. cbn. split; [done|].
    split; [rewrite length_app; lia|]. split; [|lia].
    destruct stats as [s|]; by destruct (is_aggregate dev).
  - eexists. split; [done|]. cbn. split; [done|]. split; [lia|]. split; [done|lia].
Qed.

Lemma visit_fold (delta : Z) (names : list string) (st : loop_state diskIOSensor Time) :
  wf (worker _ _ st) ->
  exists st',
    fold_left (visit1 delta) names (Some st) = Some st'
    /\ wf (worker _ _ st')
    /\ length (sensors _ _ st')
       = (length (sensors _ _ st)
          + 4 * length (filter (fun n => readable n = true) names))%nat
    /\ totals _ _ st'
       = fold_left add_stats (omap contribution names) (totals _ _ st)
    /\ unreadable _ _ st'
       = (unreadable _ _ st + length (filter (fun n => readable n = false) names))%nat.
Proof.
  revert st. induction names as [|n names IH]; intros st Hw.
  - exists st. cbn. split; [done|]. split; [done|]. split; [lia|]. split; [done|lia].
  - destruct (visit_step delta n st Hw) as (st1 & Hv & Hw1 & Hl1 & Ht1 & Hu1).
    destruct (IH st1 Hw1) as (st' & Hf & Hwf & Hlen & Htot & Hun).
    exists st'. cbn [fold_left]. rewrite Hv. split; [done|]. split; [done|].
    rewrite !filter_cons. cbn [omap].
    rewrite Hlen, Htot, Hun, Hl1, Ht1, Hu1.
    destruct (readable n) eqn:Hr.
    + rewrite decide_True by done. rewrite decide_False by done.
      split; [cbn; lia|]. split; [|cbn; lia].
      by destruct (contribution n) eqn:Hc; cbn; rewrite Hc.
    + rewrite decide_False by done. rewrite decide_True by done.
      split; [cbn; lia|]. split; [|cbn; lia].
      by destruct (contribution n) eqn:Hc; cbn; rewrite Hc.
Qed.

End DiskFacts.

Section DiskTheorems.

Import diskIO.

Variables (diskIOSensor Time : Type).
Variable newDiskIOSensor : Time -> device -> ioSensor -> diskIOSensor.
Variable newDiskIORateSensor : device -> ioSensor -> diskIOSensor.
Variable update : diskIOSensor -> gmap nat N -> Z -> diskIOSensor.
Variable getDevice : string -> device * option (gmap nat N) + error.

(** X20.  A worker made by [NewIOWorker] tracks the [total] device with
    four sensors, and [Sensors] keeps it that way.  On such a worker
    [Sensors] never indexes out of range and never fails once the device
    names are known; it returns exactly four entries for every device that
    can be read, none for a device that cannot, and four for the totals.
    When the device names cannot be fetched it returns the wrapped error,
    no sensors, and an unchanged worker. *)
Theorem ioWorker_Sensors_four_per_device (w : ioWorker diskIOSensor Time)
    (names : list string) (duration : Z) (bt : Time) (err : error) :
  well_formed diskIOSensor Time w ->
  (exists w' out,
     Sensors diskIOSensor Time newDiskIOSensor newDiskIORateSensor update getDevice
       w (inl names) duration = Some (w', (out, None))
     /\ well_formed diskIOSensor Time w'
     /\ length out
        = (4 * length (filter (fun n => readable getDevice n = true) names) + 4)%nat)
  /\ Sensors diskIOSensor Time newDiskIOSensor newDiskIORateSensor update getDevice
       w (inr err) duration
     = Some (w, ([], Some (Wrapped "could not fetch disk devices" err)))
  /\ well_formed diskIOSensor Time
       (NewIOWorker diskIOSensor Time newDiskIOSensor newDiskIORateSensor bt).
Proof.
  intros Hw. split; [|split; [done|apply wf_NewIOWorker]].
  unfold Sensors.
  destruct (visit_fold diskIOSensor Time newDiskIOSensor newDiskIORateSensor update
              getDevice duration names
              {| worker := w; sensors := []; totals := ∅; unreadable := 0 |} Hw)
    as (st' & Hf & Hwf & Hlen & _ & _).
  rewrite Hf. unfold updateTotals.
  pose proof Hwf as [[ts Hts] Hall]. rewrite Hts.
  eexists _, _. split; [done|]. split.
  - by apply wf_insert_map.
  - rewrite length_app, length_map, length_seq, Hlen, (Hall _ _ Hts). cbn. lia.
Qed.

(** X21.  [addDevice] never rebuilds the sensors of a device that is
    already tracked: on such a device it changes nothing, it is idempotent
    on every device, and it leaves all other devices alone.  A tracked
    device that is polled with statistics keeps its sensors, each updated
    once. *)
Theorem addDevice_keeps_tracked_sensors (w : ioWorker diskIOSensor Time) (dev : device)
    (ss : list diskIOSensor) (st : gmap nat N) (delta : Z) :
  well_formed diskIOSensor Time w ->
  devices _ _ w !! id dev = Some ss ->
  addDevice diskIOSensor Time newDiskIOSensor newDiskIORateSensor w dev = w
  /\ (forall dev',
        let w1 := addDevice diskIOSensor Time newDiskIOSensor newDiskIORateSensor w dev' in
        addDevice diskIOSensor Time newDiskIOSensor newDiskIORateSensor w1 dev' = w1
        /\ forall name, name <> id dev' -> devices _ _ w1 !! name = devices _ _ w !! name)
  /\ exists w' out,
       updateDevice diskIOSensor Time update
         (addDevice diskIOSensor Time newDiskIOSensor newDiskIORateSensor w dev)
         dev (Some st) delta = Some (w', out)
       /\ devices _ _ w' !! id dev = Some (map (fun s => update s st delta) ss)
       /\ out = map (fun idx => Some (id dev, idx)) (seq 0 4).
Proof.
  intros Hw Hd.
  assert (Ha : addDevice diskIOSensor Time newDiskIOSensor newDiskIORateSensor w dev = w)
    by (unfold addDevice; by rewrite Hd).
  split; [done|]. split.
  - intros dev' w1. subst w1. unfold addDevice.
    destruct (devices _ _ w !! id dev') as [ss'|] eqn:Hd'.
    + rewrite Hd'. split; [done|done].
    + cbn. rewrite lookup_insert_eq. split; [done|].
      intros name Hne. by rewrite lookup_insert_ne.
  - rewrite Ha. unfold updateDevice. rewrite Hd.
    rewrite (wf_total_length _ _ w Hw).
    assert (Hlen : length ss = 4%nat) by (destruct Hw as [_ Hall]; by eapply Hall).
    rewrite Hlen. cbn. eexists _, _. split; [done|]. split; [|done].
    apply lookup_insert_eq.
Qed.

(** X22.  The totals [Sensors] feeds to the [total] device are the sums,
    in 64-bit unsigned arithmetic, of the statistics of the devices that
    could be read and are not aggregates: a device whose id starts with
    [dm] or [md], a device that cannot be read and a device without
    statistics add nothing. *)
Theorem ioWorker_totals_skip_aggregates (w : ioWorker diskIOSensor Time)
    (names : list string) (duration : Z) :
  well_formed diskIOSensor Time w ->
  let T := fold_left add_stats (omap (contribution getDevice) names) ∅ in
  (exists w' out ts,
     Sensors diskIOSensor Time newDiskIOSensor newDiskIORateSensor update getDevice
       w (inl names) duration = Some (w', (out, None))
     /\ devices _ _ w' !! "total" = Some (map (fun s => update s T duration) ts)
     /\ length ts = 4%nat)
  /\ (forall n dev s,
        getDevice n = inl (dev, s) ->
        gourl.has_prefix "dm" (id dev) = true \/ gourl.has_prefix "md" (id dev) = true ->
        contribution getDevice n = None)
  /\ (forall n e, getDevice n = inr e -> contribution getDevice n = None)
  /\ (forall n dev s,
        getDevice n = inl (dev, Some s) ->
        gourl.has_prefix "dm" (id dev) = false ->
        gourl.has_prefix "md" (id dev) = false ->
        contribution getDevice n = Some s)
  /\ (forall (a b : gmap nat N) k x y,
        a !! k = Some x -> b !! k = Some y ->
        add_stats a b !! k = Some ((x + y) `mod` 2 ^ 64)%N).
Proof.
  intros Hw T. split; [|split; [|split; [|split]]].
  - unfold Sensors.
    destruct (visit_fold diskIOSensor Time newDiskIOSensor newDiskIORateSensor update
                getDevice duration names
                {| worker := w; sensors := []; totals := ∅; unreadable := 0 |} Hw)
      as (st' & Hf & Hwf & _ & Htot & _).
    rewrite Hf. unfold updateTotals.
    pose proof Hwf as [[ts Hts] Hall]. rewrite Hts.
    eexists _, _, ts. split; [done|]. split; [|by eapply Hall].
    cbn. rewrite lookup_insert_eq. by rewrite Htot.
  - intros n dev s Hg Hp. unfold contribution, is_aggregate. rewrite Hg.
    destruct s; [|done]. by destruct Hp as [-> | ->]; rewrite ?orb_true_r.
  - intros n e Hg. unfold contribution. by rewrite Hg.
  - intros n dev s Hg H1 H2. unfold contribution, is_aggregate. by rewrite Hg, H1, H2.
  - intros a b k x y Ha Hb. unfold add_stats.
    rewrite lookup_union_with, Ha, Hb. done.
Qed.

End DiskTheorems.

Lemma ioWorker_Sensors_four_per_device_witness :
  exists w' out,
    diskIO.Sensors N unit exampleNewSensor exampleNewRateSensor exampleUpdate exampleGetDevice
      (diskIO.NewIOWorker N unit exampleNewSensor exampleNewRateSensor tt)
      (inl ["sda"; "gone"; "dm-0"]) 5 = Some (w', (out, None))
    /\ length out = 12%nat.
Proof.
  destruct (ioWorker_Sensors_four_per_device N unit exampleNewSensor exampleNewRateSensor
              exampleUpdate exampleGetDevice
              (diskIO.NewIOWorker N unit exampleNewSensor exampleNewRateSensor tt)
              ["sda"; "gone"; "dm-0"] 5 tt ErrDBClosed)
    as ((w' & out & HS & _ & Hlen) & _).
  - apply wf_NewIOWorker.
  - exists w', out. split; [exact HS|]. rewrite Hlen. reflexivity.
Defined.

Lemma addDevice_keeps_tracked_sensors_witness :
  diskIO.addDevice N unit exampleNewSensor exampleNewRateSensor
    (diskIO.NewIOWorker N unit exampleNewSensor exampleNewRateSensor tt)
    (diskIO.mkDevice "total")
  = diskIO.NewIOWorker N unit exampleNewSensor exampleNewRateSensor tt.
Proof.
  apply (addDevice_keeps_tracked_sensors N unit exampleNewSensor exampleNewRateSensor
           exampleUpdate
           (diskIO.NewIOWorker N unit exampleNewSensor exampleNewRateSensor tt)
           (diskIO.mkDevice "total") [0; 0; 0; 0]%N ∅ 0).
  - apply wf_NewIOWorker.
  - reflexivity.
Defined.

Lemma ioWorker_totals_skip_aggregates_witness :
  fold_left diskIO.add_stats
    (omap (diskIO.contribution exampleGetDevice) ["sda"; "gone"; "dm-0"; "sda"]) ∅ !! 0%nat
  = Some 10%N
  /\ diskIO.contribution exampleGetDevice "dm-0" = None.
Proof.
  destruct (ioWorker_totals_skip_aggregates N unit exampleNewSensor exampleNewRateSensor
              exampleUpdate exampleGetDevice
              (diskIO.NewIOWorker N unit exampleNewSensor exampleNewRateSensor tt)
              ["sda"; "gone"; "dm-0"; "sda"] 5)
    as (_ & Hagg & _).
  - apply wf_NewIOWorker.
  - split; [vm_compute; reflexivity|].
    apply (Hagg "dm-0" (diskIO.mkDevice "dm-0") (Some {[ 0%nat := 7%N ]})).
    + reflexivity.
    + left. reflexivity.
Defined.

(** ** The device name *)
Section CutFacts.

Lemma cut_no_separator (c : ascii) (s : string) :
  gourl.contains c (gourl.cut c s).1 = false.
Proof.
  induction s as [|d s IH]; [done|]. cbn.
  destruct (Ascii.eqb d c) eqn:Hd; [done|].
  destruct (gourl.cut c s) as [before after]. cbn in *.
  rewrite IH, orb_false_r. rewrite Ascii.eqb_sym. done.
Qed.

Lemma cut_splits (c : ascii) (s : string) :
  s = (gourl.cut c s).1
      +:+ match (gourl.cut c s).2 with
          | Some after => String c after
          | None => EmptyString
          end.
Proof.
  induction s as [|d s IH]; [done|]. cbn.
  destruct (Ascii.eqb_spec d c) as [->|Hd]; [done|].
  destruct (gourl.cut c s) as [before after]. cbn in *.
  cbv [String.append]. fold String.append. by rewrite <- IH.
Qed.

Lemma cut_without_separator (c : ascii) (s : string) :
  gourl.contains c s = false -> gourl.cut c s = (s, None).
Proof.
  induction s as [|d s IH]; [done|]. cbn.
  intros [Hd Hs]%orb_false_iff. rewrite Ascii.eqb_sym, Hd.
  by rewrite IH.
Qed.

End CutFacts.

(** X23.  [DeviceName] is the hostname up to its first dot: it contains no
    dot, the hostname starts with it, a hostname without a dot is returned
    whole, and taking the device name of a device name changes nothing. *)
Theorem DeviceName_is_first_label (l : device.Device) :
  gourl.contains "."%char (device.DeviceName l) = false
  /\ (exists rest, device.hostname l = device.DeviceName l +:+ rest
                   /\ (rest = "" \/ exists domain, rest = String "."%char domain))
  /\ (gourl.contains "."%char (device.hostname l) = false ->
      device.DeviceName l = device.hostname l)
  /\ (gourl.cut "."%char (device.DeviceName l)).1 = device.DeviceName l.
Proof.
  unfold device.DeviceName. split; [apply cut_no_separator|]. split; [|split].
  - eexists. split; [apply (cut_splits "."%char)|].
    destruct (gourl.cut "."%char (device.hostname l)).2 as [d|]; [right; by eexists|by left].
  - intros Hn. by rewrite cut_without_separator.
  - rewrite cut_without_separator; [done|]. apply cut_no_separator.
Qed.

Lemma DeviceName_is_first_label_witness :
  device.DeviceName (device.mkDevice "go-hass-agent" "v10" "laptop.lan.example" "id" "" "")
  = "laptop"
  /\ device.DeviceName (device.mkDevice "go-hass-agent" "v10" "laptop" "id" "" "") = "laptop".
Proof.
  split; [reflexivity|].
  destruct (DeviceName_is_first_label
              (device.mkDevice "go-hass-agent" "v10" "laptop" "id" "" ""))
    as (_ & _ & Hwhole & _).
  apply Hwhole. reflexivity.
Defined.

(** ** [checkRegistration] *)
Section CheckFacts.

Context `{url.Package}.


End CheckFacts.




(** ** Further runs *)

Lemma Run_sorts_by_first_match_witness :
  agentRun.sort_controllers
    [agentRun.mkAny (Some "linux sensors") (Some "linux mqtt");
     agentRun.mkAny None (Some "commands")]
  = (["linux sensors"], ["commands"])
  /\ agentRun.runs_mqtt [agentRun.mkAny (Some "linux sensors") (Some "linux mqtt")] = false.
Proof.
  destruct (Run_sorts_by_first_match
              [agentRun.mkAny (Some "linux sensors") (Some "linux mqtt");
               agentRun.mkAny None (Some "commands")]) as (H1 & H2 & _).
  destruct (Run_sorts_by_first_match
              [agentRun.mkAny (Some "linux sensors") (Some "linux mqtt")]) as (_ & _ & H3).
  split.
  - rewrite (surjective_pairing (agentRun.sort_controllers _)), H1, H2. reflexivity.
  - destruct (agentRun.runs_mqtt [agentRun.mkAny (Some "linux sensors") (Some "linux mqtt")])
      eqn:Hr; [|reflexivity].
    destruct H3 as [H3 _]. destruct (H3 eq_refl) as (c & m & Hin & Hs & _).
    apply list_elem_of_singleton in Hin. subst c. discriminate.
Defined.

Lemma Stop_closes_done_witness :
  let a := agentRun.mkAgent false false (Some registeredPrefs) in
  let failing := fun _ : preferences.Preferences => Some (ErrOther "disk full") in
  agentRun.done_closed (agentRun.Stop failing a registeredPrefs).1 = true
  /\ agentRun.done_panicked (agentRun.Stop failing a registeredPrefs).1 = false
  /\ agentRun.done_panicked
       (agentRun.Stop failing (agentRun.Stop failing a registeredPrefs).1 registeredPrefs).1
     = true.
Proof.
  intros a failing.
  destruct (Stop_closes_done failing a registeredPrefs registeredPrefs)
    as (H1 & H2 & _ & H4 & _).
  split; [exact H1|]. split; [|exact H4].
  rewrite H2; reflexivity.
Defined.

Lemma SaveMQTTPreferences_sets_before_saving_witness :
  let a := agentRun.mkAgent false false (Some registeredPrefs) in
  let failing := fun _ : preferences.Preferences => Some (ErrOther "disk full") in
  let m := Some (preferences.mkMQTT "tcp://broker:1883") in
  (exists p', agentRun.prefs (agentRun.SaveMQTTPreferences failing a m).1 = Some p'
              /\ preferences.MQTT_ p' = m)
  /\ agentRun.SaveMQTTPreferences failing (agentRun.mkAgent false false None) m
     = (agentRun.mkAgent false false None, Some agentRun.ErrInvalidPrefernces).
Proof.
  intros a failing m.
  destruct (SaveMQTTPreferences_sets_before_saving failing a m) as [_ Hset].
  destruct (SaveMQTTPreferences_sets_before_saving failing
              (agentRun.mkAgent false false None) m) as [Hnil _].
  split.
  - destruct (Hset registeredPrefs eq_refl) as (p' & Hp & Hm & _).
    exists p'. split; [exact Hp|exact Hm].
  - apply Hnil. reflexivity.
Defined.

Lemma infoWorker_Sensors_degrade_witness :
  exists s,
    s ∈ (infoWorker.Sensors "ProcFS" (inr (ErrOther "no os-release")) (inl "6.8.0")).1.1
    /\ infoWorker.UniqueID s = "kernel_version" /\ infoWorker.Value s = "6.8.0".
Proof.
  destruct (infoWorker_Sensors_degrade "ProcFS" (inr (ErrOther "no os-release"))
              (inl "6.8.0")) as (_ & _ & _ & Hk & _).
  apply (Hk "6.8.0"). reflexivity.
Defined.
